(** * ElectrumSV: transaction codec, payment requests, invoice store and the
    Ledger signature parser, embedded from the Python sources.

    Python values are modelled as follows.
    - [int] is [Z] (unbounded); a [bytes] object is a [list byte]; a [str] is a
      [string] (characters are code points below 256).
    - A raised exception is the [Err] case of [result]; the exception class is
      kept, and the message where the code builds one.
    - An object mutated in place is threaded as explicit state.
    - Functions of the [bitcoinx] library and of the standard library that the
      sources call are either written out (packing, push encoding, hex) or,
      for the elliptic-curve and hashing code, taken as operations of the
      [Bitcoinx] class. *)

From Stdlib Require Import ZArith Lia.
From Stdlib Require Import Strings.Byte Strings.Ascii Strings.String.
From stdpp Require Import base option list gmap strings pretty.

Open Scope Z_scope.

(** ** Bytes *)

Abbreviation bytes := (list byte).

Definition Z_of_byte (b : byte) : Z := Z.of_N (Byte.to_N b).

Definition byte_of_Z (z : Z) : byte :=
  match Byte.of_N (Z.to_N (z mod 256)) with
  | Some b => b
  | None => x00
  end.

#[global] Instance byte_eq_dec : EqDecision byte := Byte.byte_eq_dec.

(** ** Exceptions *)

(** The message of a [SerializationError]: either the text the stream code
    gives, or the text of the [struct.error] it wraps. *)
Inductive ser_msg :=
  | msg_call_write_first            (* "call write(bytes) before trying to deserialize" *)
  | msg_read_past_end               (* "attempt to read past end of buffer" *)
  | msg_struct_error.               (* str(struct.error) *)

Inductive exn :=
  | SerializationError (m : ser_msg)
  | StructError                     (* struct.error *)
  | IndexError
  | ValueError
  | TypeError
  | AssertionError
  | AttributeError (attr : string)
  | KeyError (key : string)
  | RuntimeError (m : string)
  | InvalidSignatureError
  | JSONDecodeError
  | Bip270Exception (m : string)
  | OtherException.

#[global] Instance ser_msg_eq_dec : EqDecision ser_msg.
Proof. solve_decision. Defined.
#[global] Instance exn_eq_dec : EqDecision exn.
Proof. solve_decision. Defined.

Inductive result (A : Type) :=
  | Ok (a : A)
  | Err (e : exn).
Arguments Ok {A} a.
Arguments Err {A} e.

#[global] Instance result_ret : MRet result := fun A a => Ok a.
#[global] Instance result_bind : MBind result := fun A B k m =>
  match m with
  | Ok a => k a
  | Err e => Err e
  end.

Definition is_Ok {A} (r : result A) : bool :=
  match r with Ok _ => true | Err _ => false end.

(** [assert c] *)
Definition py_assert (c : bool) : result unit :=
  if c then Ok tt else Err AssertionError.

(** [b[i]] on a bytes object, for [i >= 0]: an [int], or [IndexError]. *)
Definition getitem (b : bytes) (i : nat) : result Z :=
  match b !! i with
  | Some x => Ok (Z_of_byte x)
  | None => Err IndexError
  end.

(** [b[i:j]] for [0 <= i] and [0 <= j]: never raises, clamps at the end. *)
Definition slice (b : bytes) (i j : nat) : bytes := take (j - i) (drop i b).

(** ** Hexadecimal text: [bytes.hex] and [bytes.fromhex] *)

Definition hex_digit (n : Z) : ascii :=
  ascii_of_N (Z.to_N (if n <? 10 then 48 + n else 87 + n)).

Definition hexval (c : ascii) : option Z :=
  let n := Z.of_N (N_of_ascii c) in
  if (48 <=? n) && (n <=? 57) then Some (n - 48)
  else if (97 <=? n) && (n <=? 102) then Some (n - 87)
  else if (65 <=? n) && (n <=? 70) then Some (n - 55)
  else None.

(** [b.hex()]: two lower-case digits per byte. *)
Fixpoint hex (b : bytes) : string :=
  match b with
  | [] => EmptyString
  | x :: b' =>
      String (hex_digit (Z_of_byte x / 16))
        (String (hex_digit (Z_of_byte x mod 16)) (hex b'))
  end.

Definition is_space (c : ascii) : bool :=
  let n := Z.of_N (N_of_ascii c) in
  (n =? 32) || ((9 <=? n) && (n <=? 13)).

(** [bytes.fromhex(s)] ([util.bfh]): pairs of hexadecimal digits of either
    case, ASCII whitespace allowed between pairs; [ValueError] otherwise. *)
Fixpoint fromhex (s : string) : result bytes :=
  match s with
  | EmptyString => Ok []
  | String c1 s1 =>
      if is_space c1 then fromhex s1
      else
        match s1 with
        | EmptyString => Err ValueError
        | String c2 s2 =>
            match hexval c1, hexval c2 with
            | Some h, Some l =>
                rest ← fromhex s2; Ok (byte_of_Z (16 * h + l) :: rest)
            | _, _ => Err ValueError
            end
        end
  end.

(** ** Python values as [json.loads] returns them *)

Inductive pyval :=
  | PyNone
  | PyBool (b : bool)
  | PyInt (z : Z)
  | PyFloat (repr : string)
  | PyStr (s : string)
  | PyList (l : list pyval)
  | PyDict (d : list (string * pyval)).

(** A [dict] with [str] keys: the items in insertion order, keys distinct. *)
Abbreviation pydict V := (list (string * V)).

Fixpoint dict_get {V} (d : pydict V) (k : string) : option V :=
  match d with
  | [] => None
  | (k', v) :: d' => if decide (k' = k) then Some v else dict_get d' k
  end.

(** [d[k] = v]: replaces the value of an existing key in place, appends a new
    key at the end. *)
Fixpoint dict_set {V} (d : pydict V) (k : string) (v : V) : pydict V :=
  match d with
  | [] => [(k, v)]
  | (k', v') :: d' =>
      if decide (k' = k) then (k, v) :: d' else (k', v') :: dict_set d' k v
  end.

Fixpoint dict_del {V} (d : pydict V) (k : string) : pydict V :=
  match d with
  | [] => []
  | (k', v') :: d' => if decide (k' = k) then d' else (k', v') :: dict_del d' k
  end.

(** [d.pop(k)]: [KeyError] when the key is absent. *)
Definition dict_pop {V} (d : pydict V) (k : string) : result (V * pydict V) :=
  match dict_get d k with
  | Some v => Ok (v, dict_del d k)
  | None => Err (KeyError k)
  end.

Fixpoint is_prefix (p s : string) : bool :=
  match p, s with
  | EmptyString, _ => true
  | String a p', String b s' => if decide (a = b) then is_prefix p' s' else false
  | String _ _, EmptyString => false
  end.

Fixpoint is_substring (p s : string) : bool :=
  is_prefix p s ||
  match s with
  | EmptyString => false
  | String _ s' => is_substring p s'
  end.

(** [k in v] for a [str] key [k]. *)
Definition py_contains (k : string) (v : pyval) : result bool :=
  match v with
  | PyDict d => Ok (bool_decide (is_Some (dict_get d k)))
  | PyList l =>
      Ok (existsb (fun x => match x with PyStr s => bool_decide (s = k) | _ => false end) l)
  | PyStr s => Ok (is_substring k s)
  | PyNone | PyBool _ | PyInt _ | PyFloat _ => Err TypeError
  end.

(** [v[k]] for a [str] key [k]. *)
Definition py_getitem (v : pyval) (k : string) : result pyval :=
  match v with
  | PyDict d =>
      match dict_get d k with
      | Some x => Ok x
      | None => Err (KeyError k)
      end
  | _ => Err TypeError
  end.

(** [v.get(k)]: only a [dict] has the method. *)
Definition py_get (v : pyval) (k : string) : result pyval :=
  match v with
  | PyDict d => Ok (default PyNone (dict_get d k))
  | _ => Err (AttributeError "get")
  end.

(** ** [json.dumps] of a [str] (the default [ensure_ascii=True]) *)

Definition dquote : ascii := ascii_of_N 34.
Definition backslash : ascii := ascii_of_N 92.

Definition json_escape (c : ascii) : string :=
  let n := Z.of_N (N_of_ascii c) in
  if n =? 34 then String backslash (String dquote EmptyString)
  else if n =? 92 then String backslash (String backslash EmptyString)
  else if n =? 10 then String backslash "n"
  else if n =? 13 then String backslash "r"
  else if n =? 9 then String backslash "t"
  else if n =? 12 then String backslash "f"
  else if n =? 8 then String backslash "b"
  else if (32 <=? n) && (n <=? 126) then String c EmptyString
  else String backslash
         (String "u" (String "0" (String "0"
           (String (hex_digit (n / 16)) (String (hex_digit (n mod 16)) EmptyString))))).

Fixpoint json_escape_all (s : string) : string :=
  match s with
  | EmptyString => EmptyString
  | String c s' => json_escape c +:+ json_escape_all s'
  end.

Definition json_dumps_str (s : string) : string :=
  String dquote (json_escape_all s +:+ String dquote EmptyString).

(** ** Operations of the libraries the sources rest on

    [json.loads] and [str()] of the standard library; the key, address and
    signature-hash code of [bitcoinx]. A [PublicKey] object is an element of
    the type [PublicKey]; nothing is assumed of the operations. *)

Inductive Address :=
  | P2PKH_Address (hash160 : bytes)
  | P2SH_Address (hash160 : bytes).

#[global] Instance Address_eq_dec : EqDecision Address.
Proof. solve_decision. Defined.

Class Library := {
  json_loads : string -> result pyval;
  py_str : pyval -> string;
  (* classify_output_script(script, Net.COIN).to_string() *)
  address_string : bytes -> result string;
}.

(** ** Ledger plugin: [Ledger_KeyStore.sign_message] *)

Module Ledger.

(** What the exchange with the device (the [try] block) ends in. *)
Inductive device_outcome :=
  | Signed (signature : bytes)      (* signMessageSign returned *)
  | CancelledOnDevice               (* BTChipException, sw = 0x6985 *)
  | CancelledByUser                 (* UserWarning *)
  | DeviceError (e : exn).          (* give_error raises *)

Definition sign_message (o : device_outcome) : result bytes :=
  match o with
  | CancelledOnDevice | CancelledByUser => Ok []
  | DeviceError e => Err e
  | Signed signature =>
      (* Parse the ASN.1 signature *)
      rLength ← getitem signature 3;
      let r := slice signature 4 (4 + Z.to_nat rLength) in
      sLength ← getitem signature (4 + Z.to_nat rLength + 1);
      let s := drop (4 + Z.to_nat rLength + 2) signature in
      let r := if rLength =? 33 then drop 1 r else r in
      let s := if sLength =? 33 then drop 1 s else s in
      (* And convert it *)
      b0 ← getitem signature 0;
      Ok (byte_of_Z (27 + 4 + Z.land b0 1) :: r ++ s)
  end.

End Ledger.

(** ** State threaded through the methods of a mutable object

    [stx S A]: a computation on a state [S] that returns an [A] or raises; the
    state is kept when it raises, as the object stays mutated. *)

Definition stx (S A : Type) : Type := S -> result A * S.

#[global] Instance stx_ret {S} : MRet (stx S) := fun A a s => (Ok a, s).
#[global] Instance stx_bind {S} : MBind (stx S) := fun A B k m s =>
  match m s with
  | (Ok a, s') => k a s'
  | (Err e, s') => (Err e, s')
  end.

Definition raise {S A} (e : exn) : stx S A := fun s => (Err e, s).
Definition lift {S A} (r : result A) : stx S A := fun s => (r, s).
Definition get_state {S} : stx S S := fun s => (Ok s, s).
Definition put_state {S} (s : S) : stx S unit := fun _ => (Ok tt, s).

Fixpoint result_mapM {A B} (f : A -> result B) (l : list A) : result (list B) :=
  match l with
  | [] => Ok []
  | x :: l' => y ← f x; ys ← result_mapM f l'; Ok (y :: ys)
  end.

(** ** paymentrequest.py: [Output] *)

(** [Script.from_hex(v)] of bitcoinx: [Script(bytes.fromhex(v))]. *)
Definition Script_from_hex (v : pyval) : result bytes :=
  match v with
  | PyStr s => fromhex s
  | _ => Err TypeError
  end.

Module Output.

Record t := mk {
  script : bytes;
  amount : option Z;                (* Optional[int] *)
  description : option string;      (* Optional[str] *)
}.

Definition init (script : bytes) (amount : option Z) (description : option string)
  : result t :=
  match description with
  | Some d =>
      let description_json := json_dumps_str d in
      if (100 <? String.length description_json)%nat
      then Err (Bip270Exception "Output description too long")
      else Ok (mk script amount description)
  | None => Ok (mk script amount description)
  end.

Definition from_dict (data : pyval) : result t :=
  has_script ← py_contains "script" data;
  if negb has_script then Err (Bip270Exception "Missing required 'script' field") else
  script_hex ← py_getitem data "script";
  amount ← py_get data "amount";
  amount ← match amount with
           | PyNone => Ok None
           | PyInt z => Ok (Some z)
           | _ => Err (Bip270Exception "Invalid 'amount' field")
           end;
  description ← py_get data "description";
  description ← match description with
                | PyNone => Ok None
                | PyStr d => Ok (Some d)
                | _ => Err (Bip270Exception "Invalid 'description' field")
                end;
  script ← Script_from_hex script_hex;
  init script amount description.

(** [if self.amount and type(self.amount) is int]: an absent amount and the
    amount 0 are both false; likewise the empty description. *)
Definition to_dict (self : t) : pyval :=
  PyDict
    ([("script", PyStr (hex (script self)))]
     ++ match amount self with
        | Some a => if decide (a = 0) then [] else [("amount", PyInt a)]
        | None => []
        end
     ++ match description self with
        | Some d => if decide (d = EmptyString) then [] else [("description", PyStr d)]
        | None => []
        end).

End Output.

(** ** paymentrequest.py: [PaymentRequest] *)

Definition py_is_str (v : pyval) (s : string) : bool :=
  match v with
  | PyStr x => bool_decide (x = s)
  | _ => false
  end.

Module PaymentRequest.

Definition MAXIMUM_JSON_LENGTH : Z := 10 * 1000 * 1000.

Record t := mk {
  id : string;
  requestor : option string;
  tx : option string;
  outputs : list Output.t;
  creation_timestamp : Z;
  expiration_timestamp : option Z;
  memo : option string;
  payment_url : option string;
  merchant_data : option string;
}.

(** [PaymentRequest(outputs)]; [rand_id] is [os.urandom(16).hex()] and [now]
    is [int(time.time())]. *)
Definition init (rand_id : string) (now : Z) (outputs : list Output.t) : t :=
  mk rand_id None None outputs now None None None None.

Definition optional_int (field : string) (v : pyval) : result (option Z) :=
  match v with
  | PyNone => Ok None
  | PyInt z => Ok (Some z)
  | _ => Err (Bip270Exception ("Invalid json '" +:+ field +:+ "' field"))
  end.

Definition optional_str (field : string) (v : pyval) : result (option string) :=
  match v with
  | PyNone => Ok None
  | PyStr x => Ok (Some x)
  | _ => Err (Bip270Exception ("Invalid json '" +:+ field +:+ "' field"))
  end.

Definition from_json `{Library} (rand_id : string) (now : Z) (s : string) : result t :=
  if MAXIMUM_JSON_LENGTH <? Z.of_nat (String.length s)
  then Err (Bip270Exception "Invalid payment request, too large") else
  d ← json_loads s;
  network ← py_get d "network";
  if negb (py_is_str network "bitcoin")
  then Err (Bip270Exception ("Invalid json network: " +:+ py_str network)) else
  has_outputs ← py_contains "outputs" d;
  if negb has_outputs
  then Err (Bip270Exception "Missing required json 'outputs' field") else
  outs ← py_getitem d "outputs";
  match outs with
  | PyList l =>
      parsed ← result_mapM Output.from_dict l;
      let pr := init rand_id now parsed in
      has_creation ← py_contains "creationTimestamp" d;
      if negb has_creation
      then Err (Bip270Exception "Missing required json 'creationTimestamp' field") else
      creation_timestamp ← py_getitem d "creationTimestamp";
      match creation_timestamp with
      | PyInt creation_timestamp =>
          expiration_timestamp ← py_get d "expirationTimestamp";
          expiration_timestamp ← optional_int "expirationTimestamp" expiration_timestamp;
          memo ← py_get d "memo";
          memo ← optional_str "memo" memo;
          payment_url ← py_get d "paymentUrl";
          payment_url ← optional_str "paymentUrl" payment_url;
          merchant_data ← py_get d "merchantData";
          merchant_data ← optional_str "merchantData" merchant_data;
          Ok (mk (id pr) (requestor pr) (tx pr) (outputs pr) creation_timestamp
                expiration_timestamp memo payment_url merchant_data)
      | _ => Err (Bip270Exception "Invalid json 'creationTimestamp' field")
      end
  | _ => Err (Bip270Exception "Invalid json 'outputs' field")
  end.

(** [get_address]: [self.outputs[0].get_address_string()]. *)
Definition get_address `{Library} (self : t) : result string :=
  match outputs self with
  | [] => Err IndexError
  | o :: _ => address_string (Output.script o)
  end.

Definition truthy_str (s : option string) : bool :=
  match s with
  | Some x => negb (bool_decide (x = EmptyString))
  | None => false
  end.

(** [self.id if self.requestor else self.get_address()] *)
Definition get_id `{Library} (self : t) : result string :=
  if truthy_str (requestor self) then Ok (id self) else get_address self.

End PaymentRequest.

(** ** paymentrequest.py: [InvoiceStore] *)

Module InvoiceStore.

(** The attributes [__init__] binds on the instance: [_wallet_data] (the
    caller's mapping, shared), [invoices] and [paid]. The invoices are
    [PaymentRequest] objects shared with the callers: the store holds
    references into the heap of the [world]. *)
Record t := mk {
  _wallet_data : pydict pyval;
  invoices : pydict nat;
  paid : pydict string;
}.

Record world := mkWorld {
  heap : list PaymentRequest.t;
  store : t;
}.

Definition empty_request : PaymentRequest.t :=
  PaymentRequest.mk EmptyString None None [] 0 None None None None.

(** The object a reference held by the program points to. *)
Definition deref (w : world) (r : nat) : PaymentRequest.t :=
  default empty_request (heap w !! r).

(** Reading a mapping-valued attribute of the instance by name. The class
    body defines methods only, so a name [__init__] did not bind raises
    [AttributeError]. *)
Definition getattr_mapping (self : t) (name : string) : result (pydict pyval) :=
  if decide (name = "_wallet_data") then Ok (_wallet_data self)
  else Err (AttributeError name).

Definition opt_str (s : option string) : pyval :=
  match s with
  | Some x => PyStr x
  | None => PyNone
  end.

(** The dictionary [save] builds: one [{requestor, txid}] record per id. *)
Definition saved_invoices (w : world) : pyval :=
  PyDict (map (fun '(k, r) =>
                 (k, PyDict [("requestor", opt_str (PaymentRequest.requestor (deref w r)));
                             ("txid", opt_str (PaymentRequest.tx (deref w r)))]))
              (invoices (store w))).

Definition save : stx world unit := fun w =>
  let l := saved_invoices w in
  (* self.wallet_data['invoices'] = l *)
  match getattr_mapping (store w) "wallet_data" with
  | Ok wallet_data =>
      (Ok tt, mkWorld (heap w)
                 (mk (dict_set wallet_data "invoices" l) (invoices (store w)) (paid (store w))))
  | Err e => (Err e, w)
  end.

Definition set_paid `{Library} (pr : nat) (txid : string) : stx world unit := fun w =>
  let p := deref w pr in
  (* pr.tx = txid *)
  let p' := PaymentRequest.mk (PaymentRequest.id p) (PaymentRequest.requestor p) (Some txid)
              (PaymentRequest.outputs p) (PaymentRequest.creation_timestamp p)
              (PaymentRequest.expiration_timestamp p) (PaymentRequest.memo p)
              (PaymentRequest.payment_url p) (PaymentRequest.merchant_data p) in
  let w1 := mkWorld (<[pr := p']> (heap w)) (store w) in
  (* self.paid[txid] = pr.get_id() *)
  match PaymentRequest.get_id p' with
  | Ok key =>
      (Ok tt, mkWorld (heap w1)
                 (mk (_wallet_data (store w1)) (invoices (store w1))
                     (dict_set (paid (store w1)) txid key)))
  | Err e => (Err e, w1)
  end.

Definition add `{Library} (pr : nat) : stx world string := fun w =>
  match PaymentRequest.get_id (deref w pr) with
  | Err e => (Err e, w)
  | Ok key =>
      let w1 := mkWorld (heap w)
                  (mk (_wallet_data (store w)) (dict_set (invoices (store w)) key pr)
                      (paid (store w))) in
      match save w1 with
      | (Ok _, w2) => (Ok key, w2)
      | (Err e, w2) => (Err e, w2)
      end
  end.

(** The first item of [paid] whose value is [key], if any. *)
Fixpoint first_paid_for (key : string) (paid : pydict string) : option string :=
  match paid with
  | [] => None
  | (txid, k) :: paid' => if decide (k = key) then Some txid else first_paid_for key paid'
  end.

Definition remove (key : string) : stx world unit := fun w =>
  let paid1 :=
    match first_paid_for key (paid (store w)) with
    | Some txid => dict_del (paid (store w)) txid
    | None => paid (store w)
    end in
  let w1 := mkWorld (heap w) (mk (_wallet_data (store w)) (invoices (store w)) paid1) in
  match dict_pop (invoices (store w1)) key with
  | Err e => (Err e, w1)
  | Ok (_, invoices1) =>
      save (mkWorld (heap w1) (mk (_wallet_data (store w1)) invoices1 (paid (store w1))))
  end.

End InvoiceStore.

(** ** Integers in bytes: [struct] and the helpers of bitcoin.py *)

(** The [n] low bytes of [z], least significant first (two's complement for a
    negative [z]). *)
Fixpoint le_bytes (n : nat) (z : Z) : bytes :=
  match n with
  | O => []
  | S n' => byte_of_Z z :: le_bytes n' (z / 256)
  end.

Fixpoint le_decode (b : bytes) : Z :=
  match b with
  | [] => 0
  | x :: b' => Z_of_byte x + 256 * le_decode b'
  end.

(** The formats of [struct] the sources use. *)
Inductive fmt := fmt_h | fmt_H | fmt_i | fmt_I | fmt_q | fmt_Q.

Definition calcsize (f : fmt) : nat :=
  match f with
  | fmt_h | fmt_H => 2
  | fmt_i | fmt_I => 4
  | fmt_q | fmt_Q => 8
  end.

Definition fmt_signed (f : fmt) : bool :=
  match f with
  | fmt_h | fmt_i | fmt_q => true
  | fmt_H | fmt_I | fmt_Q => false
  end.

(** The value of exactly [calcsize f] bytes under format [f]. *)
Definition unpack_value (f : fmt) (b : bytes) : Z :=
  let u := le_decode b in
  if fmt_signed f && (2 ^ (8 * Z.of_nat (calcsize f) - 1) <=? u)
  then u - 2 ^ (8 * Z.of_nat (calcsize f))
  else u.

(** [struct.pack(f, v)]: [struct.error] when [v] is out of the format's range. *)
Definition struct_pack (f : fmt) (v : Z) : result bytes :=
  let bits := 8 * Z.of_nat (calcsize f) in
  let lo := if fmt_signed f then - 2 ^ (bits - 1) else 0 in
  let hi := if fmt_signed f then 2 ^ (bits - 1) else 2 ^ bits in
  if (lo <=? v) && (v <? hi) then Ok (le_bytes (calcsize f) v) else Err StructError.

(** Modelled from the spec: [int_to_hex(i, length)] of bitcoin.py, which is
    not among the sources; the spec has the fields written with it as "4
    bytes LE" and, for the value of an input, 8 bytes little-endian. Its
    result is a hexadecimal string. *)
Definition int_to_hex (i : Z) (length : nat) : string := hex (le_bytes length i).

(** The compact-size encoding of [i], as bytes. *)
Definition compact_size (i : Z) : bytes :=
  if i <? 253 then le_bytes 1 i
  else if i <? 2 ^ 16 then xfd :: le_bytes 2 i
  else if i <? 2 ^ 32 then xfe :: le_bytes 4 i
  else xff :: le_bytes 8 i.

(** Modelled from the spec: [var_int(i)] of bitcoin.py, which is not among
    the sources: the "compact-size" count, "thresholds at 253/2^16/2^32/2^64
    matching the standard variable-length integer scheme", as a hexadecimal
    string. *)
Definition var_int (i : Z) : string := hex (compact_size i).

(** Modelled from the spec: [push_script(x)] of bitcoin.py, which is not
    among the sources: the hexadecimal script [x] "pushed", that is preceded
    by the push opcode for its length in bytes (a direct push below 76 bytes,
    then OP_PUSHDATA1, OP_PUSHDATA2 and OP_PUSHDATA4 with a length of 1, 2 and
    4 bytes). *)
Definition op_push (i : Z) : string :=
  if i <? 76 then int_to_hex i 1
  else if i <? 255 then "4c" +:+ int_to_hex i 1
  else if i <? 65535 then "4d" +:+ int_to_hex i 2
  else "4e" +:+ int_to_hex i 4.

Definition push_script (x : string) : string :=
  op_push (Z.of_nat (String.length x) / 2) +:+ x.

(** ** bitcoinx: opcodes and push encoding *)

Definition OP_0 : Z := 0.
Definition OP_PUSHDATA1 : Z := 76.
Definition OP_PUSHDATA2 : Z := 77.
Definition OP_PUSHDATA4 : Z := 78.
Definition OP_1NEGATE : Z := 79.
Definition OP_1 : Z := 81.
Definition OP_DUP : Z := 118.
Definition OP_EQUALVERIFY : Z := 136.
Definition OP_HASH160 : Z := 169.
Definition OP_CHECKSIG : Z := 172.
Definition OP_CHECKMULTISIG : Z := 174.

Definition pack_byte (z : Z) : bytes := [byte_of_Z z].

(** [push_item(item)] of bitcoinx: the script bytes that push [item]. *)
Definition push_item (item : bytes) : bytes :=
  let dlen := Z.of_nat (length item) in
  match item with
  | [] => pack_byte OP_0
  | [b] =>
      let value := Z_of_byte b in
      if (1 <=? value) && (value <=? 16) then pack_byte (OP_1 + value - 1)
      else if value =? 129 then pack_byte OP_1NEGATE
      else pack_byte dlen ++ item
  | _ =>
      if dlen <? OP_PUSHDATA1 then pack_byte dlen ++ item
      else if dlen <=? 255 then pack_byte OP_PUSHDATA1 ++ pack_byte dlen ++ item
      else if dlen <=? 65535 then pack_byte OP_PUSHDATA2 ++ le_bytes 2 dlen ++ item
      else pack_byte OP_PUSHDATA4 ++ le_bytes 4 dlen ++ item
  end.

(** [int_to_item(value)] of bitcoinx: the minimal little-endian
    sign-and-magnitude encoding. *)
Definition int_to_item (value : Z) : bytes :=
  if value =? 0 then []
  else
    let a := Z.abs value in
    let n := Z.to_nat (Z.log2 a / 8 + 1) in
    let encoding := le_bytes n a in
    let top := a / 2 ^ (8 * (Z.of_nat n - 1)) in
    if 128 <=? top then encoding ++ pack_byte (if value <? 0 then 128 else 0)
    else if value <? 0 then le_bytes (n - 1) a ++ pack_byte (top + 128)
    else encoding.

(** [push_int(value)] of bitcoinx. *)
Definition push_int (value : Z) : bytes := push_item (int_to_item value).

(** ** bitcoinx: keys, addresses and signature hashes

    The elliptic-curve, base58 and hashing code is taken as given: a type of
    public keys with the operations the sources call. Nothing is assumed of
    them. *)

Record TxInput := mkTxInput {
  ti_prev_hash : bytes;
  ti_prev_idx : Z;
  ti_script_sig : bytes;
  ti_sequence : Z;
}.

Record TxOutput := mkTxOutput {
  value : Z;
  script_pubkey : bytes;
}.

Record Tx := mkTx {
  tx_version : Z;
  tx_inputs : list TxInput;
  tx_outputs : list TxOutput;
  tx_locktime : Z;
}.

Class Bitcoinx := {
  PublicKey : Type;
  (* PublicKey.__eq__ *)
  PublicKey_eqb : PublicKey -> PublicKey -> bool;
  (* PublicKey.from_bytes(raw): ValueError on an invalid encoding *)
  PublicKey_from_bytes : bytes -> result PublicKey;
  (* public_key.to_bytes() *)
  PublicKey_to_bytes : PublicKey -> bytes;
  (* bip32_key_from_string(base58_encode_check(key)) followed by .child(n)
     for the two indices of the path *)
  bip32_derive : bytes -> Z * Z -> result PublicKey;
  (* PublicKey.from_bytes(pack_byte(4) + mpk).add(double_sha256(...)) *)
  old_keystore_derive : bytes -> Z * Z -> result PublicKey;
  hash160 : bytes -> bytes;
  (* classify_output_script(script) when the result is an Address *)
  classify_output_script : bytes -> option Address;
  der_signature_to_compact : bytes -> result bytes;
  (* PublicKey.from_recoverable_signature(rec_sig, pre_hash, None) *)
  from_recoverable_signature : bytes -> bytes -> result PublicKey;
  (* public_key.verify_recoverable_signature(rec_sig, pre_hash, None) *)
  verify_recoverable_signature : PublicKey -> bytes -> bytes -> result unit;
  (* tx.signature_hash(input_index, value, script_code, sighash=SigHash(n)) *)
  signature_hash : Tx -> Z -> Z -> bytes -> Z -> result bytes;
}.

(** ** transaction.py: [XPublicKey] and [XTxInput] *)

Definition NO_SIGNATURE : bytes := [xff].

Definition result_map {A B} (f : A -> B) (r : result A) : result B :=
  match r with
  | Ok a => Ok (f a)
  | Err e => Err e
  end.

Section transaction.
Context `{Bitcoinx}.

Inductive key_or_address :=
  | IsKey (k : PublicKey)
  | IsAddress (a : Address).

(** An [XPublicKey] object is its [raw] bytes. *)
Definition XPublicKey := bytes.

(** [unpack_le_uint16(self.raw[n: n+2])[0]], on a [raw] long enough. *)
Definition raw_uint16 (raw : bytes) (n : nat) : Z := le_decode (slice raw n (n + 2)).

Definition to_public_key (raw : XPublicKey) : result key_or_address :=
  kind ← getitem raw 0;
  if (kind =? 2) || (kind =? 3) || (kind =? 4) then
    result_map IsKey (PublicKey_from_bytes raw)
  else if kind =? 255 then
    (* _bip32_public_key *)
    _ ← py_assert (bool_decide (length raw = 83%nat));
    result_map IsKey (bip32_derive (slice raw 1 79) (raw_uint16 raw 79, raw_uint16 raw 81))
  else if kind =? 254 then
    (* _old_keystore_public_key *)
    _ ← py_assert (bool_decide (length raw = 69%nat));
    result_map IsKey (old_keystore_derive (slice raw 1 65) (raw_uint16 raw 65, raw_uint16 raw 67))
  else
    _ ← py_assert (kind =? 253);
    match classify_output_script (drop 1 raw) with
    | Some a => Ok (IsAddress a)
    | None => Err AssertionError
    end.

(** The argument of [XPublicKey(raw)]: bytes, text, or a value that is
    neither. *)
Inductive raw_arg :=
  | RawBytes (b : bytes)
  | RawStr (s : string)
  | RawOther.

(** The data of a decoded operation as that argument: bytes, or [None] for
    an opcode that pushes none. *)
Definition data_arg (d : option bytes) : raw_arg :=
  match d with
  | Some b => RawBytes b
  | None => RawOther
  end.

(** [XPublicKey(raw)]: text is decoded with [bytes.fromhex]; of what the
    decoding and [to_public_key()] raise, [ValueError] and [AssertionError]
    are turned into [ValueError]. *)
Definition XPublicKey_init (raw : raw_arg) : result XPublicKey :=
  let guarded (decoded : result bytes) : result XPublicKey :=
    match (self_raw ← decoded; _ ← to_public_key self_raw; Ok self_raw) with
    | Err ValueError | Err AssertionError => Err ValueError
    | r => r
    end in
  match raw with
  | RawBytes b => guarded (Ok b)
  | RawStr s => guarded (fromhex s)
  | RawOther => Err TypeError
  end.

Definition to_address (x : XPublicKey) : result Address :=
  r ← to_public_key x;
  match r with
  | IsAddress a => Ok a
  | IsKey k => Ok (P2PKH_Address (hash160 (PublicKey_to_bytes k)))
  end.

(** What the [address] attribute of an input holds. *)
Inductive address_field :=
  | NoAddress
  | AddressOf (a : Address)
  | PublicKeyOf (k : PublicKey).

Record XTxInput := mkXTxInput {
  prev_hash : bytes;
  prev_idx : Z;
  script_sig : bytes;
  sequence : Z;
  txin_value : Z;
  x_pubkeys : list XPublicKey;
  address : address_field;
  threshold : Z;
  signatures : list bytes;
}.

Inductive txin_type := p2pkh | p2sh | p2pk | coinbase | unknown.

(** [TxInput.is_coinbase] of bitcoinx. *)
Definition is_coinbase (txin : XTxInput) : bool :=
  bool_decide (prev_hash txin = replicate 32 x00) && (prev_idx txin =? 4294967295).

Definition type (txin : XTxInput) : txin_type :=
  match address txin with
  | AddressOf (P2PKH_Address _) => p2pkh
  | AddressOf (P2SH_Address _) => p2sh
  | PublicKeyOf _ => p2pk
  | NoAddress => if is_coinbase txin then coinbase else unknown
  end.

Definition txin_signatures_present (txin : XTxInput) : list bytes :=
  filter (fun sig => sig <> NO_SIGNATURE) (signatures txin).

Definition is_txin_complete (txin : XTxInput) : bool :=
  threshold txin <=? Z.of_nat (length (txin_signatures_present txin)).

(** ** transaction.py: [_BCDataStream] *)

Record BCDataStream := mkStream {
  input : option bytes;
  read_cursor : Z;
}.

Definition write (_bytes : bytes) : stx BCDataStream unit := fun vds =>
  (Ok tt, mkStream (Some (default [] (input vds) ++ _bytes)) (read_cursor vds)).

(** [read_bytes(length)], for [length >= 0]. A slice never raises
    [IndexError]: past the end it is shorter than asked for, or empty. *)
Definition read_bytes (length : Z) : stx BCDataStream bytes := fun vds =>
  match input vds with
  | None => (Err TypeError, vds)
  | Some inp =>
      let result := take (Z.to_nat length) (drop (Z.to_nat (read_cursor vds)) inp) in
      (Ok result, mkStream (input vds) (read_cursor vds + length))
  end.

(** [_read_num(format)]: [struct.unpack_from] needs [calcsize] bytes from the
    cursor on; whatever it raises is wrapped in a [SerializationError]. *)
Definition _read_num (format : fmt) : stx BCDataStream Z := fun vds =>
  match input vds with
  | None => (Err (SerializationError msg_struct_error), vds)
  | Some inp =>
      let size := Z.of_nat (calcsize format) in
      if read_cursor vds + size <=? Z.of_nat (length inp) then
        (Ok (unpack_value format
               (take (calcsize format) (drop (Z.to_nat (read_cursor vds)) inp))),
         mkStream (input vds) (read_cursor vds + size))
      else (Err (SerializationError msg_struct_error), vds)
  end.

Definition read_int32 : stx BCDataStream Z := _read_num fmt_i.
Definition read_uint32 : stx BCDataStream Z := _read_num fmt_I.
Definition read_uint64 : stx BCDataStream Z := _read_num fmt_Q.

Definition read_compact_size : stx BCDataStream Z := fun vds =>
  match input vds with
  | None => (Err TypeError, vds)
  | Some inp =>
      match inp !! Z.to_nat (read_cursor vds) with
      | None => (Err (SerializationError msg_read_past_end), vds)
      | Some b =>
          let size := Z_of_byte b in
          let vds1 := mkStream (input vds) (read_cursor vds + 1) in
          if size =? 253 then _read_num fmt_H vds1
          else if size =? 254 then _read_num fmt_I vds1
          else if size =? 255 then _read_num fmt_Q vds1
          else (Ok size, vds1)
      end
  end.

(** ** bitcoinx: reading outputs through [read = vds.read_bytes] *)

(** [unpack(read(n))]: [struct.error] unless [read] returned [n] bytes. *)
Definition bx_read_num (format : fmt) : stx BCDataStream Z :=
  b ← read_bytes (Z.of_nat (calcsize format));
  if bool_decide (length b = calcsize format) then mret (unpack_value format b)
  else raise StructError.

Definition bx_read_varint : stx BCDataStream Z :=
  b ← read_bytes 1;
  match b with
  | [n] =>
      let n := Z_of_byte n in
      if n <? 253 then mret n
      else if n =? 253 then bx_read_num fmt_H
      else if n =? 254 then bx_read_num fmt_I
      else bx_read_num fmt_Q
  | _ => raise StructError
  end.

Definition bx_read_varbytes : stx BCDataStream bytes :=
  n ← bx_read_varint;
  result ← read_bytes n;
  if bool_decide (Z.of_nat (length result) = n) then mret result
  else raise StructError.

(** [TxOutput.read(read)] *)
Definition TxOutput_read : stx BCDataStream TxOutput :=
  v ← bx_read_num fmt_q;
  script ← bx_read_varbytes;
  mret (mkTxOutput v script).

Fixpoint stx_repeat {S A} (n : nat) (m : stx S A) : stx S (list A) :=
  match n with
  | O => mret []
  | S n' => x ← m; xs ← stx_repeat n' m; mret (x :: xs)
  end.

(** [read_list(read, read_one)] *)
Definition bx_read_list {A} (read_one : stx BCDataStream A) : stx BCDataStream (list A) :=
  n ← bx_read_varint;
  stx_repeat (Z.to_nat n) read_one.

(** [output.to_bytes()]: the value as a signed 64-bit integer, then the script
    with its length. *)
Definition TxOutput_to_bytes (o : TxOutput) : result bytes :=
  v ← struct_pack fmt_q (value o);
  Ok (v ++ compact_size (Z.of_nat (length (script_pubkey o))) ++ script_pubkey o).

(** ** transaction.py: script decoding *)

(** One decoded operation: the opcode, the data it pushes ([None] above
    OP_PUSHDATA4) and the offset after it. *)
Definition decoded_op : Type := Z * option bytes * nat.

(** One turn of the loop of [_script_GetOp] at offset [i < len(_bytes)]: what
    it yields, the new offset included. *)
Definition script_op_at (_bytes : bytes) (i : nat) : option decoded_op :=
  let blen := length _bytes in
  match _bytes !! i with
  | None => None
  | Some b =>
      let opcode := Z_of_byte b in
      let i := (i + 1)%nat in
      if opcode <=? OP_PUSHDATA4 then
        let '(nSize, i) :=
          if opcode =? OP_PUSHDATA1 then
            (match _bytes !! i with Some x => Z_of_byte x | None => 0 end, (i + 1)%nat)
          else if opcode =? OP_PUSHDATA2 then
            (* tolerate truncated script *)
            ((if bool_decide (i + 2 <= blen)%nat then le_decode (slice _bytes i (i + 2)) else 0),
             (i + 2)%nat)
          else if opcode =? OP_PUSHDATA4 then
            ((if bool_decide (i + 4 <= blen)%nat then le_decode (slice _bytes i (i + 4)) else 0),
             (i + 4)%nat)
          else (opcode, i) in
        (* array slicing here never throws exception even if truncated script *)
        let vch := slice _bytes i (i + Z.to_nat nSize) in
        let i := (i + Z.to_nat nSize)%nat in
        Some (opcode, Some vch, i)
      else Some (opcode, None, i)
  end.

(** The loop from offset [i]; every turn advances the offset, so
    [length _bytes] turns are enough ([_script_GetOp] below). *)
Fixpoint script_GetOp_from (fuel : nat) (_bytes : bytes) (i : nat) : list decoded_op :=
  match fuel with
  | O => []
  | S fuel' =>
      match script_op_at _bytes i with
      | None => []
      | Some d => d :: script_GetOp_from fuel' _bytes d.2
      end
  end.

Definition _script_GetOp (_bytes : bytes) : list decoded_op :=
  script_GetOp_from (length _bytes) _bytes 0.

Definition op_code (d : decoded_op) : Z := d.1.1.
Definition op_data (d : decoded_op) : option bytes := d.1.2.

Fixpoint match_decoded_from (decoded : list decoded_op) (to_match : list Z) : bool :=
  match decoded, to_match with
  | [], [] => true
  | d :: decoded', m :: to_match' =>
      if (m =? OP_PUSHDATA4) && (op_code d <=? OP_PUSHDATA4) && (0 <? op_code d)
      then match_decoded_from decoded' to_match'
      else if negb (m =? op_code d) then false
      else match_decoded_from decoded' to_match'
  | _, _ => false
  end.

Definition _match_decoded (decoded : list decoded_op) (to_match : list Z) : bool :=
  if negb (bool_decide (length decoded = length to_match)) then false
  else match_decoded_from decoded to_match.

(** [multisig_script(x_pubkeys, threshold)] on the encodings of the keys. *)
Definition multisig_script (keys : list bytes) (threshold : Z) : result bytes :=
  _ ← py_assert ((1 <=? threshold) && (threshold <=? Z.of_nat (length keys)));
  Ok (push_int threshold ++ concat (map push_item keys)
        ++ push_int (Z.of_nat (length keys)) ++ pack_byte OP_CHECKMULTISIG).

(** The keyword arguments [_parse_input] builds the input from. *)
Record kwargs := mkKwargs {
  kw_x_pubkeys : list XPublicKey;
  kw_address : address_field;
  kw_threshold : Z;
  kw_signatures : list bytes;
}.

Definition op_bytes (d : decoded_op) : bytes := default [] (op_data d).

(** [l[-1]] and [l[-2]] *)
Definition last_item {A} (l : list A) : result A :=
  match last l with
  | Some x => Ok x
  | None => Err IndexError
  end.

Definition item_before_last {A} (l : list A) : result A :=
  if (length l <? 2)%nat then Err IndexError
  else match l !! (length l - 2)%nat with
       | Some x => Ok x
       | None => Err IndexError
       end.

(** [_parse_script_sig(script, kwargs)]: the updated [kwargs]. An
    unrecognised script leaves them as they are; an exception of the key
    code propagates. *)
Definition _parse_script_sig (script : bytes) (kw : kwargs) : result kwargs :=
  let decoded := _script_GetOp script in
  (* P2PK *)
  if _match_decoded decoded [OP_PUSHDATA4] then
    match decoded with
    | d0 :: _ => Ok (mkKwargs (kw_x_pubkeys kw) (kw_address kw) 1 [op_bytes d0])
    | [] => Err IndexError
    end
  (* P2PKH *)
  else if _match_decoded decoded [OP_PUSHDATA4; OP_PUSHDATA4] then
    match decoded with
    | d0 :: d1 :: _ =>
        let sig := op_bytes d0 in
        x_pubkey ← XPublicKey_init (data_arg (op_data d1));
        a ← to_address x_pubkey;
        Ok (mkKwargs [x_pubkey] (AddressOf a) 1 [sig])
    | _ => Err IndexError
    end
  (* p2sh transaction, m of n *)
  else if negb (_match_decoded decoded (OP_0 :: replicate (length decoded - 1) OP_PUSHDATA4))
  then Ok kw
  else
    last_op ← last_item decoded;
    let nested_script := op_bytes last_op in
    let dec2 := _script_GetOp nested_script in
    x_pubkeys ← result_mapM (fun x => XPublicKey_init (data_arg (op_data x)))
                  (take (length dec2 - 3) (drop 1 dec2));
    first_op ← match dec2 with d :: _ => Ok d | [] => Err IndexError end;
    let m := op_code first_op - OP_1 + 1 in
    n_op ← item_before_last dec2;
    let n := op_code n_op - OP_1 + 1 in
    let op_m := OP_1 + m - 1 in
    let op_n := OP_1 + n - 1 in
    let match_multisig :=
      [op_m] ++ replicate (Z.to_nat n) OP_PUSHDATA4 ++ [op_n; OP_CHECKMULTISIG] in
    if negb (_match_decoded dec2 match_multisig) then Ok kw
    else
      redeem ← multisig_script x_pubkeys m;
      Ok (mkKwargs x_pubkeys (AddressOf (P2SH_Address (hash160 redeem))) m
            (map op_bytes (take (length decoded - 2) (drop 1 decoded)))).

(** ** transaction.py: [_parse_input] and [deserialize] *)

Definition _parse_input : stx BCDataStream XTxInput :=
  prev_hash ← read_bytes 32;
  prev_idx ← read_uint32;
  script_len ← read_compact_size;
  script_sig ← read_bytes script_len;
  sequence ← read_uint32;
  let kw0 := mkKwargs [] NoAddress 0 [] in
  kw ← (if bool_decide (prev_hash <> replicate 32 x00)
        then lift (_parse_script_sig script_sig kw0)
        else mret kw0);
  let result := mkXTxInput prev_hash prev_idx script_sig sequence 0
                  (kw_x_pubkeys kw) (kw_address kw) (kw_threshold kw) (kw_signatures kw) in
  if negb (is_txin_complete result) then
    v ← read_uint64;
    mret (mkXTxInput prev_hash prev_idx script_sig sequence v
            (kw_x_pubkeys kw) (kw_address kw) (kw_threshold kw) (kw_signatures kw))
  else mret result.

(** The dict [deserialize] returns. *)
Record tx_dict := mkTxDict {
  d_version : Z;
  d_inputs : list XTxInput;
  d_outputs : list TxOutput;
  d_lockTime : Z;
}.

Definition deserialize_stream : stx BCDataStream tx_dict :=
  version ← read_int32;
  n_vin ← read_compact_size;
  _ ← lift (py_assert (negb (n_vin =? 0)));
  inputs ← stx_repeat (Z.to_nat n_vin) _parse_input;
  outputs ← bx_read_list TxOutput_read;
  lockTime ← read_uint32;
  mret (mkTxDict version inputs outputs lockTime).

Definition deserialize (raw : string) : result tx_dict :=
  b ← fromhex raw;
  fst ((_ ← write b; deserialize_stream) (mkStream None 0)).

(** ** transaction.py: [Transaction] *)

Record Transaction := mkTransaction {
  raw : option string;
  _inputs : option (list XTxInput);
  _outputs : option (list TxOutput);
  locktime : Z;
  version : Z;
}.

Definition SIGHASH_FORKID : Z := 64.

Definition nHashType : Z := Z.lor 1 SIGHASH_FORKID.

(** Iterating over, or taking [len] of, a value that may be [None]. *)
Definition iterable {A} (l : option (list A)) : result (list A) :=
  match l with
  | Some l => Ok l
  | None => Err TypeError
  end.

(** [Transaction.deserialize] *)
Definition Transaction_deserialize : stx Transaction unit := fun self =>
  match raw self, _inputs self with
  | None, _ => (Ok tt, self)
  | Some _, Some _ => (Ok tt, self)
  | Some r, None =>
      match deserialize r with
      | Err e => (Err e, self)
      | Ok d =>
          (Ok tt, mkTransaction (raw self) (Some (d_inputs d)) (Some (d_outputs d))
                    (d_lockTime d) (d_version d))
      end
  end.

Definition inputs : stx Transaction (option (list XTxInput)) := fun self =>
  match _inputs self with
  | None => (_ ← Transaction_deserialize; s ← get_state; mret (_inputs s)) self
  | Some l => (Ok (Some l), self)
  end.

Definition outputs : stx Transaction (option (list TxOutput)) := fun self =>
  match _outputs self with
  | None => (_ ← Transaction_deserialize; s ← get_state; mret (_outputs s)) self
  | Some l => (Ok (Some l), self)
  end.

(** The loop of [signature_count]: [s] counts the signatures present, [r] adds
    up the thresholds. *)
Definition signature_count_loop (ins : list XTxInput) : Z * Z :=
  fold_left
    (fun '(s, r) txin =>
       let signatures := txin_signatures_present txin in
       (s + Z.of_nat (length signatures), r + threshold txin))
    ins (0, 0).

Definition signature_count : stx Transaction (Z * Z) :=
  ins ← inputs;
  ins ← lift (iterable ins);
  mret (signature_count_loop ins).

Definition is_complete : stx Transaction bool :=
  '(s, r) ← signature_count;
  mret (r =? s).

(** [x_pubkey.to_public_key().to_bytes()]; an [Address] has no [to_bytes]. *)
Definition key_bytes (k : key_or_address) : result bytes :=
  match k with
  | IsKey k => Ok (PublicKey_to_bytes k)
  | IsAddress _ => Err (AttributeError "to_bytes")
  end.

(** [get_siglist(txin)] with [estimate_size=False] *)
Definition get_siglist (txin : XTxInput) : result (list XPublicKey * list bytes) :=
  if is_txin_complete txin then
    (* Realise the x_pubkeys *)
    realised ← result_mapM
                 (fun x => k ← to_public_key x; b ← key_bytes k; XPublicKey_init (RawBytes b))
                 (x_pubkeys txin);
    Ok (realised, txin_signatures_present txin)
  else Ok (x_pubkeys txin, signatures txin).

(** [input_script(txin)] with [estimate_size=False]: a hexadecimal string. *)
Definition input_script (txin : XTxInput) : result string :=
  match type txin with
  | coinbase | unknown => Ok (hex (script_sig txin))
  | _type =>
      '(keys, sig_list) ← get_siglist txin;
      let script := hex (concat (map push_item sig_list)) in
      match _type with
      | p2sh =>
          (* put op_0 before script *)
          let script := "00" +:+ script in
          redeem_script ← multisig_script keys (threshold txin);
          Ok (script +:+ push_script (hex redeem_script))
      | p2pkh =>
          match keys with
          | k :: _ => Ok (script +:+ push_script (hex k))
          | [] => Err IndexError
          end
      | _ => Ok script
      end
  end.

Definition serialize_outpoint (txin : XTxInput) : string :=
  hex (prev_hash txin) +:+ int_to_hex (prev_idx txin) 4.

(** [serialize_input(txin, script)] with [estimate_size=False] *)
Definition serialize_input (txin : XTxInput) (script : string) : string :=
  let s := serialize_outpoint txin in
  let s := s +:+ var_int (Z.of_nat (String.length script) / 2) in
  let s := s +:+ script in
  let s := s +:+ int_to_hex (sequence txin) 4 in
  if negb (is_txin_complete txin) then s +:+ int_to_hex (txin_value txin) 8 else s.

Fixpoint string_concat (l : list string) : string :=
  match l with
  | [] => EmptyString
  | x :: l' => x +:+ string_concat l'
  end.

(** [serialize()] with [estimate_size=False] *)
Definition serialize : stx Transaction string :=
  self ← get_state;
  let nVersion := int_to_hex (version self) 4 in
  let nLocktime := int_to_hex (locktime self) 4 in
  ins ← inputs;
  outs ← outputs;
  ins ← lift (iterable ins);
  parts ← lift (result_mapM
                  (fun txin => script ← input_script txin; Ok (serialize_input txin script))
                  ins);
  let txins := var_int (Z.of_nat (length ins)) +:+ string_concat parts in
  outs ← lift (iterable outs);
  out_bytes ← lift (result_mapM TxOutput_to_bytes outs);
  let txouts := var_int (Z.of_nat (length outs)) +:+ hex (concat out_bytes) in
  mret (nVersion +:+ txins +:+ txouts +:+ nLocktime).

(** [==] on two values of the [address] attribute. *)
Definition address_eqb (a b : address_field) : bool :=
  match a, b with
  | NoAddress, NoAddress => true
  | AddressOf x, AddressOf y => bool_decide (x = y)
  | PublicKeyOf k, PublicKeyOf l => PublicKey_eqb k l
  | _, _ => false
  end.

(** [==] on two inputs: attribute by attribute. *)
Definition XTxInput_eqb (a b : XTxInput) : bool :=
  bool_decide (prev_hash a = prev_hash b) && (prev_idx a =? prev_idx b)
  && bool_decide (script_sig a = script_sig b) && (sequence a =? sequence b)
  && (txin_value a =? txin_value b) && bool_decide (x_pubkeys a = x_pubkeys b)
  && address_eqb (address a) (address b) && (threshold a =? threshold b)
  && bool_decide (signatures a = signatures b).

(** [tx_inputs.index(txin)] for the object [txin] at position [i]: the first
    position before [i] that holds an equal input, [i] itself otherwise. *)
Fixpoint index_of_input (ins : list XTxInput) (txin : XTxInput) (i : nat) : nat :=
  match i, ins with
  | S i', x :: ins' => if XTxInput_eqb x txin then O else S (index_of_input ins' txin i')
  | _, _ => O
  end.

Definition P2PKH_script_bytes (h : bytes) : bytes :=
  pack_byte OP_DUP ++ pack_byte OP_HASH160 ++ push_item h
    ++ pack_byte OP_EQUALVERIFY ++ pack_byte OP_CHECKSIG.

Definition get_preimage_script (txin : XTxInput) : result string :=
  match type txin with
  | p2pkh =>
      match address txin with
      | AddressOf (P2PKH_Address h) => Ok (hex (P2PKH_script_bytes h))
      | _ => Err OtherException
      end
  | p2sh =>
      pubkeys ← result_mapM to_public_key (x_pubkeys txin);
      _ ← py_assert ((1 <=? threshold txin) && (threshold txin <=? Z.of_nat (length pubkeys)));
      keys ← result_mapM key_bytes pubkeys;
      script ← multisig_script keys (threshold txin);
      Ok (hex script)
  | p2pk =>
      match x_pubkeys txin with
      | [] => Err IndexError
      | x_pubkey :: _ =>
          k ← to_public_key x_pubkey;
          b ← key_bytes k;
          Ok (hex (push_item b ++ pack_byte OP_CHECKSIG))
      end
  | _ => Err (RuntimeError "Unknown txin type")
  end.

(** [to_Tx([Script()] * len(tx_inputs))] *)
Definition to_Tx (self : Transaction) (ins : list XTxInput) (outs : list TxOutput) : Tx :=
  mkTx (version self)
       (map (fun txin => mkTxInput (prev_hash txin) (prev_idx txin) [] (sequence txin)) ins)
       outs (locktime self).

(** [preimage_hash(txin)] for the input object at position [i]. *)
Definition preimage_hash (i : nat) (txin : XTxInput) : stx Transaction bytes :=
  tx_inputs ← inputs;
  tx_inputs ← lift (iterable tx_inputs);
  let input_index := index_of_input tx_inputs txin i in
  outs ← outputs;
  outs ← lift (iterable outs);
  self ← get_state;
  let tx := to_Tx self tx_inputs outs in
  script_hex ← lift (get_preimage_script txin);
  script_code ← lift (fromhex script_hex);
  lift (signature_hash tx (Z.of_nat input_index) (txin_value txin) script_code nHashType).

(** [pubkeys.index(public_key)] and [public_key in pubkeys] *)
Definition key_matches (public_key : PublicKey) (k : key_or_address) : bool :=
  match k with
  | IsKey k => PublicKey_eqb k public_key
  | IsAddress _ => false
  end.

Fixpoint key_index (public_key : PublicKey) (pubkeys : list key_or_address) : option nat :=
  match pubkeys with
  | [] => None
  | k :: pubkeys' =>
      if key_matches public_key k then Some O
      else S <$> key_index public_key pubkeys'
  end.

(** The loop over the recovery ids: the slot of the key that signed, if one
    of the input's keys did. *)
Fixpoint find_signer (pubkeys : list key_or_address) (pre_hash rec_sig_base : bytes)
    (recids : list Z) : result (option nat) :=
  match recids with
  | [] => Ok None
  | recid :: recids' =>
      let rec_sig := rec_sig_base ++ [byte_of_Z recid] in
      match from_recoverable_signature rec_sig pre_hash with
      | Err InvalidSignatureError | Err ValueError =>
          (* the point might not be on the curve for some recid values *)
          find_signer pubkeys pre_hash rec_sig_base recids'
      | Err e => Err e
      | Ok public_key =>
          match key_index public_key pubkeys with
          | Some j =>
              match verify_recoverable_signature public_key rec_sig pre_hash with
              | Err _ => find_signer pubkeys pre_hash rec_sig_base recids'
              | Ok _ => Ok (Some j)
              end
          | None => find_signer pubkeys pre_hash rec_sig_base recids'
          end
      end
  end.

Definition set_signatures (txin : XTxInput) (sigs : list bytes) : XTxInput :=
  mkXTxInput (prev_hash txin) (prev_idx txin) (script_sig txin) (sequence txin)
    (txin_value txin) (x_pubkeys txin) (address txin) (threshold txin) sigs.

(** [add_signature_to_txin(txin, signingPos, sig)] for the input object at
    position [i]. *)
Definition add_signature_to_txin (i : nat) (signingPos : nat) (sig : bytes)
  : stx Transaction unit := fun self =>
  match _inputs self with
  | None => (Err TypeError, self)
  | Some ins =>
      match ins !! i with
      | None => (Err IndexError, self)
      | Some txin =>
          if (signingPos <? length (signatures txin))%nat then
            let txin' := set_signatures txin (<[signingPos := sig]> (signatures txin)) in
            (Ok tt, mkTransaction None (Some (<[i := txin']> ins)) (_outputs self)
                      (locktime self) (version self))
          else (Err IndexError, self)
      end
  end.

(** One turn of the loop of [update_signatures], for the input at position
    [i] and its [signature]. *)
Definition update_signature (i : nat) (txin : XTxInput) (signature : bytes)
  : stx Transaction unit :=
  let full_sig := signature ++ [byte_of_Z nHashType] in
  if bool_decide (full_sig ∈ signatures txin) then mret tt
  else
    pubkeys ← lift (result_mapM to_public_key (x_pubkeys txin));
    pre_hash ← preimage_hash i txin;
    rec_sig_base ← lift (der_signature_to_compact signature);
    found ← lift (find_signer pubkeys pre_hash rec_sig_base [0; 1; 2; 3]);
    match found with
    | Some j => add_signature_to_txin i j full_sig
    | None => mret tt
    end.

Fixpoint update_signatures_loop (i : nat) (sigs : list bytes) : stx Transaction unit :=
  match sigs with
  | [] => mret tt
  | signature :: sigs' =>
      self ← get_state;
      match default [] (_inputs self) !! i with
      | None => mret tt
      | Some txin =>
          _ ← update_signature i txin signature;
          update_signatures_loop (S i) sigs'
      end
  end.

Definition expected_got (n m : nat) : string :=
  "expected " +:+ pretty n +:+ " signatures; got " +:+ pretty m.

Definition update_signatures (sigs : list bytes) : stx Transaction unit :=
  already ← is_complete;
  if (already : bool) then mret tt
  else
    ins ← inputs;
    ins ← lift (iterable ins);
    if negb (bool_decide (length ins = length sigs))
    then raise (RuntimeError (expected_got (length ins) (length sigs)))
    else
      _ ← update_signatures_loop 0 sigs;
      (* redo raw *)
      r ← serialize;
      self ← get_state;
      put_state (mkTransaction (Some r) (_inputs self) (_outputs self)
                   (locktime self) (version self)).

End transaction.

(** ** Vocabulary of the statements about the Ledger parser *)

(** The header byte of a compact recoverable signature:
    [27 + 4 + (signature[0] & 0x01)]. *)
Definition ledger_header (b0 : byte) : byte :=
  byte_of_Z (27 + 4 + Z.land (Z_of_byte b0) 1).

(** A component as the parser keeps it: without its first byte when the
    declared length is 33, whole otherwise. *)
Definition ledger_component (declared : byte) (x : bytes) : bytes :=
  if decide (Z_of_byte declared = 33) then drop 1 x else x.

(** ** Vocabulary of the statements about [Output] *)

(** What [to_dict] followed by [from_dict] makes of an optional field whose
    false value ([0], the empty string) [to_dict] leaves out. *)
Definition absent_if_zero (a : option Z) : option Z :=
  match a with
  | Some 0 => None
  | _ => a
  end.

Definition absent_if_empty (d : option string) : option string :=
  match d with
  | Some EmptyString => None
  | _ => d
  end.

(** A string of [n] copies of the character [c]. *)
Fixpoint string_repeat (n : nat) (c : ascii) : string :=
  match n with
  | O => EmptyString
  | S n' => String c (string_repeat n' c)
  end.

(** A dict [kv] that holds a hexadecimal [script], the [amount] (absent,
    [None] or an integer) and the description [d]. *)
Definition output_fields (kv : pydict pyval) (script : bytes) (amount : option Z)
    (d : string) : Prop :=
  (exists h, dict_get kv "script" = Some (PyStr h) /\ fromhex h = Ok script)
  /\ match amount with
     | Some z => dict_get kv "amount" = Some (PyInt z)
     | None => dict_get kv "amount" = None \/ dict_get kv "amount" = Some PyNone
     end
  /\ dict_get kv "description" = Some (PyStr d).

(** ** A stand-in for the libraries, for the concrete instances

    [json.loads] on the three documents the instances use, [str()] on [None]
    and on strings. *)

Definition doc_empty_object : string := "{}".

(** The document [{"network": "bitcoin"}]. *)
Definition doc_network_only : string :=
  "{" +:+ String dquote "network" +:+ String dquote ": "
      +:+ String dquote "bitcoin" +:+ String dquote "}".

(** The document [{"network": "bitcoin", "outputs": 7}]. *)
Definition doc_outputs_int : string :=
  "{" +:+ String dquote "network" +:+ String dquote ": "
      +:+ String dquote "bitcoin" +:+ String dquote ", "
      +:+ String dquote "outputs" +:+ String dquote ": 7}".

Definition sample_library : Library := {|
  json_loads s :=
    if decide (s = doc_empty_object) then Ok (PyDict [])
    else if decide (s = doc_network_only) then Ok (PyDict [("network", PyStr "bitcoin")])
    else if decide (s = doc_outputs_int)
         then Ok (PyDict [("network", PyStr "bitcoin"); ("outputs", PyInt 7)])
    else Err JSONDecodeError;
  py_str v :=
    match v with
    | PyStr s => s
    | _ => "None"
    end;
  address_string script := Ok (hex script);
|}.

(** ** A stand-in for bitcoinx, for the concrete instances

    A public key is its encoding, valid when it has the length its first
    byte announces; a signature made with a key starts with the 33 bytes of
    the key and is recovered under the recovery id 1 only. *)

Definition sample_key_ok (raw : bytes) : bool :=
  match raw with
  | b :: _ =>
      let k := Z_of_byte b in
      (((k =? 2) || (k =? 3)) && bool_decide (length raw = 33%nat))
      || ((k =? 4) && bool_decide (length raw = 65%nat))
  | [] => false
  end.

Definition sample_bitcoinx : Bitcoinx := {|
  PublicKey := bytes;
  PublicKey_eqb a b := bool_decide (a = b);
  PublicKey_from_bytes raw := if sample_key_ok raw then Ok raw else Err ValueError;
  PublicKey_to_bytes k := k;
  bip32_derive key path := Ok (x02 :: take 32 key);
  old_keystore_derive mpk path := Ok (x04 :: mpk);
  hash160 b := take 20 (b ++ replicate 20 x00);
  classify_output_script script := None;
  der_signature_to_compact sig := Ok sig;
  from_recoverable_signature rec_sig pre_hash :=
    if bool_decide (last rec_sig = Some x01) then Ok (take 33 rec_sig)
    else Err InvalidSignatureError;
  verify_recoverable_signature k rec_sig pre_hash := Ok tt;
  signature_hash tx i v script_code n := Ok (take 32 (script_code ++ replicate 32 x00));
|}.

(** ** Vocabulary of the statements about [Transaction] *)

Section transaction_vocabulary.
Context `{Bitcoinx}.

(** All the signatures present in a list of inputs, and the sum of the
    thresholds. *)
Definition total_present (ins : list XTxInput) : Z :=
  Z.of_nat (length (flat_map txin_signatures_present ins)).

Fixpoint total_threshold (ins : list XTxInput) : Z :=
  match ins with
  | [] => 0
  | txin :: ins' => threshold txin + total_threshold ins'
  end.

(** The signature [update_signatures] installs for a supplied one. *)
Definition full_signature (signature : bytes) : bytes := signature ++ [x41].

(** The state in which [Transaction.deserialize()] leaves a transaction
    whose raw text [r] it parsed into the dictionary [d]. *)
Definition parsed_from (r : string) (d : tx_dict) : Transaction :=
  mkTransaction (Some r) (Some (d_inputs d)) (Some (d_outputs d))
    (d_lockTime d) (d_version d).

(** The inputs of a transaction and the state in which reading them leaves
    it: the inputs it holds, the state unchanged; or, when it holds none yet,
    the inputs parsed from its raw text, the state that of the parse. *)
Inductive has_inputs (tx : Transaction) : list XTxInput -> Transaction -> Prop :=
  | inputs_held (ins : list XTxInput) :
      _inputs tx = Some ins -> has_inputs tx ins tx
  | inputs_from_raw (r : string) (d : tx_dict) :
      _inputs tx = None -> raw tx = Some r -> deserialize r = Ok d ->
      has_inputs tx (d_inputs d) (parsed_from r d).

End transaction_vocabulary.

Section update_signatures_vocabulary.
Context `{Bitcoinx}.



(** An input without its signatures, and two transactions that differ in
    their inputs and raw text at most. *)
Definition unsigned (txin : XTxInput) : XTxInput := set_signatures txin [].


(** The text [serialize()] returns once the inputs are parsed: it depends on
    the version, the locktime, the inputs and the outputs. *)
Definition serialize_text (ver lock : Z) (ins : list XTxInput)
    (outs : option (list TxOutput)) : result string :=
  parts ← result_mapM
            (fun txin => script ← input_script txin; Ok (serialize_input txin script))
            ins;
  outs ← iterable outs;
  out_bytes ← result_mapM TxOutput_to_bytes outs;
  Ok (int_to_hex ver 4
      +:+ (var_int (Z.of_nat (length ins)) +:+ string_concat parts)
      +:+ (var_int (Z.of_nat (length outs)) +:+ hex (concat out_bytes))
      +:+ int_to_hex lock 4).




End update_signatures_vocabulary.

(** ** Vocabulary of the statements about the codec *)

(** The values a format of [struct] holds. *)
Definition fmt_range (f : fmt) (v : Z) : Prop :=
  match f with
  | fmt_h => - 2 ^ 15 <= v < 2 ^ 15
  | fmt_H => 0 <= v < 2 ^ 16
  | fmt_i => - 2 ^ 31 <= v < 2 ^ 31
  | fmt_I => 0 <= v < 2 ^ 32
  | fmt_q => - 2 ^ 63 <= v < 2 ^ 63
  | fmt_Q => 0 <= v < 2 ^ 64
  end.

(** A stream whose buffer is [pre ++ rest], read up to the end of [pre]. *)
Definition stream_at (pre rest : bytes) : BCDataStream :=
  mkStream (Some (pre ++ rest)) (Z.of_nat (length pre)).

(** The reader [m], placed before the bytes [enc] anywhere in a buffer,
    returns [v] and stops right after them. *)
Definition reads {A} (m : stx BCDataStream A) (enc : bytes) (v : A) : Prop :=
  forall pre rest,
    m (stream_at pre (enc ++ rest)) = (Ok v, stream_at (pre ++ enc) rest).

(** [hd] is the header of a push of [n] bytes, with opcode [op]: a direct
    push (OP_0 when [n] is 0), OP_PUSHDATA1, OP_PUSHDATA2 or OP_PUSHDATA4. *)
Inductive push_header : bytes -> nat -> Z -> Prop :=
  | push_direct (n : nat) :
      Z.of_nat n < 76 -> push_header [byte_of_Z (Z.of_nat n)] n (Z.of_nat n)
  | push_data1 (n : nat) :
      Z.of_nat n < 256 -> push_header [x4c; byte_of_Z (Z.of_nat n)] n 76
  | push_data2 (n : nat) :
      Z.of_nat n < 65536 -> push_header (x4d :: le_bytes 2 (Z.of_nat n)) n 77
  | push_data4 (n : nat) :
      Z.of_nat n < 2 ^ 32 -> push_header (x4e :: le_bytes 4 (Z.of_nat n)) n 78.

(** The operations of a script as the statements describe them: a push with
    its header, data and opcode, or a one-byte opcode above OP_PUSHDATA4. *)
Inductive token :=
  | tok_push (hd data : bytes) (op : Z)
  | tok_plain (b : byte).

Definition token_bytes (t : token) : bytes :=
  match t with
  | tok_push hd data _ => hd ++ data
  | tok_plain b => [b]
  end.

Definition token_ok (t : token) : Prop :=
  match t with
  | tok_push hd data op => push_header hd (length data) op
  | tok_plain b => OP_PUSHDATA4 < Z_of_byte b
  end.

Definition token_code (t : token) : Z :=
  match t with
  | tok_push _ _ op => op
  | tok_plain b => Z_of_byte b
  end.

Definition token_data (t : token) : option bytes :=
  match t with
  | tok_push _ data _ => Some data
  | tok_plain _ => None
  end.

(** What [_script_GetOp] yields for tokens that start at offset [start]. *)
Fixpoint decoded_tokens (start : nat) (ts : list token) : list decoded_op :=
  match ts with
  | [] => []
  | t :: ts' =>
      let next := (start + length (token_bytes t))%nat in
      (token_code t, token_data t, next) :: decoded_tokens next ts'
  end.

(** The loop of [_script_GetOp] from offset [i] with the turns it needs. *)
Definition script_ops (_bytes : bytes) (i : nat) : list decoded_op :=
  script_GetOp_from (length _bytes - i) _bytes i.

(** An opcode a template entry of [_match_decoded] accepts. *)
Definition accepts (m code : Z) : Prop :=
  (m = OP_PUSHDATA4 /\ 0 < code <= OP_PUSHDATA4) \/ m = code.

(** The bytes [op_push(i)] stands for. *)
Definition op_push_bytes (i : Z) : bytes :=
  if i <? 76 then le_bytes 1 i
  else if i <? 255 then x4c :: le_bytes 1 i
  else if i <? 65535 then x4d :: le_bytes 2 i
  else x4e :: le_bytes 4 i.

(** A signature slot whose push the script decoder reads back: the sentinel,
    or at least two bytes (a single byte of value 1 to 16 or 0x81 is pushed as
    a bare opcode, and the empty string as OP_0). *)
Definition pushable (x : bytes) : Prop := x = NO_SIGNATURE \/ (2 <= length x)%nat.

Section codec_vocabulary.
Context `{Bitcoinx}.

(** [x] is the [raw] of an [XPublicKey] object: its construction succeeded. *)
Definition key_object (x : XPublicKey) : Prop := XPublicKey_init (RawBytes x) = Ok x.

Definition no_kwargs : kwargs := mkKwargs [] NoAddress 0 [].

(** The keyword arguments [_parse_input] ends up with for an input whose
    previous hash is that of [txin] and whose script is [script]. *)
Definition parsed_kwargs (txin : XTxInput) (script : bytes) : kwargs :=
  if bool_decide (prev_hash txin <> replicate 32 x00)
  then match _parse_script_sig script no_kwargs with
       | Ok kw => kw
       | Err _ => no_kwargs
       end
  else no_kwargs.

Definition kwargs_complete (kw : kwargs) : bool :=
  kw_threshold kw
  <=? Z.of_nat (length (filter (fun sig => sig <> NO_SIGNATURE) (kw_signatures kw))).

(** The script [script] that [txin] serializes to parses, and to an input as
    complete as [txin] is. *)
Definition reparses (txin : XTxInput) (script : bytes) : Prop :=
  (prev_hash txin <> replicate 32 x00 ->
   exists kw, _parse_script_sig script no_kwargs = Ok kw)
  /\ kwargs_complete (parsed_kwargs txin script) = is_txin_complete txin.

(** The bytes of an input whose script is [script]. *)
Definition input_bytes (txin : XTxInput) (script : bytes) : bytes :=
  prev_hash txin ++ le_bytes 4 (prev_idx txin)
    ++ compact_size (Z.of_nat (length script)) ++ script
    ++ le_bytes 4 (sequence txin)
    ++ (if is_txin_complete txin then [] else le_bytes 8 (txin_value txin)).

(** The input [deserialize] makes of them: the value is read only when the
    input is incomplete. *)
Definition input_read_back (txin : XTxInput) (script : bytes) : XTxInput :=
  let kw := parsed_kwargs txin script in
  mkXTxInput (prev_hash txin) (prev_idx txin) script (sequence txin)
    (if is_txin_complete txin then 0 else txin_value txin)
    (kw_x_pubkeys kw) (kw_address kw) (kw_threshold kw) (kw_signatures kw).

(** The fields of an input fit the wire format. *)
Definition input_in_range (txin : XTxInput) : Prop :=
  length (prev_hash txin) = 32%nat
  /\ 0 <= prev_idx txin < 2 ^ 32
  /\ 0 <= sequence txin < 2 ^ 32
  /\ 0 <= txin_value txin < 2 ^ 64.

Definition output_in_range (o : TxOutput) : Prop :=
  - 2 ^ 63 <= value o < 2 ^ 63 /\ Z.of_nat (length (script_pubkey o)) < 2 ^ 64.

(** The input [txin] has a wire form: its script is [script], short enough
    for a length prefix, and parses back as above. *)
Definition serializable (txin : XTxInput) : Prop :=
  exists script, input_script txin = Ok (hex script)
    /\ Z.of_nat (length script) < 2 ^ 64
    /\ reparses txin script.

(** What the round trip keeps of an input: [back] is what [deserialize] makes
    of the serialization of [txin]. *)
Definition input_round_trip (txin back : XTxInput) : Prop :=
  prev_hash back = prev_hash txin
  /\ prev_idx back = prev_idx txin
  /\ input_script txin = Ok (hex (script_sig back))
  /\ sequence back = sequence txin
  /\ txin_value back = (if is_txin_complete txin then 0 else txin_value txin).

End codec_vocabulary.

From Stdlib Require Import ZArith Lia.
From Stdlib Require Import Strings.Byte Strings.Ascii Strings.String.
From stdpp Require Import base option list gmap strings pretty.

Open Scope Z_scope.

(** * The rest of the modules *)

(** ** transaction.py: the writers of [_BCDataStream] *)

Definition clear : stx BCDataStream unit := fun _ => (Ok tt, mkStream None 0).

(** [_write_num(format, num)]: the [struct.error] of [struct.pack] is not
    caught. *)
Definition _write_num (format : fmt) (num : Z) : stx BCDataStream unit :=
  s ← lift (struct_pack format num);
  write s.

Definition read_int16 : stx BCDataStream Z := _read_num fmt_h.
Definition read_uint16 : stx BCDataStream Z := _read_num fmt_H.
Definition read_int64 : stx BCDataStream Z := _read_num fmt_q.

Definition write_int16 : Z -> stx BCDataStream unit := _write_num fmt_h.
Definition write_uint16 : Z -> stx BCDataStream unit := _write_num fmt_H.
Definition write_int32 : Z -> stx BCDataStream unit := _write_num fmt_i.
Definition write_uint32 : Z -> stx BCDataStream unit := _write_num fmt_I.
Definition write_int64 : Z -> stx BCDataStream unit := _write_num fmt_q.
Definition write_uint64 : Z -> stx BCDataStream unit := _write_num fmt_Q.

(** What [write_compact_size] raises: its own [SerializationError], whose
    message is "attempt to write size < 0", or what a call it makes raises. *)
Inductive write_error :=
  | SizeBelowZero
  | Raised (e : exn).

Definition raised {A} (r : result A * BCDataStream) : (write_error + A) * BCDataStream :=
  match r with
  | (Ok a, vds) => (inr a, vds)
  | (Err e, vds) => (inl (Raised e), vds)
  end.

(** [write_compact_size(size)]; no branch is taken from [2**64] on. *)
Definition write_compact_size (size : Z) (vds : BCDataStream)
    : (write_error + unit) * BCDataStream :=
  if size <? 0 then (inl SizeBelowZero, vds)
  else if size <? 253 then raised (write [byte_of_Z size] vds)
  else if size <? 2 ^ 16 then raised ((_ ← write [xfd]; _write_num fmt_H size) vds)
  else if size <? 2 ^ 32 then raised ((_ ← write [xfe]; _write_num fmt_I size) vds)
  else if size <? 2 ^ 64 then raised ((_ ← write [xff]; _write_num fmt_Q size) vds)
  else (inr tt, vds).

(** The bytes a stream holds, none before the first [write]. *)
Definition buffer (vds : BCDataStream) : bytes := default [] (input vds).

(** The cursor of [vds] is at the end of what was written. *)
Definition at_end (vds : BCDataStream) : Prop :=
  read_cursor vds = Z.of_nat (length (buffer vds)).

(** The stream after [enc] was appended to the buffer of [vds]. *)
Definition appended (vds : BCDataStream) (enc : bytes) : BCDataStream :=
  mkStream (Some (buffer vds ++ enc)) (read_cursor vds).

(** The stream [vds] moved to the end of its buffer. *)
Definition consumed (vds : BCDataStream) : BCDataStream :=
  mkStream (input vds) (Z.of_nat (length (buffer vds))).

(** ** Vocabulary of the statements about scripts *)

(** A one-byte item that [push_item] turns into an opcode of its own (OP_1 to
    OP_16, OP_1NEGATE) instead of a push of the byte. *)
Definition pushed_as_opcode (x : bytes) : Prop :=
  exists b, x = [b] /\ (1 <= Z_of_byte b <= 16 \/ Z_of_byte b = 129).

(** What [_script_GetOp] yields for a well-formed operation: the opcode is a
    byte, and it comes with data exactly when it is a push. *)
Definition decoded_op_ok (d : decoded_op) : Prop :=
  0 <= op_code d < 256 /\ (op_data d = None <-> OP_PUSHDATA4 < op_code d).

(** The decoded operation [d] is that of the token [t], wherever it stands. *)
Definition decodes_as (d : decoded_op) (t : token) : Prop :=
  op_code d = token_code t /\ op_data d = token_data t.

(** The decoded operation [d] is a push of the bytes [x]. *)
Definition pushes (d : decoded_op) (x : bytes) : Prop :=
  op_data d = Some x /\ 0 < op_code d <= OP_PUSHDATA4.

(** An item whose push [_match_decoded] takes for a push of data: not empty
    (that is OP_0), not written as an opcode of its own, shorter than
    [2**32] bytes. *)
Definition pushed_item (x : bytes) : Prop :=
  x <> [] /\ ~ pushed_as_opcode x /\ Z.of_nat (length x) < 2 ^ 32.

(** ** transaction.py: the rest of the signature helpers and of [Transaction] *)

Section transaction_rest.
Context `{Bitcoinx}.

(** [sig[:-1]] *)
Definition without_last (sig : bytes) : bytes := take (length sig - 1) sig.

(** [txin_stripped_signatures_with_blanks(txin)]: strips the sighash byte. *)
Definition txin_stripped_signatures_with_blanks (txin : XTxInput) : list bytes :=
  (fun sig => if bool_decide (sig = NO_SIGNATURE) then [] else without_last sig)
    <$> signatures txin.

(** [txin_unused_x_pubkeys(txin)] *)
Definition txin_unused_x_pubkeys (txin : XTxInput) : list XPublicKey :=
  if is_txin_complete txin then []
  else fst <$> filter (fun p => p.2 = NO_SIGNATURE)
                 (zip (x_pubkeys txin) (signatures txin)).

(** [Transaction(hex_str)]: [bytes.fromhex] checks the text, and raises
    [TypeError] for [None]. *)
Definition Transaction_init (hex_str : option string) : result Transaction :=
  match hex_str with
  | None => Err TypeError
  | Some s => _ ← fromhex s; Ok (mkTransaction (Some s) None None 0 1)
  end.

(** [Transaction.from_io(inputs, outputs, locktime)]. The assertions of
    [_validate_outputs] hold of every list of outputs as they are typed
    here. *)
Definition from_io (ins : list XTxInput) (outs : list TxOutput) (lock : Z)
    : result Transaction :=
  self ← Transaction_init None;
  Ok (mkTransaction (raw self) (Some ins) (Some outs) lock (version self)).

(** [update(raw)] *)
Definition update (new_raw : string) : stx Transaction unit := fun self =>
  Transaction_deserialize
    (mkTransaction (Some new_raw) None (_outputs self) (locktime self) (version self)).

(** [add_inputs(inputs)]: [None] has no [extend]. *)
Definition add_inputs (new : list XTxInput) : stx Transaction unit := fun self =>
  match _inputs self with
  | None => (Err (AttributeError "extend"), self)
  | Some ins =>
      (Ok tt, mkTransaction None (Some (ins ++ new)) (_outputs self)
                (locktime self) (version self))
  end.

Definition add_outputs (new : list TxOutput) : stx Transaction unit := fun self =>
  match _outputs self with
  | None => (Err (AttributeError "extend"), self)
  | Some outs =>
      (Ok tt, mkTransaction None (_inputs self) (Some (outs ++ new))
                (locktime self) (version self))
  end.

(** [sum(...)] of integers *)
Definition py_sum (l : list Z) : Z := fold_left Z.add l 0.

Definition input_value : stx Transaction Z :=
  ins ← inputs;
  ins ← lift (iterable ins);
  mret (py_sum (txin_value <$> ins)).

Definition output_value : stx Transaction Z :=
  outs ← outputs;
  outs ← lift (iterable outs);
  mret (py_sum (value <$> outs)).

Definition get_fee : stx Transaction Z :=
  i ← input_value;
  o ← output_value;
  mret (i - o).

End transaction_rest.

(** ** paymentrequest.py: the rest of [PaymentRequest] *)

(** [sum(x.amount for x in self.outputs)]: the sum starts from 0, and adding
    [None] to an [int] raises [TypeError]. *)
Fixpoint sum_amounts (acc : Z) (outs : list Output.t) : result Z :=
  match outs with
  | [] => Ok acc
  | o :: outs' =>
      match Output.amount o with
      | Some a => sum_amounts (acc + a) outs'
      | None => Err TypeError
      end
  end.

Definition PaymentRequest_get_amount (self : PaymentRequest.t) : result Z :=
  sum_amounts 0 (PaymentRequest.outputs self).

Definition PaymentRequest_is_pr (self : PaymentRequest.t) : result bool :=
  a ← PaymentRequest_get_amount self;
  Ok (negb (a =? 0)).

(** [has_expired()], [now] being [int(time.time())]: the value of
    [self.expiration_timestamp and self.expiration_timestamp < now], that is
    [None], the integer 0, or a boolean. *)
Definition PaymentRequest_has_expired (now : Z) (self : PaymentRequest.t) : pyval :=
  match PaymentRequest.expiration_timestamp self with
  | None => PyNone
  | Some e => if e =? 0 then PyInt e else PyBool (e <? now)
  end.

(** [to_tx_output()] and [get_outputs()]: the amount may be [None]. *)
Definition PaymentRequest_get_outputs (self : PaymentRequest.t)
    : list (option Z * bytes) :=
  (fun o => (Output.amount o, Output.script o)) <$> PaymentRequest.outputs self.

(** ** paymentrequest.py: the queries of [InvoiceStore] *)

Definition PR_UNPAID : Z := 0.
Definition PR_EXPIRED : Z := 1.
Definition PR_UNKNOWN : Z := 2.
Definition PR_PAID : Z := 3.

(** [get(k)]: a reference to the invoice, or [None]. *)
Definition InvoiceStore_get (k : string) (w : InvoiceStore.world) : option nat :=
  dict_get (InvoiceStore.invoices (InvoiceStore.store w)) k.

(** [get_status(key)]; [None] when there is no such invoice. The test
    [if pr.has_expired()] is on a value that is [None], 0 or a boolean. *)
Definition InvoiceStore_get_status (now : Z) (key : string) (w : InvoiceStore.world)
    : option Z :=
  match InvoiceStore_get key w with
  | None => None
  | Some r =>
      let pr := InvoiceStore.deref w r in
      if bool_decide (PaymentRequest.tx pr <> None) then Some PR_PAID
      else
        match PaymentRequest_has_expired now pr with
        | PyBool true => Some PR_EXPIRED
        | _ => Some PR_UNPAID
        end
  end.

(** [unpaid_invoices()]: references to the invoices whose status is not
    [PR_PAID]. *)
Definition InvoiceStore_unpaid_invoices (now : Z) (w : InvoiceStore.world) : list nat :=
  snd <$> filter (fun p => InvoiceStore_get_status now p.1 w <> Some PR_PAID)
            (InvoiceStore.invoices (InvoiceStore.store w)).

(** ** paymentrequest.py: [Payment] *)

Module Payment.

Definition MAXIMUM_JSON_LENGTH : Z := 10 * 1000 * 1000.

Record t := mk {
  merchant_data : pyval;            (* Any *)
  transaction_hex : string;
  refund_outputs : list Output.t;
  memo : option string;
}.

Definition from_dict (data : pyval) : result t :=
  has_merchant_data ← py_contains "merchantData" data;
  if negb has_merchant_data
  then Err (Bip270Exception "Missing required json 'merchantData' field") else
  merchant_data ← py_getitem data "merchantData";
  has_transaction ← py_contains "transaction" data;
  if negb has_transaction
  then Err (Bip270Exception "Missing required json 'transaction' field") else
  transaction_hex ← py_getitem data "transaction";
  match transaction_hex with
  | PyStr transaction_hex =>
      has_refund ← py_contains "refundTo" data;
      if negb has_refund
      then Err (Bip270Exception "Missing required json 'refundTo' field") else
      refundTo ← py_getitem data "refundTo";
      match refundTo with
      | PyList l =>
          refund_outputs ← result_mapM Output.from_dict l;
          memo ← py_get data "memo";
          memo ← PaymentRequest.optional_str "memo" memo;
          Ok (mk merchant_data transaction_hex refund_outputs memo)
      | _ => Err (Bip270Exception "Invalid json 'refundTo' field")
      end
  | _ => Err (Bip270Exception "Invalid json 'transaction' field")
  end.

(** [if self.memo]: an absent memo and the empty memo are both false. *)
Definition to_dict (self : t) : pyval :=
  PyDict
    ([("merchantData", merchant_data self);
      ("transaction", PyStr (transaction_hex self));
      ("refundTo", PyList (Output.to_dict <$> refund_outputs self))]
     ++ match memo self with
        | Some m => if decide (m = EmptyString) then [] else [("memo", PyStr m)]
        | None => []
        end).

Definition from_json `{Library} (s : string) : result t :=
  if MAXIMUM_JSON_LENGTH <? Z.of_nat (String.length s)
  then Err (Bip270Exception "Invalid payment, too large") else
  data ← json_loads s;
  from_dict data.

End Payment.

(** An [Output] as the constructor makes it: a description, if any, whose
    JSON encoding has at most 100 characters. *)
Definition output_ok (o : Output.t) : Prop :=
  forall d, Output.description o = Some d ->
            (String.length (json_dumps_str d) <= 100)%nat.

(** What the [to_dict]/[from_dict] round trip makes of an [Output]. *)
Definition output_read_back (o : Output.t) : Output.t :=
  Output.mk (Output.script o) (absent_if_zero (Output.amount o))
    (absent_if_empty (Output.description o)).

Definition opt_int (z : option Z) : pyval :=
  match z with
  | Some x => PyInt x
  | None => PyNone
  end.

(** The value [d.get(k)] gives. *)
Definition dict_get_or_none (d : pydict pyval) (k : string) : pyval :=
  default PyNone (dict_get d k).

(** The request [p] after [p.tx = txid]. *)
Definition with_tx (p : PaymentRequest.t) (txid : string) : PaymentRequest.t :=
  PaymentRequest.mk (PaymentRequest.id p) (PaymentRequest.requestor p) (Some txid)
    (PaymentRequest.outputs p) (PaymentRequest.creation_timestamp p)
    (PaymentRequest.expiration_timestamp p) (PaymentRequest.memo p)
    (PaymentRequest.payment_url p) (PaymentRequest.merchant_data p).

(** ** A stand-in that reads a whole payment request

    The document [{"network": "bitcoin", "outputs": [{"script": "6a"}],
    "creationTimestamp": 1700000000, "memo": "rent"}], and otherwise what
    [sample_library] reads. *)
Definition doc_request : string :=
  "{" +:+ String dquote "network" +:+ String dquote ": "
      +:+ String dquote "bitcoin" +:+ String dquote ", "
      +:+ String dquote "outputs" +:+ String dquote ": [{"
      +:+ String dquote "script" +:+ String dquote ": "
      +:+ String dquote "6a" +:+ String dquote "}], "
      +:+ String dquote "creationTimestamp" +:+ String dquote ": 1700000000, "
      +:+ String dquote "memo" +:+ String dquote ": "
      +:+ String dquote "rent" +:+ String dquote "}".

Definition request_library : Library := {|
  json_loads s :=
    if decide (s = doc_request)
    then Ok (PyDict [("network", PyStr "bitcoin");
                     ("outputs", PyList [PyDict [("script", PyStr "6a")]]);
                     ("creationTimestamp", PyInt 1700000000);
                     ("memo", PyStr "rent")])
    else json_loads (Library := sample_library) s;
  py_str := py_str (Library := sample_library);
  address_string := address_string (Library := sample_library);
|}.

(** ** Sample transactions for the stand-in library

    Three keys, and a signature made with a key: under the stand-in library
    it starts with the key. *)
Definition key_a : bytes := x02 :: replicate 32 x11.
Definition key_b : bytes := x03 :: replicate 32 x22.
Definition key_c : bytes := x02 :: replicate 32 x33.

Definition signature_of (key : bytes) (pad : byte) : bytes := key ++ replicate 38 pad.

(** The redeem script of 2 of the three keys. *)
Definition redeem_2of3 : bytes :=
  [x52] ++ ([x21] ++ key_a) ++ ([x21] ++ key_b) ++ ([x21] ++ key_c) ++ [x53; xae].

(** The script of an unsigned P2PKH input of [key_a]: the sentinel, the key. *)
Definition script_unsigned_p2pkh : bytes := [x01; xff] ++ [x21] ++ key_a.

(** Two scripts of a 2-of-3 input that carries the signature of [key_b]: as
    the wallet writes it, a slot for each key, the unfilled ones holding the
    sentinel; and with the one signature alone. *)
Definition script_multisig_slots : bytes :=
  [x00] ++ [x01; xff] ++ ([x48] ++ full_signature (signature_of key_b x05))
    ++ [x01; xff] ++ ([x4c; x69] ++ redeem_2of3).


Definition txin_unsigned_p2pkh : XTxInput :=
  mkXTxInput (H := sample_bitcoinx) (replicate 32 xaa) 0 script_unsigned_p2pkh
    4294967295 5000 [key_a]
    (AddressOf (P2PKH_Address (hash160 (Bitcoinx := sample_bitcoinx) key_a))) 1
    [NO_SIGNATURE].

Definition txin_multisig_slots : XTxInput :=
  mkXTxInput (H := sample_bitcoinx) (replicate 32 xbb) 1 script_multisig_slots
    4294967295 7000 [key_a; key_b; key_c]
    (AddressOf (P2SH_Address (hash160 (Bitcoinx := sample_bitcoinx) redeem_2of3))) 2
    [NO_SIGNATURE; full_signature (signature_of key_b x05); NO_SIGNATURE].


(** The bytes of an incomplete input on the wire: outpoint, script, sequence
    and value. *)
Definition wire_input (txin : XTxInput (H := sample_bitcoinx)) (script_length : byte)
    : bytes :=
  prev_hash txin ++ le_bytes 4 (prev_idx txin) ++ [script_length] ++ script_sig txin
    ++ le_bytes 4 (sequence txin) ++ le_bytes 8 (txin_value txin).

(** The raw text of a transaction with the P2PKH input and the multisig
    input with slots, and of one with the bare multisig input; both pay 4000
    to one output. *)
Definition raw_two_inputs : string :=
  hex (le_bytes 4 1 ++ [x02] ++ wire_input txin_unsigned_p2pkh x24
         ++ wire_input txin_multisig_slots xb9
         ++ [x01] ++ le_bytes 8 4000 ++ [x01; x6a] ++ le_bytes 4 0).


From Stdlib Require Import ZArith Lia.
From Stdlib Require Import Strings.Byte Strings.Ascii Strings.String.
From stdpp Require Import base option list gmap strings.

Open Scope Z_scope.

(** * Bytes *)

Lemma Z_of_byte_range (b : byte) : 0 <= Z_of_byte b < 256.
Proof.
  unfold Z_of_byte. pose proof (Byte.to_N_bounded b). lia.
Qed.

Lemma byte_of_Z_of_byte (b : byte) : byte_of_Z (Z_of_byte b) = b.
Proof.
  unfold byte_of_Z, Z_of_byte.
  pose proof (Byte.to_N_bounded b).
  rewrite Z.mod_small by lia.
  rewrite N2Z.id, Byte.of_to_N. reflexivity.
Qed.

Lemma Z_of_byte_of_Z (z : Z) : 0 <= z < 256 -> Z_of_byte (byte_of_Z z) = z.
Proof.
  intros Hz. unfold byte_of_Z, Z_of_byte.
  rewrite Z.mod_small by lia.
  destruct (Byte.of_N (Z.to_N z)) as [b|] eqn:E.
  - apply Byte.to_of_N in E. rewrite E. lia.
  - apply Byte.of_N_None_iff in E. lia.
Qed.

Lemma Z_of_byte_inj (a b : byte) : Z_of_byte a = Z_of_byte b -> a = b.
Proof.
  intros H. rewrite <- (byte_of_Z_of_byte a), <- (byte_of_Z_of_byte b). now rewrite H.
Qed.

(** * The monads *)

Lemma stx_bind_unfold {S A B} (m : stx S A) (k : A -> stx S B) (s : S) :
  (m ≫= k) s = match m s with
               | (Ok a, s') => k a s'
               | (Err e, s') => (Err e, s')
               end.
Proof. reflexivity. Qed.

Lemma stx_bind_ok {S A B} (m : stx S A) (k : A -> stx S B) (s s' : S) (a : A) :
  m s = (Ok a, s') -> (m ≫= k) s = k a s'.
Proof. intros E. now rewrite stx_bind_unfold, E. Qed.

Lemma stx_bind_err {S A B} (m : stx S A) (k : A -> stx S B) (s s' : S) (e : exn) :
  m s = (Err e, s') -> (m ≫= k) s = (Err e, s').
Proof. intros E. now rewrite stx_bind_unfold, E. Qed.

Lemma result_bind_unfold {A B} (m : result A) (k : A -> result B) :
  (m ≫= k) = match m with
             | Ok a => k a
             | Err e => Err e
             end.
Proof. reflexivity. Qed.

(** Unfolds the binds and returns of both monads. *)
Ltac monad_unfold :=
  cbv [mbind stx_bind mret stx_ret lift raise get_state put_state result_bind result_ret].

Tactic Notation "monad_unfold" "in" hyp(H) :=
  cbv [mbind stx_bind mret stx_ret lift raise get_state put_state result_bind result_ret]
    in H.

(** * Ledger: the positional signature parser *)

Lemma getitem_app_r (pre post : bytes) (i : nat) :
  getitem (pre ++ post) (length pre + i) = getitem post i.
Proof.
  unfold getitem. rewrite lookup_app_r by lia.
  replace (length pre + i - length pre)%nat with i by lia. reflexivity.
Qed.

(** C9. On a blob laid out as [b0 b1 b2 rLength r.. t sLength s..], where [r]
    has the declared [rLength] bytes, [sign_message] returns the header byte
    [27 + 4 + (b0 & 1)] followed by [r] and [s], each without its first byte
    exactly when its declared length is 33; with 32-byte [r] and [s] this is
    the header followed by [r] and [s] unchanged, 65 bytes in all. *)
Theorem ledger_sign_message_layout (b0 b1 b2 rl t sl : byte) (r s : bytes) :
  length r = Z.to_nat (Z_of_byte rl) ->
  Ledger.sign_message (Ledger.Signed ([b0; b1; b2; rl] ++ r ++ [t; sl] ++ s))
    = Ok (ledger_header b0 :: ledger_component rl r ++ ledger_component sl s)
  /\ Z_of_byte (ledger_header b0) = 27 + 4 + Z_of_byte b0 mod 2
  /\ (Z_of_byte rl = 32 -> Z_of_byte sl = 32 -> length s = 32%nat ->
      Ledger.sign_message (Ledger.Signed ([b0; b1; b2; rl] ++ r ++ [t; sl] ++ s))
        = Ok (ledger_header b0 :: r ++ s)
      /\ length (ledger_header b0 :: r ++ s) = 65%nat).
Proof.
  intros Hr.
  assert (Hrun : Ledger.sign_message (Ledger.Signed ([b0; b1; b2; rl] ++ r ++ [t; sl] ++ s))
    = Ok (ledger_header b0 :: ledger_component rl r ++ ledger_component sl s)).
  { unfold Ledger.sign_message.
    change (getitem ([b0; b1; b2; rl] ++ r ++ [t; sl] ++ s) 3) with (Ok (Z_of_byte rl)).
    cbn [mbind result_bind].
    set (n := Z.to_nat (Z_of_byte rl)) in *.
    assert (Hsl : getitem ([b0; b1; b2; rl] ++ r ++ [t; sl] ++ s) (4 + n + 1) = Ok (Z_of_byte sl)).
    { replace (4 + n + 1)%nat with (length ([b0; b1; b2; rl] ++ r) + 1)%nat
        by (rewrite length_app; simpl; lia).
      rewrite (app_assoc _ r), getitem_app_r. reflexivity. }
    rewrite Hsl. cbn [mbind result_bind].
    change (getitem ([b0; b1; b2; rl] ++ r ++ [t; sl] ++ s) 0) with (Ok (Z_of_byte b0)).
    cbn [mbind result_bind].
    assert (Hslice : slice ([b0; b1; b2; rl] ++ r ++ [t; sl] ++ s) 4 (4 + n) = r).
    { unfold slice. replace (4 + n - 4)%nat with n by lia.
      change (drop 4 ([b0; b1; b2; rl] ++ r ++ [t; sl] ++ s)) with (r ++ [t; sl] ++ s).
      rewrite take_app_length'; [reflexivity | lia]. }
    assert (Hdrop : drop (4 + n + 2) ([b0; b1; b2; rl] ++ r ++ [t; sl] ++ s) = s).
    { replace (4 + n + 2)%nat with (length ([b0; b1; b2; rl] ++ r ++ [t; sl]))%nat
        by (rewrite !length_app; simpl; lia).
      replace ([b0; b1; b2; rl] ++ r ++ [t; sl] ++ s)
        with (([b0; b1; b2; rl] ++ r ++ [t; sl]) ++ s)
        by (now rewrite <- !app_assoc).
      apply drop_app_length. }
    rewrite Hslice, Hdrop.
    unfold ledger_header, ledger_component.
    repeat case_decide; repeat match goal with |- context [?a =? ?b] =>
      destruct (Z.eqb_spec a b) end; try lia; reflexivity. }
  split; [exact Hrun|]. split.
  - unfold ledger_header.
    pose proof (Z_of_byte_range b0).
    change 1 with (Z.ones 1). rewrite Z.land_ones by lia.
    change (2 ^ 1) with 2.
    pose proof (Z.mod_pos_bound (Z_of_byte b0) 2 ltac:(lia)).
    rewrite Z_of_byte_of_Z by lia. reflexivity.
  - intros Hrl Hsl Hs. split.
    + rewrite Hrun. unfold ledger_component.
      repeat case_decide; try lia. reflexivity.
    + simpl. rewrite length_app. lia.
Qed.

(** The layout theorem at a concrete 70-byte blob with 32-byte components. *)
Lemma ledger_sign_message_layout_witness :
  Ledger.sign_message (Ledger.Signed
      ([x31; x44; x02; x20] ++ replicate 32 xaa ++ [x02; x20] ++ replicate 32 xbb))
    = Ok (x20 :: replicate 32 xaa ++ replicate 32 xbb).
Proof.
  pose proof (ledger_sign_message_layout x31 x44 x02 x20 x02 x20
                (replicate 32 xaa) (replicate 32 xbb) eq_refl) as (_ & _ & H).
  destruct (H eq_refl eq_refl eq_refl) as [H1 _]. exact H1.
Defined.

(** * Hexadecimal text *)

Lemma hex_digit_spec (n : Z) :
  0 <= n < 16 -> hexval (hex_digit n) = Some n /\ is_space (hex_digit n) = false.
Proof.
  intros Hn.
  assert (Hk : (Z.to_nat n < 16)%nat) by lia.
  rewrite <- (Z2Nat.id n) by lia.
  generalize dependent (Z.to_nat n). clear Hn n. intros k Hk.
  do 16 (destruct k as [|k]; [split; reflexivity|]). lia.
Qed.

Lemma byte_nibbles (x : byte) :
  byte_of_Z (16 * (Z_of_byte x / 16) + Z_of_byte x mod 16) = x.
Proof.
  rewrite <- Z.div_mod by lia. apply byte_of_Z_of_byte.
Qed.

Lemma fromhex_hex (b : bytes) : fromhex (hex b) = Ok b.
Proof.
  induction b as [|x b IH]; [reflexivity|].
  pose proof (Z_of_byte_range x) as Hx.
  assert (H1 : 0 <= Z_of_byte x / 16 < 16)
    by (split; [apply Z.div_pos; lia | apply Z.div_lt_upper_bound; lia]).
  assert (H2 : 0 <= Z_of_byte x mod 16 < 16) by (apply Z.mod_pos_bound; lia).
  destruct (hex_digit_spec _ H1) as [Hv1 Hs1].
  destruct (hex_digit_spec _ H2) as [Hv2 _].
  cbn [hex fromhex]. rewrite Hs1, Hv1, Hv2, IH.
  cbn [mbind result_bind]. now rewrite byte_nibbles.
Qed.

(** * paymentrequest.py: [Output] *)

Arguments Output.init : simpl never.

(** Decides the comparisons of literal keys a dictionary lookup leaves. *)
Ltac str_decide :=
  repeat match goal with
    | |- context [decide (?a = ?b)] =>
        first [ rewrite (decide_True (P := a = b)) by reflexivity
              | rewrite (decide_False (P := a = b)) by discriminate ]
    end.

Lemma output_init_inv script amount description o :
  Output.init script amount description = Ok o ->
  o = Output.mk script amount description
  /\ forall d, description = Some d -> (String.length (json_dumps_str d) <= 100)%nat.
Proof.
  unfold Output.init. destruct description as [d|].
  - destruct (Nat.ltb_spec 100 (String.length (json_dumps_str d))); [discriminate|].
    intros [= <-]. split; [reflexivity|]. intros ? [= <-]. assumption.
  - intros [= <-]. split; [reflexivity|]. discriminate.
Qed.

Lemma output_init_ok script amount description :
  (forall d, description = Some d -> (String.length (json_dumps_str d) <= 100)%nat) ->
  Output.init script amount description = Ok (Output.mk script amount description).
Proof.
  intros H. unfold Output.init. destruct description as [d|]; [|reflexivity].
  specialize (H d eq_refl).
  destruct (Nat.ltb_spec 100 (String.length (json_dumps_str d))); [lia|reflexivity].
Qed.

Lemma output_from_dict_inv data o :
  Output.from_dict data = Ok o ->
  Output.init (Output.script o) (Output.amount o) (Output.description o) = Ok o.
Proof.
  unfold Output.from_dict. intros H.
  destruct (py_contains "script" data) as [[|]|]; cbn in H; try discriminate.
  destruct (py_getitem data "script") as [sh|]; cbn in H; try discriminate.
  destruct (py_get data "amount") as [a|]; cbn in H; try discriminate.
  destruct (py_get data "description") as [d|]; cbn in H.
  2:{ destruct a; discriminate. }
  assert (exists s a' d', Output.init s a' d' = Ok o) as (s & a' & d' & Hi).
  { destruct a; cbn in H; try discriminate;
      destruct d; cbn in H; try discriminate;
      destruct (Script_from_hex sh); cbn in H; try discriminate; eauto. }
  destruct (output_init_inv _ _ _ _ Hi) as [-> _]. exact Hi.
Qed.

(** C7 (as stated, refuted). An [Output] read from a valid dict with the
    integer amount 0 does not come back: [to_dict] leaves the amount out and
    [from_dict] reads it as absent. *)
Lemma output_roundtrip_loses_zero_amount :
  Output.from_dict (PyDict [("script", PyStr "76a988ac"); ("amount", PyInt 0)])
    = Ok (Output.mk [x76; xa9; x88; xac] (Some 0) None)
  /\ Output.from_dict (Output.to_dict (Output.mk [x76; xa9; x88; xac] (Some 0) None))
    = Ok (Output.mk [x76; xa9; x88; xac] None None)
  /\ Output.amount (Output.mk [x76; xa9; x88; xac] None None)
     <> Output.amount (Output.mk [x76; xa9; x88; xac] (Some 0) None).
Proof.
  split; [reflexivity|]. split; [reflexivity|]. discriminate.
Qed.

(** C7 (amended). For every [Output] read from a dict, [from_dict] of its
    [to_dict] succeeds and gives the same script, the same amount unless the
    amount is 0, which comes back absent, and the same description unless it
    is the empty string, which comes back absent. *)
Theorem output_dict_roundtrip (data : pyval) (o : Output.t) :
  Output.from_dict data = Ok o ->
  Output.from_dict (Output.to_dict o)
    = Ok (Output.mk (Output.script o) (absent_if_zero (Output.amount o))
            (absent_if_empty (Output.description o))).
Proof.
  intros H. apply output_from_dict_inv in H.
  apply output_init_inv in H as [_ Hlen].
  destruct o as [s a d]. cbn [Output.script Output.amount Output.description] in *.
  assert (Hinit : forall a', Output.init s a' (absent_if_empty d)
                             = Ok (Output.mk s a' (absent_if_empty d))).
  { intros a'. apply output_init_ok. intros d' Hd'. apply Hlen.
    destruct d as [[|]|]; cbn in Hd'; congruence. }
  unfold Output.from_dict, Output.to_dict.
  cbn [Output.script Output.amount Output.description].
  destruct a as [a|]; [destruct (decide (a = 0)) as [->|Ha]|];
    (destruct d as [d|]; [destruct (decide (d = EmptyString)) as [->|Hd]|]);
    cbn; str_decide; cbn; rewrite ?fromhex_hex; cbn;
    rewrite <- (Hinit _); clear Hinit.
  all: try reflexivity.
  all: try (destruct a; try congruence; destruct d; try congruence; reflexivity).
  all: try (destruct d; try congruence; reflexivity).
  all: try (destruct a; try congruence; reflexivity).
Qed.

(** The round trip at an output with a non-zero amount and a description. *)
Lemma output_dict_roundtrip_witness :
  Output.from_dict
    (Output.to_dict (Output.mk [x76; xa9; x88; xac] (Some 5000) (Some "rent")))
  = Ok (Output.mk [x76; xa9; x88; xac] (Some 5000) (Some "rent")).
Proof.
  exact (output_dict_roundtrip
           (PyDict [("script", PyStr "76a988ac"); ("amount", PyInt 5000);
                    ("description", PyStr "rent")])
           (Output.mk [x76; xa9; x88; xac] (Some 5000) (Some "rent")) eq_refl).
Defined.

(** C8. [Output(script, amount, description)] raises the protocol error
    "Output description too long" when the JSON encoding of the description
    is longer than 100 characters and succeeds when it has exactly 100; so
    does [Output.from_dict] on a dict that holds a hexadecimal script, a valid
    amount and that description. *)
Theorem output_description_limit (script : bytes) (amount : option Z) (d : string)
    (kv : pydict pyval) :
  ((100 < String.length (json_dumps_str d))%nat ->
     Output.init script amount (Some d)
       = Err (Bip270Exception "Output description too long")
     /\ (output_fields kv script amount d ->
         Output.from_dict (PyDict kv)
           = Err (Bip270Exception "Output description too long")))
  /\ (String.length (json_dumps_str d) = 100%nat ->
     Output.init script amount (Some d) = Ok (Output.mk script amount (Some d))
     /\ (output_fields kv script amount d ->
         Output.from_dict (PyDict kv) = Ok (Output.mk script amount (Some d)))).
Proof.
  assert (Hfd : output_fields kv script amount d ->
                Output.from_dict (PyDict kv) = Output.init script amount (Some d)).
  { intros ((h & Hs & Hh) & Ha & Hd).
    unfold Output.from_dict, py_contains, py_getitem, py_get.
    rewrite Hs, Hd. cbn.
    destruct amount as [z|]; [rewrite Ha | destruct Ha as [-> | ->]];
      cbn; rewrite Hh; reflexivity. }
  split; intros Hlen.
  - assert (Hi : Output.init script amount (Some d)
                 = Err (Bip270Exception "Output description too long")).
    { unfold Output.init.
      destruct (Nat.ltb_spec 100 (String.length (json_dumps_str d))); [reflexivity|lia]. }
    split; [exact Hi|]. intros Hf. now rewrite (Hfd Hf).
  - assert (Hi : Output.init script amount (Some d)
                 = Ok (Output.mk script amount (Some d))).
    { apply output_init_ok. intros ? [= <-]. lia. }
    split; [exact Hi|]. intros Hf. now rewrite (Hfd Hf).
Qed.

(** The limit at descriptions of 98 and 99 letters, whose JSON encodings have
    100 and 101 characters. *)
Lemma output_description_limit_witness :
  Output.from_dict (PyDict [("script", PyStr "6a"); ("description", PyStr (string_repeat 98 "a"))])
    = Ok (Output.mk [x6a] None (Some (string_repeat 98 "a")))
  /\ Output.init [x6a] (Some 1) (Some (string_repeat 99 "a"))
    = Err (Bip270Exception "Output description too long").
Proof.
  split.
  - refine (proj2 (proj2 (output_description_limit [x6a] None (string_repeat 98 "a")
                     [("script", PyStr "6a"); ("description", PyStr (string_repeat 98 "a"))])
                     eq_refl) _).
    split; [exists "6a"%string; split; reflexivity|]. split; [left|]; reflexivity.
  - refine (proj1 (proj1 (output_description_limit [x6a] (Some 1) (string_repeat 99 "a") [])
                     _)).
    vm_compute. lia.
Defined.

(** * paymentrequest.py: [PaymentRequest.from_json] *)

Section from_json.
Context `{Library}.

(** C6. [PaymentRequest.from_json] raises a protocol error, with a message
    of its own, on a document longer than 10,000,000 characters, on a
    document whose [network] is not the string "bitcoin", on one that has no
    [outputs], and on one whose [outputs] is not a list; the four messages are
    pairwise different whatever the network printed in the second. *)
Theorem from_json_rejects (rand_id : string) (now : Z) (s : string) :
  (PaymentRequest.MAXIMUM_JSON_LENGTH < Z.of_nat (String.length s) ->
     PaymentRequest.from_json rand_id now s
       = Err (Bip270Exception "Invalid payment request, too large"))
  /\ (forall d,
        Z.of_nat (String.length s) <= PaymentRequest.MAXIMUM_JSON_LENGTH ->
        json_loads s = Ok (PyDict d) ->
        (dict_get d "network" <> Some (PyStr "bitcoin") ->
           PaymentRequest.from_json rand_id now s
             = Err (Bip270Exception
                      ("Invalid json network: "
                         +:+ py_str (default PyNone (dict_get d "network")))))
        /\ (dict_get d "network" = Some (PyStr "bitcoin") ->
            dict_get d "outputs" = None ->
            PaymentRequest.from_json rand_id now s
              = Err (Bip270Exception "Missing required json 'outputs' field"))
        /\ (dict_get d "network" = Some (PyStr "bitcoin") ->
            forall v, dict_get d "outputs" = Some v ->
            (forall l, v <> PyList l) ->
            PaymentRequest.from_json rand_id now s
              = Err (Bip270Exception "Invalid json 'outputs' field")))
  /\ (forall x : string,
        let too_large := "Invalid payment request, too large"%string in
        let network := ("Invalid json network: " +:+ x)%string in
        let missing := "Missing required json 'outputs' field"%string in
        let invalid := "Invalid json 'outputs' field"%string in
        too_large <> network /\ too_large <> missing /\ too_large <> invalid
        /\ network <> missing /\ network <> invalid /\ missing <> invalid).
Proof.
  split; [|split].
  - intros Hlen. unfold PaymentRequest.from_json.
    destruct (Z.ltb_spec PaymentRequest.MAXIMUM_JSON_LENGTH (Z.of_nat (String.length s)));
      [reflexivity|lia].
  - intros d Hlen Hd. unfold PaymentRequest.from_json.
    destruct (Z.ltb_spec PaymentRequest.MAXIMUM_JSON_LENGTH (Z.of_nat (String.length s))); [lia|].
    rewrite Hd. cbn [mbind result_bind py_get py_contains py_getitem].
    split; [|split].
    + intros Hn.
      destruct (dict_get d "network") as [[]|] eqn:E; cbn; try reflexivity.
      case_bool_decide; [congruence|reflexivity].
    + intros Hn Ho. rewrite Hn, Ho. reflexivity.
    + intros Hn v Ho Hv. rewrite Hn, Ho. cbn.
      destruct v; try reflexivity. now destruct (Hv l).
  - intros x. cbn. repeat split; discriminate.
Qed.

End from_json.

(** The rejections at the document [{}] under the stand-in library. *)
Lemma from_json_rejects_witness :
  PaymentRequest.from_json (H := sample_library) "00ff" 1700000000 doc_empty_object
  = Err (Bip270Exception "Invalid json network: None").
Proof.
  refine (proj1 (proj1 (proj2 (from_json_rejects (H := sample_library)
                                 "00ff" 1700000000 doc_empty_object))
                   [] _ eq_refl) _).
  - vm_compute. intros [=].
  - discriminate.
Defined.

(** * paymentrequest.py: [InvoiceStore] *)

Lemma invoice_store_save_raises (w : InvoiceStore.world) :
  InvoiceStore.save w = (Err (AttributeError "wallet_data"), w).
Proof. reflexivity. Qed.

(** C2 (the code departs from it). [save] reads [self.wallet_data], which
    [__init__] never binds (it binds [_wallet_data]), and raises
    [AttributeError]; so [add] and [remove] never return normally and leave
    the wallet-data mapping as it was, and [set_paid], which does not call
    [save], leaves it as it was too. *)
Theorem invoice_store_never_persists `{Library} (w : InvoiceStore.world)
    (pr : nat) (key txid : string) :
  (forall k, fst (InvoiceStore.add pr w) <> Ok k)
  /\ InvoiceStore._wallet_data (InvoiceStore.store (snd (InvoiceStore.add pr w)))
     = InvoiceStore._wallet_data (InvoiceStore.store w)
  /\ fst (InvoiceStore.remove key w) <> Ok tt
  /\ InvoiceStore._wallet_data (InvoiceStore.store (snd (InvoiceStore.remove key w)))
     = InvoiceStore._wallet_data (InvoiceStore.store w)
  /\ InvoiceStore._wallet_data (InvoiceStore.store (snd (InvoiceStore.set_paid pr txid w)))
     = InvoiceStore._wallet_data (InvoiceStore.store w).
Proof.
  repeat split.
  - intros k. unfold InvoiceStore.add.
    destruct (PaymentRequest.get_id _); cbn; discriminate.
  - unfold InvoiceStore.add.
    destruct (PaymentRequest.get_id _); reflexivity.
  - unfold InvoiceStore.remove.
    destruct (dict_pop _ _) as [[? ?]|]; cbn; discriminate.
  - unfold InvoiceStore.remove.
    destruct (dict_pop _ _) as [[? ?]|]; reflexivity.
  - unfold InvoiceStore.set_paid.
    destruct (PaymentRequest.get_id _); reflexivity.
Qed.

(** On an empty store over an empty wallet mapping, adding an invoice whose
    requestor is known records it in [invoices], raises, and leaves the wallet
    mapping without an ['invoices'] entry. *)
Example invoice_store_add_example :
  let pr := PaymentRequest.mk "1f" (Some "alice") None [] 1700000000 None None None None in
  let w := InvoiceStore.mkWorld [pr] (InvoiceStore.mk [] [] []) in
  InvoiceStore.add (H := sample_library) 0 w
  = (Err (AttributeError "wallet_data"),
     InvoiceStore.mkWorld [pr] (InvoiceStore.mk [] [("1f", 0%nat)] [])).
Proof. reflexivity. Qed.

(** [set_paid] after that returns normally; the wallet mapping is still
    empty although the stored invoice now carries the transaction id. *)
Example invoice_store_set_paid_example :
  let pr := PaymentRequest.mk "1f" (Some "alice") None [] 1700000000 None None None None in
  let pr' := PaymentRequest.mk "1f" (Some "alice") (Some "ab") [] 1700000000 None None None None in
  let w := InvoiceStore.mkWorld [pr] (InvoiceStore.mk [] [("1f", 0%nat)] []) in
  InvoiceStore.set_paid (H := sample_library) 0 "ab" w
  = (Ok tt, InvoiceStore.mkWorld [pr'] (InvoiceStore.mk [] [("1f", 0%nat)] [("ab", "1f")])).
Proof. reflexivity. Qed.

From Stdlib Require Import ZArith Lia.
From Stdlib Require Import Strings.Byte Strings.Ascii Strings.String.
From stdpp Require Import base option list gmap strings pretty.

Open Scope Z_scope.

(** * transaction.py: completeness *)

Section completeness.
Context `{Bitcoinx}.

Lemma signature_count_loop_from (ins : list XTxInput) (s r : Z) :
  fold_left
    (fun '(s, r) txin =>
       (s + Z.of_nat (length (txin_signatures_present txin)), r + threshold txin))
    ins (s, r)
  = (s + total_present ins, r + total_threshold ins).
Proof.
  revert s r. induction ins as [|txin ins IH]; intros s r.
  - unfold total_present. cbn. f_equal; lia.
  - cbn [fold_left]. rewrite IH. unfold total_present. cbn [flat_map total_threshold].
    rewrite length_app. f_equal; lia.
Qed.

Lemma signature_count_loop_spec (ins : list XTxInput) :
  signature_count_loop ins = (total_present ins, total_threshold ins).
Proof.
  unfold signature_count_loop. now rewrite signature_count_loop_from.
Qed.

Lemma inputs_parsed (tx : Transaction) (ins : list XTxInput) :
  _inputs tx = Some ins -> inputs tx = (Ok (Some ins), tx).
Proof. intros E. unfold inputs. now rewrite E. Qed.

Lemma signature_count_parsed (tx : Transaction) (ins : list XTxInput) :
  _inputs tx = Some ins ->
  signature_count tx = (Ok (total_present ins, total_threshold ins), tx).
Proof.
  intros E. unfold signature_count.
  rewrite (stx_bind_ok _ _ _ _ _ (inputs_parsed _ _ E)). monad_unfold.
  cbn [iterable]. now rewrite signature_count_loop_spec.
Qed.

Lemma is_complete_parsed (tx : Transaction) (ins : list XTxInput) :
  _inputs tx = Some ins ->
  is_complete tx = (Ok (total_threshold ins =? total_present ins), tx).
Proof.
  intros E. unfold is_complete.
  rewrite (stx_bind_ok _ _ _ _ _ (signature_count_parsed _ _ E)). reflexivity.
Qed.

(** The first access to the inputs of a transaction that holds none. *)
Lemma inputs_unparsed (tx : Transaction) (r : string) :
  _inputs tx = None -> raw tx = Some r ->
  inputs tx = match deserialize r with
              | Ok d => (Ok (Some (d_inputs d)), parsed_from r d)
              | Err e => (Err e, tx)
              end.
Proof.
  intros E Er. unfold inputs. rewrite E, stx_bind_unfold.
  unfold Transaction_deserialize. rewrite E, Er.
  destruct (deserialize r); reflexivity.
Qed.

Lemma inputs_no_raw (tx : Transaction) :
  _inputs tx = None -> raw tx = None -> inputs tx = (Ok None, tx).
Proof.
  intros E Er. unfold inputs. rewrite E, stx_bind_unfold.
  unfold Transaction_deserialize. rewrite Er. monad_unfold. now rewrite E.
Qed.

(** [has_inputs] is what the accessor [inputs()] returns. *)
Lemma has_inputs_spec (tx tx' : Transaction) (ins : list XTxInput) :
  has_inputs tx ins tx' <-> inputs tx = (Ok (Some ins), tx').
Proof.
  split.
  - intros [ins0 E|r d E Er Hd]; [now apply inputs_parsed|].
    now rewrite (inputs_unparsed _ _ E Er), Hd.
  - destruct (_inputs tx) as [ins0|] eqn:E.
    + rewrite (inputs_parsed _ _ E). intros [= <- <-]. now constructor.
    + destruct (raw tx) as [r|] eqn:Er.
      * rewrite (inputs_unparsed _ _ E Er).
        destruct (deserialize r) as [d|e] eqn:Hd; [|discriminate].
        intros [= <- <-]. now apply inputs_from_raw.
      * rewrite (inputs_no_raw _ E Er). discriminate.
Qed.

Lemma has_inputs_held (tx tx' : Transaction) (ins : list XTxInput) :
  has_inputs tx ins tx' -> _inputs tx' = Some ins.
Proof. intros [ins0 E|r d _ _ _]; [assumption|reflexivity]. Qed.

Lemma signature_count_has_inputs (tx tx' : Transaction) (ins : list XTxInput) :
  has_inputs tx ins tx' ->
  signature_count tx = (Ok (total_present ins, total_threshold ins), tx').
Proof.
  intros Hin. apply has_inputs_spec in Hin. unfold signature_count.
  rewrite (stx_bind_ok _ _ _ _ _ Hin). monad_unfold.
  cbn [iterable]. now rewrite signature_count_loop_spec.
Qed.

Lemma is_complete_has_inputs (tx tx' : Transaction) (ins : list XTxInput) :
  has_inputs tx ins tx' ->
  is_complete tx = (Ok (total_threshold ins =? total_present ins), tx').
Proof.
  intros Hin. unfold is_complete.
  rewrite (stx_bind_ok _ _ _ _ _ (signature_count_has_inputs _ _ _ Hin)). reflexivity.
Qed.

(** Without inputs to read, [is_complete()] raises and changes nothing. *)
Lemma is_complete_raises (tx : Transaction) :
  _inputs tx = None ->
  match raw tx with
  | Some r => forall e, deserialize r = Err e ->
                signature_count tx = (Err e, tx) /\ is_complete tx = (Err e, tx)
  | None => signature_count tx = (Err TypeError, tx)
            /\ is_complete tx = (Err TypeError, tx)
  end.
Proof.
  intros E. destruct (raw tx) as [r|] eqn:Er.
  - intros e Hd.
    assert (Hs : signature_count tx = (Err e, tx)).
    { unfold signature_count.
      apply stx_bind_err. now rewrite (inputs_unparsed _ _ E Er), Hd. }
    split; [exact Hs|]. unfold is_complete. now apply stx_bind_err.
  - assert (Hs : signature_count tx = (Err TypeError, tx)).
    { unfold signature_count.
      rewrite (stx_bind_ok _ _ _ _ _ (inputs_no_raw _ E Er)). reflexivity. }
    split; [exact Hs|]. unfold is_complete. now apply stx_bind_err.
Qed.

(** What [is_complete()] returns, and the state it leaves, in terms of the
    fields of the transaction. *)
Lemma is_complete_inv (tx tx' : Transaction) (b : bool) :
  is_complete tx = (Ok b, tx') ->
  exists ins, has_inputs tx ins tx' /\ b = (total_threshold ins =? total_present ins).
Proof.
  intros Hc. destruct (_inputs tx) as [ins|] eqn:E.
  - exists ins. rewrite (is_complete_parsed _ _ E) in Hc. injection Hc as <- <-.
    split; [now constructor|reflexivity].
  - pose proof (is_complete_raises tx E) as Hr.
    destruct (raw tx) as [r|] eqn:Er.
    + destruct (deserialize r) as [d|e] eqn:Hd.
      * assert (Hin : has_inputs tx (d_inputs d) (parsed_from r d))
          by now apply inputs_from_raw.
        rewrite (is_complete_has_inputs _ _ _ Hin) in Hc. injection Hc as <- <-.
        now exists (d_inputs d).
      * destruct (Hr e eq_refl) as [_ Hc']. congruence.
    + destruct Hr as [_ Hc']. congruence.
Qed.


End completeness.



(** * transaction.py: [update_signatures] on a complete transaction or a
    list of the wrong length *)

Section update_signatures_guards.
Context `{Bitcoinx}.

(** C10 (amended). When [is_complete()] is true, [update_signatures] returns
    at once, whatever the length of the list; when it is false and the list
    is not as long as the inputs, it raises [RuntimeError]. Either way the
    state it leaves is the one [is_complete()] leaves and no signature list
    has been touched: the state before the call if the transaction held its
    inputs; on a transaction that held none, the state of the parse of the
    raw text, which sets the inputs, the outputs, the locktime and the
    version. *)
Theorem update_signatures_guards (tx tx' : Transaction) (b : bool) (sigs : list bytes) :
  is_complete tx = (Ok b, tx') ->
  (b = true -> update_signatures sigs tx = (Ok tt, tx'))
  /\ (exists ins,
        has_inputs tx ins tx' /\ _inputs tx' = Some ins
        /\ (b = false -> length ins <> length sigs ->
            update_signatures sigs tx
            = (Err (RuntimeError (expected_got (length ins) (length sigs))), tx')))
  /\ (forall ins, _inputs tx = Some ins -> tx' = tx)
  /\ (_inputs tx = None ->
      exists r d, raw tx = Some r /\ deserialize r = Ok d /\ tx' = parsed_from r d).
Proof.
  intros Hc. destruct (is_complete_inv _ _ _ Hc) as (ins & Hin & Hb).
  split; [|split; [|split]].
  - intros ->. unfold update_signatures.
    now rewrite (stx_bind_ok _ _ _ _ _ Hc).
  - exists ins. split; [exact Hin|]. split; [exact (has_inputs_held _ _ _ Hin)|].
    intros -> Hlen. unfold update_signatures.
    rewrite (stx_bind_ok _ _ _ _ _ Hc).
    rewrite (stx_bind_ok _ _ _ _ _ (inputs_parsed _ _ (has_inputs_held _ _ _ Hin))).
    monad_unfold. cbn [iterable].
    rewrite bool_decide_eq_false_2 by assumption. reflexivity.
  - intros ins0 Hins. rewrite (is_complete_parsed _ _ Hins) in Hc. congruence.
  - intros E. destruct Hin as [ins0 E0|r d _ Er Hd]; [congruence|].
    exists r, d. auto.
Qed.

End update_signatures_guards.

(** C10 (as stated, refuted). A complete transaction fresh from the
    constructor, whose raw text has version 2 and locktime 5: the call
    returns at once, and the transaction, which held no inputs, no outputs,
    version 1 and locktime 0, now holds the parsed inputs and outputs,
    version 2 and locktime 5. *)
Lemma update_signatures_changes_unparsed_state :
  let key := x02 :: replicate 32 x11 in
  let sig := replicate 71 x30 ++ [x41] in
  let raw_tx :=
    hex (le_bytes 4 2 ++ [x01] ++ replicate 32 xaa ++ le_bytes 4 1
           ++ [x6b] ++ ([x48] ++ sig) ++ ([x21] ++ key) ++ le_bytes 4 4294967295
           ++ [x01] ++ le_bytes 8 4000 ++ [x01; x6a] ++ le_bytes 4 5) in
  exists tx tx',
    Transaction_init (Some raw_tx) = Ok tx
    /\ fst (is_complete (H := sample_bitcoinx) tx) = Ok true
    /\ update_signatures [[x01]; [x02]; [x03]] tx = (Ok tt, tx')
    /\ (_inputs tx, _outputs tx, version tx, locktime tx) = (None, None, 1, 0)
    /\ is_Some (_inputs tx') /\ _outputs tx' = Some [mkTxOutput 4000 [x6a]]
    /\ version tx' = 2 /\ locktime tx' = 5
    /\ tx' <> tx.
Proof.
  intros key sig raw_tx. eexists _, _.
  split; [vm_compute; reflexivity|].
  split; [vm_compute; reflexivity|].
  split; [vm_compute; reflexivity|].
  split; [reflexivity|]. split; [eexists; reflexivity|].
  split; [reflexivity|]. split; [reflexivity|]. split; [reflexivity|].
  discriminate.
Qed.

(** The guards at a complete one-input transaction given three signatures,
    and at an incomplete one given none, both left as they were; and at a
    transaction fresh from the constructor given none, left as its parse. *)
Lemma update_signatures_guards_witness :
  let key := x02 :: replicate 32 x11 in
  let signed :=
    mkXTxInput (H := sample_bitcoinx) (replicate 32 xaa) 0 [] 4294967295 5000 [key]
      (AddressOf (P2PKH_Address (replicate 20 x07))) 1
      [replicate 71 x30 ++ [x41]] in
  let tx := mkTransaction None (Some [signed]) (Some [mkTxOutput 4000 [x6a]]) 0 1 in
  let tx0 := mkTransaction None (Some [set_signatures signed [NO_SIGNATURE]])
               (Some [mkTxOutput 4000 [x6a]]) 0 1 in
  let raw_tx :=
    hex (le_bytes 4 2 ++ [x01] ++ replicate 32 xaa ++ le_bytes 4 1
           ++ [x24] ++ [x01; xff] ++ ([x21] ++ key) ++ le_bytes 4 4294967295
           ++ le_bytes 8 5000
           ++ [x01] ++ le_bytes 8 4000 ++ [x01; x6a] ++ le_bytes 4 5) in
  let fresh := mkTransaction (Some raw_tx) None None 0 1 in
  update_signatures [[x01]; [x02]; [x03]] tx = (Ok tt, tx)
  /\ update_signatures [] tx0 = (Err (RuntimeError "expected 1 signatures; got 0"), tx0)
  /\ exists d, deserialize (H := sample_bitcoinx) raw_tx = Ok d
       /\ update_signatures [] fresh
          = (Err (RuntimeError "expected 1 signatures; got 0"), parsed_from raw_tx d).
Proof.
  intros key signed tx tx0 raw_tx fresh. split; [|split].
  - exact (proj1 (update_signatures_guards tx tx true [[x01]; [x02]; [x03]] eq_refl) eq_refl).
  - destruct (update_signatures_guards tx0 tx0 false [] eq_refl)
      as (_ & (ins & _ & Hins & Hraise) & _).
    injection Hins as <-. apply Hraise; [reflexivity|discriminate].
  - set (txin := mkXTxInput (H := sample_bitcoinx) (replicate 32 xaa) 1
                   ([x01; xff] ++ [x21] ++ key) 4294967295 5000 [key]
                   (AddressOf (P2PKH_Address (hash160 (Bitcoinx := sample_bitcoinx) key))) 1
                   [NO_SIGNATURE]).
    set (d := mkTxDict 2 [txin] [mkTxOutput 4000 [x6a]] 5).
    assert (Hd : deserialize raw_tx = Ok d) by (vm_compute; reflexivity).
    exists d. split; [exact Hd|].
    assert (Hc : is_complete fresh = (Ok false, parsed_from raw_tx d)).
    { exact (is_complete_has_inputs fresh _ _
               (inputs_from_raw fresh raw_tx d eq_refl eq_refl Hd)). }
    destruct (update_signatures_guards fresh _ false [] Hc)
      as (_ & (ins & _ & Hins & Hraise) & _).
    injection Hins as <-. apply Hraise; [reflexivity|discriminate].
Defined.

(** * transaction.py: truncated and malformed buffers *)

Section malformed.
Context `{Bitcoinx}.

(** C4 (the code departs from it). [read_bytes] slices, and a slice past the
    end is short instead of raising, so its [except IndexError] never runs:
    asked for 32 bytes of a 2-byte buffer it returns the 2 bytes. A buffer
    that ends after its one input therefore makes the reader of the outputs
    raise [struct.error], not [SerializationError]; a buffer with no input
    fails the assertion; a script that is a lone OP_0 raises [IndexError]. *)
Theorem deserialize_malformed_examples :
  read_bytes 32 (mkStream (Some [x01; x02]) 0)
    = (Ok [x01; x02], mkStream (Some [x01; x02]) 32)
  /\ deserialize ("01000000" +:+ "01" +:+ hex (replicate 32 x00) +:+ "ffffffff"
                    +:+ "00" +:+ "ffffffff")
     = Err StructError
  /\ deserialize ("01000000" +:+ "00" +:+ "00000000") = Err AssertionError
  /\ deserialize ("01000000" +:+ "01" +:+ hex (replicate 32 x11) +:+ "00000000"
                    +:+ "0100" +:+ "ffffffff" +:+ "00" +:+ "00000000")
     = Err IndexError
  /\ deserialize ("01000000" +:+ "01" +:+ hex (replicate 31 x11))
     = Err (SerializationError msg_struct_error).
Proof. repeat split; reflexivity. Qed.

End malformed.

From Stdlib Require Import ZArith Lia.
From Stdlib Require Import Strings.Byte Strings.Ascii Strings.String.
From stdpp Require Import base option list gmap strings pretty.

Open Scope Z_scope.

(** * transaction.py: [update_signatures] *)

Section update_signatures.
Context `{Bitcoinx}.

Lemma lift_bind {S A B} (r : result A) (k : A -> stx S B) (s : S) :
  (lift r ≫= k) s = match r with
                    | Ok a => k a s
                    | Err e => (Err e, s)
                    end.
Proof. destruct r; reflexivity. Qed.

Lemma outputs_parsed (tx : Transaction) (ins : list XTxInput) :
  _inputs tx = Some ins -> outputs tx = (Ok (_outputs tx), tx).
Proof.
  intros E. unfold outputs. destruct (_outputs tx) as [outs|] eqn:Eo; [reflexivity|].
  monad_unfold. unfold Transaction_deserialize. rewrite E.
  destruct (raw tx); cbn; now rewrite Eo.
Qed.











Lemma unsigned_set_signatures (txin : XTxInput) (sigs : list bytes) :
  unsigned (set_signatures txin sigs) = unsigned txin.
Proof. reflexivity. Qed.

Lemma set_signatures_id (txin : XTxInput) : set_signatures txin (signatures txin) = txin.
Proof. now destruct txin. Qed.







Lemma serialize_parsed (tx : Transaction) (ins : list XTxInput) :
  _inputs tx = Some ins ->
  serialize tx = (serialize_text (version tx) (locktime tx) ins (_outputs tx), tx).
Proof.
  intros E. unfold serialize, serialize_text.
  rewrite stx_bind_unfold. cbn [get_state].
  rewrite (stx_bind_ok _ _ _ _ _ (inputs_parsed _ _ E)).
  rewrite (stx_bind_ok _ _ _ _ _ (outputs_parsed _ _ E)).
  monad_unfold. cbn [iterable].
  destruct (result_mapM _ ins); [|reflexivity].
  destruct (_outputs tx) as [outs|]; [|reflexivity].
  cbn [iterable]. destruct (result_mapM TxOutput_to_bytes outs); reflexivity.
Qed.












End update_signatures.

(** * The stand-in library and the sample transactions *)






(** What the call does there: in each input the signature with 0x41
    replaces the sentinel at the slot of its key. *)
Example update_signatures_example :
  let fresh := mkTransaction (H := sample_bitcoinx) (Some raw_two_inputs) None None 0 1 in
  let sigs := [signature_of key_a x01; signature_of key_c x02] in
  option_map (map signatures) (_inputs (snd (update_signatures sigs fresh)))
  = Some [[full_signature (signature_of key_a x01)];
          [NO_SIGNATURE; full_signature (signature_of key_b x05);
           full_signature (signature_of key_c x02)]].
Proof. vm_compute. reflexivity. Qed.

From Stdlib Require Import ZArith Lia.
From Stdlib Require Import Strings.Byte Strings.Ascii Strings.String.
From stdpp Require Import base option list gmap strings pretty.

Open Scope Z_scope.

(** * Integers in bytes *)

Lemma length_le_bytes (n : nat) (v : Z) : length (le_bytes n v) = n.
Proof. revert v. induction n as [|n IH]; intros v; cbn; [reflexivity|]. now rewrite IH. Qed.

Lemma Z_of_byte_byte_of_Z (v : Z) : Z_of_byte (byte_of_Z v) = v mod 256.
Proof.
  assert (E : byte_of_Z v = byte_of_Z (v mod 256)).
  { unfold byte_of_Z. now rewrite Z.mod_mod by lia. }
  rewrite E. apply Z_of_byte_of_Z. apply Z.mod_pos_bound. lia.
Qed.

Lemma le_decode_le_bytes (n : nat) (v : Z) :
  le_decode (le_bytes n v) = v mod 256 ^ Z.of_nat n.
Proof.
  revert v. induction n as [|n IH]; intros v.
  - cbn. now rewrite Z.mod_1_r.
  - cbn [le_bytes le_decode]. rewrite IH, Z_of_byte_byte_of_Z.
    rewrite Nat2Z.inj_succ, Z.pow_succ_r by lia.
    rewrite Z.rem_mul_r; [reflexivity|lia|]. apply Z.pow_pos_nonneg; lia.
Qed.

Lemma le_decode_small (n : nat) (v : Z) :
  0 <= v < 256 ^ Z.of_nat n -> le_decode (le_bytes n v) = v.
Proof. intros Hv. rewrite le_decode_le_bytes. now apply Z.mod_small. Qed.

Lemma unpack_value_le_bytes (f : fmt) (v : Z) :
  fmt_range f v -> unpack_value f (le_bytes (calcsize f) v) = v.
Proof.
  intros Hv. unfold unpack_value. rewrite le_decode_le_bytes.
  destruct f; cbn [fmt_range calcsize fmt_signed andb] in *;
    try (now apply Z.mod_small);
    match goal with
    | |- context [v mod ?m] =>
        let m' := eval vm_compute in m in
        change m with m';
        pose proof (Z.mod_pos_bound v m' ltac:(lia));
        destruct (Z_lt_le_dec v 0);
        [ replace (v mod m') with (v + m')
            by (apply (Z.mod_unique _ _ (-1)); lia)
        | rewrite (Z.mod_small v m') by lia ]
    end;
    match goal with
    | |- context [?a <=? ?b] => destruct (Z.leb_spec a b)
    end; cbn in *; lia.
Qed.

Lemma struct_pack_ok (f : fmt) (v : Z) :
  fmt_range f v -> struct_pack f v = Ok (le_bytes (calcsize f) v).
Proof.
  intros Hv. unfold struct_pack.
  destruct f; cbn [fmt_range calcsize fmt_signed] in *;
    match goal with
    | |- (if ?c then _ else _) = _ => replace c with true; [reflexivity|]
    end; symmetry; apply andb_true_iff; split;
    first [apply Z.leb_le | apply Z.ltb_lt]; cbn; lia.
Qed.

Lemma struct_pack_inv (f : fmt) (v : Z) (b : bytes) :
  struct_pack f v = Ok b -> fmt_range f v /\ b = le_bytes (calcsize f) v.
Proof.
  unfold struct_pack.
  destruct f; cbn [fmt_range calcsize fmt_signed];
    match goal with
    | |- (if ?c then _ else _) = _ -> _ => destruct c eqn:Hc; [|discriminate]
    end; intros [= <-]; (split; [|reflexivity]);
    apply andb_true_iff in Hc as [Hlo Hhi];
    apply Z.leb_le in Hlo; apply Z.ltb_lt in Hhi; cbn in *; lia.
Qed.

(** * Hexadecimal text, continued *)

Lemma hex_app (a b : bytes) : hex (a ++ b) = hex a +:+ hex b.
Proof. induction a as [|x a IH]; [reflexivity|]. cbn. now rewrite IH. Qed.

Lemma length_hex (b : bytes) : String.length (hex b) = (2 * length b)%nat.
Proof. induction b as [|x b IH]; [reflexivity|]. cbn. rewrite IH. lia. Qed.

Lemma hex_length_half (b : bytes) :
  Z.of_nat (String.length (hex b)) / 2 = Z.of_nat (length b).
Proof.
  rewrite length_hex, Nat2Z.inj_mul. change (Z.of_nat 2) with 2.
  now rewrite Z.mul_comm, Z.div_mul by lia.
Qed.

Lemma string_app_cons (x : ascii) (a b : string) :
  String x a +:+ b = String x (a +:+ b).
Proof. reflexivity. Qed.

Lemma string_app_assoc (a b c : string) : (a +:+ b) +:+ c = a +:+ (b +:+ c).
Proof.
  induction a as [|x a IH]; [reflexivity|]. now rewrite !string_app_cons, IH.
Qed.

Lemma string_app_empty_r (a : string) : a +:+ EmptyString = a.
Proof. induction a as [|x a IH]; [reflexivity|]. now rewrite string_app_cons, IH. Qed.

Lemma hex_concat (l : list bytes) : hex (concat l) = string_concat (hex <$> l).
Proof. induction l as [|x l IH]; [reflexivity|]. cbn. now rewrite hex_app, IH. Qed.

(** * Readers on a well-formed buffer *)

Lemma stream_at_app (pre enc rest : bytes) :
  stream_at (pre ++ enc) rest
  = mkStream (Some (pre ++ enc ++ rest)) (Z.of_nat (length pre) + Z.of_nat (length enc)).
Proof.
  unfold stream_at. now rewrite <- app_assoc, length_app, Nat2Z.inj_add.
Qed.

Lemma reads_ret {A} (v : A) : reads (mret v) [] v.
Proof. intros pre rest. cbn. now rewrite app_nil_r. Qed.

Lemma reads_lift {A} (v : A) : reads (lift (Ok v)) [] v.
Proof. intros pre rest. cbn. now rewrite app_nil_r. Qed.

Lemma reads_bind {A B} (m : stx BCDataStream A) (k : A -> stx BCDataStream B)
    (e1 e2 : bytes) (a : A) (b : B) :
  reads m e1 a -> reads (k a) e2 b -> reads (m ≫= k) (e1 ++ e2) b.
Proof.
  intros Hm Hk pre rest.
  rewrite <- app_assoc, (stx_bind_ok _ _ _ _ _ (Hm pre (e2 ++ rest))).
  rewrite (Hk (pre ++ e1) rest). now rewrite <- app_assoc.
Qed.

Lemma drop_stream_at (pre rest : bytes) :
  drop (Z.to_nat (Z.of_nat (length pre))) (pre ++ rest) = rest.
Proof. rewrite Nat2Z.id. apply drop_app_length. Qed.

Lemma reads_read_bytes (x : bytes) : reads (read_bytes (Z.of_nat (length x))) x x.
Proof.
  intros pre rest. unfold read_bytes. cbn [stream_at input read_cursor].
  rewrite drop_stream_at, Nat2Z.id, take_app_length.
  now rewrite stream_at_app.
Qed.

Lemma reads_read_num (f : fmt) (v : Z) :
  fmt_range f v -> reads (_read_num f) (le_bytes (calcsize f) v) v.
Proof.
  intros Hv pre rest. unfold _read_num. cbn [stream_at input read_cursor].
  rewrite drop_stream_at.
  rewrite !length_app, length_le_bytes.
  destruct (Z.leb_spec (Z.of_nat (length pre) + Z.of_nat (calcsize f))
              (Z.of_nat (length pre + (calcsize f + length rest)))); [|lia].
  rewrite <- (length_le_bytes (calcsize f) v) at 1.
  rewrite take_app_length, unpack_value_le_bytes by assumption.
  now rewrite stream_at_app, length_le_bytes.
Qed.

Lemma stream_at_lookup (pre rest : bytes) (b : byte) :
  (pre ++ b :: rest) !! Z.to_nat (Z.of_nat (length pre)) = Some b.
Proof. rewrite Nat2Z.id. now apply list_lookup_middle. Qed.

Lemma stream_at_step (pre rest : bytes) (b : byte) :
  mkStream (Some (pre ++ b :: rest)) (Z.of_nat (length pre) + 1)
  = stream_at (pre ++ [b]) rest.
Proof.
  unfold stream_at. rewrite <- app_assoc, length_app, Nat2Z.inj_add. reflexivity.
Qed.

Lemma reads_read_compact_size (v : Z) :
  0 <= v < 2 ^ 64 -> reads read_compact_size (compact_size v) v.
Proof.
  intros Hv pre rest. unfold read_compact_size, compact_size.
  destruct (Z.ltb_spec v 253) as [H253|H253];
    [|destruct (Z.ltb_spec v (2 ^ 16)) as [H16|H16];
      [|destruct (Z.ltb_spec v (2 ^ 32)) as [H32|H32]]];
    cbn [le_bytes app stream_at input read_cursor];
    rewrite stream_at_lookup;
    rewrite ?Z_of_byte_of_Z by lia.
  - repeat match goal with |- context [?a =? ?b] => destruct (Z.eqb_spec a b); [lia|] end.
    now rewrite stream_at_step.
  - change (Z_of_byte xfd) with 253. cbn [Z.eqb Pos.eqb].
    rewrite stream_at_step.
    change (byte_of_Z v :: byte_of_Z (v / 256) :: rest) with (le_bytes 2 v ++ rest).
    rewrite (reads_read_num fmt_H v ltac:(cbn; lia)).
    now rewrite <- app_assoc.
  - change (Z_of_byte xfe) with 254. cbn [Z.eqb Pos.eqb].
    rewrite stream_at_step.
    match goal with
    | |- context [?a :: ?b :: ?c :: ?d :: rest] =>
        change (a :: b :: c :: d :: rest) with (le_bytes 4 v ++ rest)
    end.
    rewrite (reads_read_num fmt_I v ltac:(cbn; lia)).
    now rewrite <- app_assoc.
  - change (Z_of_byte xff) with 255. cbn [Z.eqb Pos.eqb].
    rewrite stream_at_step.
    match goal with
    | |- context [?a :: ?b :: ?c :: ?d :: ?e :: ?f :: ?g :: ?h :: rest] =>
        change (a :: b :: c :: d :: e :: f :: g :: h :: rest) with (le_bytes 8 v ++ rest)
    end.
    rewrite (reads_read_num fmt_Q v ltac:(cbn; lia)).
    now rewrite <- app_assoc.
Qed.

Lemma reads_repeat {A} (m : stx BCDataStream A) (encs : list bytes) (vs : list A) :
  Forall2 (reads m) encs vs ->
  reads (stx_repeat (length vs) m) (concat encs) vs.
Proof.
  induction 1 as [|e v encs vs Hev _ IH]; [apply reads_ret|].
  cbn [length stx_repeat concat].
  apply (reads_bind _ _ e (concat encs) v); [exact Hev|].
  rewrite <- (app_nil_r (concat encs)).
  apply (reads_bind _ _ (concat encs) [] vs); [exact IH|]. apply reads_ret.
Qed.

(** ** bitcoinx readers *)

Lemma reads_bx_read_num (f : fmt) (v : Z) :
  fmt_range f v -> reads (bx_read_num f) (le_bytes (calcsize f) v) v.
Proof.
  intros Hv. unfold bx_read_num.
  rewrite <- (app_nil_r (le_bytes _ _)).
  eapply reads_bind.
  - rewrite <- (length_le_bytes (calcsize f) v) at 1. apply reads_read_bytes.
  - cbn beta. rewrite bool_decide_eq_true_2 by apply length_le_bytes.
    rewrite unpack_value_le_bytes by assumption. apply reads_ret.
Qed.

Lemma reads_bx_read_varint (v : Z) :
  0 <= v < 2 ^ 64 -> reads bx_read_varint (compact_size v) v.
Proof.
  intros Hv. unfold bx_read_varint, compact_size.
  destruct (Z.ltb_spec v 253) as [H253|H253];
    [|destruct (Z.ltb_spec v (2 ^ 16)) as [H16|H16];
      [|destruct (Z.ltb_spec v (2 ^ 32)) as [H32|H32]]].
  - change (le_bytes 1 v) with ([byte_of_Z v] ++ []).
    eapply reads_bind; [apply (reads_read_bytes [byte_of_Z v])|].
    cbn beta iota. rewrite Z_of_byte_of_Z by lia.
    destruct (Z.ltb_spec v 253); [|lia]. apply reads_ret.
  - change (xfd :: le_bytes 2 v) with ([xfd] ++ le_bytes 2 v).
    eapply reads_bind; [apply (reads_read_bytes [xfd])|].
    cbn beta iota. change (Z_of_byte xfd) with 253. cbn [Z.ltb Z.eqb Z.compare Pos.compare Pos.compare_cont Pos.eqb].
    apply (reads_bx_read_num fmt_H). cbn. lia.
  - change (xfe :: le_bytes 4 v) with ([xfe] ++ le_bytes 4 v).
    eapply reads_bind; [apply (reads_read_bytes [xfe])|].
    cbn beta iota. change (Z_of_byte xfe) with 254. cbn [Z.ltb Z.eqb Z.compare Pos.compare Pos.compare_cont Pos.eqb].
    apply (reads_bx_read_num fmt_I). cbn. lia.
  - change (xff :: le_bytes 8 v) with ([xff] ++ le_bytes 8 v).
    eapply reads_bind; [apply (reads_read_bytes [xff])|].
    cbn beta iota. change (Z_of_byte xff) with 255. cbn [Z.ltb Z.eqb Z.compare Pos.compare Pos.compare_cont Pos.eqb].
    apply (reads_bx_read_num fmt_Q). cbn. lia.
Qed.

Lemma reads_bx_read_varbytes (x : bytes) :
  Z.of_nat (length x) < 2 ^ 64 ->
  reads bx_read_varbytes (compact_size (Z.of_nat (length x)) ++ x) x.
Proof.
  intros Hx. unfold bx_read_varbytes.
  eapply reads_bind; [apply reads_bx_read_varint; lia|].
  rewrite <- (app_nil_r x) at 2.
  eapply reads_bind; [apply reads_read_bytes|].
  cbn beta. rewrite bool_decide_eq_true_2 by reflexivity. apply reads_ret.
Qed.

Lemma reads_TxOutput_read (o : TxOutput) (b : bytes) :
  Z.of_nat (length (script_pubkey o)) < 2 ^ 64 ->
  TxOutput_to_bytes o = Ok b -> reads TxOutput_read b o.
Proof.
  intros Hlen. unfold TxOutput_to_bytes. rewrite result_bind_unfold.
  destruct (struct_pack fmt_q (value o)) as [v|] eqn:Hpack; [|discriminate].
  apply struct_pack_inv in Hpack as [Hv ->]. intros Hb.
  assert (b = le_bytes (calcsize fmt_q) (value o)
                ++ compact_size (Z.of_nat (length (script_pubkey o))) ++ script_pubkey o)
    as -> by (now injection Hb).
  clear Hb. unfold TxOutput_read.
  eapply reads_bind; [now apply (reads_bx_read_num fmt_q)|].
  rewrite <- (app_nil_r (_ ++ script_pubkey o)).
  eapply reads_bind; [apply reads_bx_read_varbytes; lia|].
  destruct o. apply reads_ret.
Qed.

Lemma reads_bx_read_list {A} (read_one : stx BCDataStream A) (encs : list bytes)
    (vs : list A) :
  Z.of_nat (length vs) < 2 ^ 64 ->
  Forall2 (reads read_one) encs vs ->
  reads (bx_read_list read_one) (compact_size (Z.of_nat (length vs)) ++ concat encs) vs.
Proof.
  intros Hn Hall. unfold bx_read_list.
  eapply reads_bind; [apply reads_bx_read_varint; lia|].
  cbn beta. rewrite Nat2Z.id. now apply reads_repeat.
Qed.

(** * Script decoding *)

Lemma slice_middle {A} (pre mid rest l : list A) (i j : nat) :
  l = pre ++ mid ++ rest ->
  i = length pre -> j = (length pre + length mid)%nat ->
  take (j - i) (drop i l) = mid.
Proof.
  intros -> -> ->. rewrite drop_app_length.
  replace (length pre + length mid - length pre)%nat with (length mid) by lia.
  apply take_app_length.
Qed.

Ltac slice_is pre' mid' rest' :=
  match goal with
  | |- context [slice ?l ?i ?j] =>
      replace (slice l i j) with mid'
        by (symmetry; unfold slice; apply (slice_middle pre' mid' rest');
            [now rewrite <- ?app_assoc
            | rewrite ?length_app; cbn [length]; rewrite ?length_le_bytes; lia ..])
  end.

Lemma script_op_at_token (t : token) (pre rest : bytes) :
  token_ok t ->
  script_op_at (pre ++ token_bytes t ++ rest) (length pre)
  = Some (token_code t, token_data t, (length pre + length (token_bytes t))%nat).
Proof.
  destruct t as [hd data op|b]; cbn [token_ok token_bytes token_code token_data].
  - intros Hhd. unfold script_op_at.
    inversion Hhd as [n Hn E1 E2 E3|n Hn E1 E2 E3|n Hn E1 E2 E3|n Hn E1 E2 E3];
      subst hd op n; rewrite <- ?app_assoc; cbn [app];
      rewrite list_lookup_middle by reflexivity.
    + rewrite Z_of_byte_of_Z by lia.
      unfold OP_PUSHDATA4, OP_PUSHDATA2, OP_PUSHDATA1.
      destruct (Z.leb_spec (Z.of_nat (length data)) 78); [|lia].
      repeat match goal with |- context [?a =? ?b] => destruct (Z.eqb_spec a b); [lia|] end.
      rewrite Nat2Z.id.
      slice_is (pre ++ [byte_of_Z (Z.of_nat (length data))]) data rest.
      do 2 f_equal. cbn [length]. rewrite ?length_app, ?length_le_bytes. cbn [length]. lia.
    + change (Z_of_byte x4c) with 76.
      unfold OP_PUSHDATA4, OP_PUSHDATA2, OP_PUSHDATA1.
      cbn [Z.leb Z.eqb Z.compare Pos.compare Pos.compare_cont Pos.eqb].
      replace ((pre ++ x4c :: byte_of_Z (Z.of_nat (length data)) :: data ++ rest)
                 !! (length pre + 1)%nat)
        with (Some (byte_of_Z (Z.of_nat (length data)))).
      2:{ symmetry.
          change (pre ++ x4c :: byte_of_Z (Z.of_nat (length data)) :: data ++ rest)
            with (pre ++ [x4c] ++ byte_of_Z (Z.of_nat (length data)) :: data ++ rest).
          rewrite app_assoc. apply list_lookup_middle. rewrite length_app. cbn. lia. }
      rewrite Z_of_byte_of_Z by lia. rewrite Nat2Z.id.
      slice_is (pre ++ [x4c; byte_of_Z (Z.of_nat (length data))]) data rest.
      do 2 f_equal. cbn [length]. rewrite ?length_app, ?length_le_bytes. cbn [length]. lia.
    + change (Z_of_byte x4d) with 77.
      unfold OP_PUSHDATA4, OP_PUSHDATA2, OP_PUSHDATA1.
      cbn [Z.leb Z.eqb Z.compare Pos.compare Pos.compare_cont Pos.eqb].
      rewrite bool_decide_eq_true_2
        by (rewrite length_app; cbn [length]; rewrite length_app, length_le_bytes; lia).
      slice_is (pre ++ [x4d]) (le_bytes 2 (Z.of_nat (length data))) (data ++ rest).
      rewrite le_decode_small by (change (256 ^ Z.of_nat 2) with 65536; lia).
      rewrite Nat2Z.id.
      slice_is (pre ++ x4d :: le_bytes 2 (Z.of_nat (length data))) data rest.
      do 2 f_equal. cbn [length]. rewrite ?length_app, ?length_le_bytes. cbn [length]. lia.
    + change (Z_of_byte x4e) with 78.
      unfold OP_PUSHDATA4, OP_PUSHDATA2, OP_PUSHDATA1.
      cbn [Z.leb Z.eqb Z.compare Pos.compare Pos.compare_cont Pos.eqb].
      rewrite bool_decide_eq_true_2
        by (rewrite length_app; cbn [length]; rewrite length_app, length_le_bytes; lia).
      slice_is (pre ++ [x4e]) (le_bytes 4 (Z.of_nat (length data))) (data ++ rest).
      rewrite le_decode_small by (change (256 ^ Z.of_nat 4) with (2 ^ 32); lia).
      rewrite Nat2Z.id.
      slice_is (pre ++ x4e :: le_bytes 4 (Z.of_nat (length data))) data rest.
      do 2 f_equal. cbn [length]. rewrite ?length_app, ?length_le_bytes. cbn [length]. lia.
  - intros Hb. unfold script_op_at. cbn [app].
    rewrite list_lookup_middle by reflexivity.
    destruct (Z.leb_spec (Z_of_byte b) OP_PUSHDATA4); [lia|]. reflexivity.
Qed.

Lemma script_op_at_advance (bs : bytes) (i : nat) (d : decoded_op) :
  script_op_at bs i = Some d -> (i < d.2)%nat /\ (i < length bs)%nat.
Proof.
  unfold script_op_at. destruct (bs !! i) as [b|] eqn:Eb; [|discriminate].
  apply lookup_lt_Some in Eb.
  destruct (Z_of_byte b <=? OP_PUSHDATA4).
  - destruct (Z_of_byte b =? OP_PUSHDATA1);
      [|destruct (Z_of_byte b =? OP_PUSHDATA2); [|destruct (Z_of_byte b =? OP_PUSHDATA4)]];
      intros [= <-]; cbn; lia.
  - intros [= <-]. cbn. lia.
Qed.

Lemma script_op_at_end (bs : bytes) (i : nat) :
  (length bs <= i)%nat -> script_op_at bs i = None.
Proof. intros Hi. unfold script_op_at. now rewrite lookup_ge_None_2. Qed.

(** More turns than the bytes left change nothing. *)
Lemma script_GetOp_from_fuel (bs : bytes) :
  forall (f f' i : nat),
    (length bs - i <= f)%nat -> (length bs - i <= f')%nat ->
    script_GetOp_from f bs i = script_GetOp_from f' bs i.
Proof.
  induction f as [|f IH]; intros f' i Hf Hf'.
  - destruct f' as [|f']; [reflexivity|]. cbn.
    now rewrite script_op_at_end by lia.
  - destruct f' as [|f'].
    + cbn. now rewrite script_op_at_end by lia.
    + cbn. destruct (script_op_at bs i) as [d|] eqn:Ed; [|reflexivity].
      apply script_op_at_advance in Ed as [Hadv _].
      f_equal. apply IH; lia.
Qed.

Lemma script_ops_cons (bs : bytes) (i : nat) (d : decoded_op) :
  script_op_at bs i = Some d -> script_ops bs i = d :: script_ops bs d.2.
Proof.
  intros Ed. pose proof (script_op_at_advance _ _ _ Ed) as [Hadv Hlt].
  unfold script_ops.
  destruct (length bs - i)%nat as [|f] eqn:Ef; [lia|].
  cbn. rewrite Ed. f_equal. apply script_GetOp_from_fuel; lia.
Qed.

Lemma script_ops_end (bs : bytes) (i : nat) :
  (length bs <= i)%nat -> script_ops bs i = [].
Proof.
  intros Hi. unfold script_ops. now replace (length bs - i)%nat with 0%nat by lia.
Qed.

Lemma script_GetOp_ops (bs : bytes) : _script_GetOp bs = script_ops bs 0.
Proof. unfold _script_GetOp, script_ops. now rewrite Nat.sub_0_r. Qed.

Lemma script_ops_tokens (ts : list token) :
  Forall token_ok ts ->
  forall pre rest : bytes,
    script_ops (pre ++ concat (token_bytes <$> ts) ++ rest) (length pre)
    = decoded_tokens (length pre) ts
      ++ script_ops (pre ++ concat (token_bytes <$> ts) ++ rest)
           (length pre + length (concat (token_bytes <$> ts))).
Proof.
  induction 1 as [|t ts Ht _ IH]; intros pre rest.
  - cbn. now rewrite Nat.add_0_r.
  - cbn [fmap list_fmap concat decoded_tokens].
    rewrite <- (app_assoc (token_bytes t)).
    rewrite (script_ops_cons _ _ _
               (script_op_at_token t pre (concat (token_bytes <$> ts) ++ rest) Ht)).
    cbn [snd app]. f_equal.
    specialize (IH (pre ++ token_bytes t) rest).
    rewrite <- app_assoc, length_app in IH. rewrite IH.
    f_equal. f_equal. rewrite length_app. lia.
Qed.

Lemma script_GetOp_tokens (ts : list token) :
  Forall token_ok ts ->
  _script_GetOp (concat (token_bytes <$> ts)) = decoded_tokens 0 ts.
Proof.
  intros Hts. rewrite script_GetOp_ops.
  pose proof (script_ops_tokens ts Hts [] []) as E.
  cbn [app length] in E. rewrite app_nil_r in E. rewrite E.
  rewrite script_ops_end by (cbn; lia). apply app_nil_r.
Qed.

Lemma decoded_tokens_codes (start : nat) (ts : list token) :
  op_code <$> decoded_tokens start ts = token_code <$> ts.
Proof.
  revert start. induction ts as [|t ts IH]; intros start; [reflexivity|].
  cbn. f_equal. apply IH.
Qed.

Lemma decoded_tokens_data (start : nat) (ts : list token) :
  op_data <$> decoded_tokens start ts = token_data <$> ts.
Proof.
  revert start. induction ts as [|t ts IH]; intros start; [reflexivity|].
  cbn. f_equal. apply IH.
Qed.

Lemma length_decoded_tokens (start : nat) (ts : list token) :
  length (decoded_tokens start ts) = length ts.
Proof.
  rewrite <- (length_fmap op_code), decoded_tokens_codes. apply length_fmap.
Qed.

(** ** Matching decoded operations *)

Lemma match_decoded_from_true (decoded : list decoded_op) (to_match : list Z) :
  Forall2 (fun d m => accepts m (op_code d)) decoded to_match ->
  match_decoded_from decoded to_match = true.
Proof.
  induction 1 as [|d m decoded to_match Hdm _ IH]; [reflexivity|].
  cbn [match_decoded_from]. rewrite IH.
  destruct Hdm as [(-> & Hlo & Hhi)| ->].
  - rewrite Z.eqb_refl.
    destruct (Z.leb_spec (op_code d) OP_PUSHDATA4); [|lia].
    destruct (Z.ltb_spec 0 (op_code d)); [reflexivity|lia].
  - rewrite Z.eqb_refl. cbn. now destruct (_ && _ && _).
Qed.

Lemma match_decoded_true (decoded : list decoded_op) (to_match : list Z) :
  Forall2 (fun d m => accepts m (op_code d)) decoded to_match ->
  _match_decoded decoded to_match = true.
Proof.
  intros Hall. unfold _match_decoded.
  rewrite bool_decide_eq_true_2 by (eapply Forall2_length; eassumption).
  now apply match_decoded_from_true.
Qed.

Lemma match_decoded_length (decoded : list decoded_op) (to_match : list Z) :
  length decoded <> length to_match -> _match_decoded decoded to_match = false.
Proof.
  intros Hne. unfold _match_decoded. now rewrite bool_decide_eq_false_2.
Qed.

(** ** Push encodings *)

Lemma push_item_token (x : bytes) :
  pushable x -> Z.of_nat (length x) < 2 ^ 32 ->
  exists hd op, push_item x = hd ++ x /\ push_header hd (length x) op
                /\ 0 < op <= OP_PUSHDATA4.
Proof.
  intros [->|Hlen] Hmax.
  - exists [x01], 1. split; [reflexivity|]. split; [apply (push_direct 1)|]; vm_compute; intuition congruence.
  - destruct x as [|a [|b x]]; cbn [length] in Hlen; try lia.
    unfold push_item. set (item := a :: b :: x) in *.
    unfold OP_PUSHDATA1, OP_PUSHDATA2, OP_PUSHDATA4, pack_byte.
    assert (Hpos : 2 <= Z.of_nat (length item)) by (subst item; cbn [length]; lia).
    destruct (Z.ltb_spec (Z.of_nat (length item)) 76);
      [|destruct (Z.leb_spec (Z.of_nat (length item)) 255);
        [|destruct (Z.leb_spec (Z.of_nat (length item)) 65535)]].
    + exists [byte_of_Z (Z.of_nat (length item))], (Z.of_nat (length item)).
      split; [reflexivity|]. split; [now apply push_direct|lia].
    + exists [x4c; byte_of_Z (Z.of_nat (length item))], 76.
      split; [reflexivity|]. split; [apply push_data1|]; lia.
    + exists (x4d :: le_bytes 2 (Z.of_nat (length item))), 77.
      split; [reflexivity|]. split; [apply push_data2|]; lia.
    + exists (x4e :: le_bytes 4 (Z.of_nat (length item))), 78.
      split; [reflexivity|]. split; [apply push_data4|]; lia.
Qed.

Lemma op_push_hex (i : Z) : op_push i = hex (op_push_bytes i).
Proof.
  unfold op_push, op_push_bytes, int_to_hex.
  destruct (i <? 76); [reflexivity|].
  destruct (i <? 255); [reflexivity|].
  destruct (i <? 65535); reflexivity.
Qed.

Lemma push_script_hex (x : bytes) :
  push_script (hex x) = hex (op_push_bytes (Z.of_nat (length x)) ++ x).
Proof.
  unfold push_script. now rewrite hex_length_half, op_push_hex, hex_app.
Qed.

Lemma op_push_header (x : bytes) :
  (1 <= length x)%nat -> Z.of_nat (length x) < 2 ^ 32 ->
  exists op, push_header (op_push_bytes (Z.of_nat (length x))) (length x) op
             /\ 0 < op <= OP_PUSHDATA4.
Proof.
  intros Hlo Hhi. unfold op_push_bytes, OP_PUSHDATA4.
  destruct (Z.ltb_spec (Z.of_nat (length x)) 76);
    [|destruct (Z.ltb_spec (Z.of_nat (length x)) 255);
      [|destruct (Z.ltb_spec (Z.of_nat (length x)) 65535)]].
  - exists (Z.of_nat (length x)). split; [now apply push_direct|lia].
  - exists 76. split; [apply push_data1|]; lia.
  - exists 77. split; [apply push_data2|]; lia.
  - exists 78. split; [apply push_data4|]; lia.
Qed.

(** ** [_parse_input] reads an input back *)

Section round_trip.
Context `{Bitcoinx}.

Lemma reads_bind_ret {A B} (m : stx BCDataStream A) (f : A -> B) (enc : bytes) (a : A) :
  reads m enc a -> reads (m ≫= fun x => mret (f x)) enc (f a).
Proof.
  intros Hm. rewrite <- (app_nil_r enc).
  apply reads_bind with (a := a); [assumption|apply reads_ret].
Qed.

Lemma reads_parsed_kwargs (txin : XTxInput) (script : bytes) :
  reparses txin script ->
  reads (if bool_decide (prev_hash txin <> replicate 32 x00)
         then lift (_parse_script_sig script no_kwargs)
         else mret no_kwargs) [] (parsed_kwargs txin script).
Proof.
  intros [Hparse _]. unfold parsed_kwargs.
  case_bool_decide as Hprev; [|apply reads_ret].
  destruct (Hparse Hprev) as [kw ->]. apply reads_lift.
Qed.

Lemma reads_parse_input (txin : XTxInput) (script : bytes) :
  input_in_range txin -> Z.of_nat (length script) < 2 ^ 64 -> reparses txin script ->
  reads _parse_input (input_bytes txin script) (input_read_back txin script).
Proof.
  intros (Hlen & Hidx & Hseq & Hval) Hscript Hrep.
  unfold _parse_input, input_bytes.
  apply reads_bind with (a := prev_hash txin).
  { change 32 with (Z.of_nat 32). rewrite <- Hlen. apply reads_read_bytes. }
  apply reads_bind with (a := prev_idx txin); [now apply (reads_read_num fmt_I)|].
  apply reads_bind with (a := Z.of_nat (length script)).
  { apply reads_read_compact_size. lia. }
  apply reads_bind with (a := script); [apply reads_read_bytes|].
  apply reads_bind with (a := sequence txin); [now apply (reads_read_num fmt_I)|].
  apply (reads_bind _ _ [] _ (parsed_kwargs txin script));
    [now apply reads_parsed_kwargs|].
  destruct Hrep as [_ Hsame]. unfold input_read_back.
  change (is_txin_complete (mkXTxInput _ _ _ _ _ _ _ _ _))
    with (kwargs_complete (parsed_kwargs txin script)).
  rewrite Hsame. destruct (is_txin_complete txin); cbn [negb].
  - apply reads_ret.
  - apply (reads_bind_ret read_uint64
             (fun v => mkXTxInput _ _ _ _ v _ _ _ _)).
    now apply (reads_read_num fmt_Q).
Qed.

(** ** [serialize] writes the bytes the readers expect *)

Lemma serialize_input_hex (txin : XTxInput) (script : bytes) :
  serialize_input txin (hex script) = hex (input_bytes txin script).
Proof.
  unfold serialize_input, serialize_outpoint, input_bytes, var_int, int_to_hex.
  rewrite hex_length_half, !hex_app.
  destruct (is_txin_complete txin); cbn [negb].
  - change (hex []) with EmptyString.
    now rewrite string_app_empty_r, !string_app_assoc.
  - now rewrite !string_app_assoc.
Qed.

Lemma serialize_inputs_hex (ins : list XTxInput) (scripts : list bytes) :
  Forall2 (fun txin script => input_script txin = Ok (hex script)) ins scripts ->
  result_mapM (fun txin => script ← input_script txin; Ok (serialize_input txin script)) ins
  = Ok (hex <$> zip_with input_bytes ins scripts).
Proof.
  induction 1 as [|txin script ins scripts Hscript _ IH]; [reflexivity|].
  cbn [result_mapM zip_with fmap list_fmap].
  rewrite !result_bind_unfold, Hscript, IH. now rewrite serialize_input_hex.
Qed.

Lemma serialize_text_hex (ver lock : Z) (ins : list XTxInput) (outs : list TxOutput)
    (scripts out_bytes : list bytes) :
  Forall2 (fun txin script => input_script txin = Ok (hex script)) ins scripts ->
  result_mapM TxOutput_to_bytes outs = Ok out_bytes ->
  serialize_text ver lock ins (Some outs)
  = Ok (hex (le_bytes 4 ver
             ++ (compact_size (Z.of_nat (length ins))
                 ++ concat (zip_with input_bytes ins scripts))
             ++ (compact_size (Z.of_nat (length outs)) ++ concat out_bytes)
             ++ le_bytes 4 lock)).
Proof.
  intros Hins Houts. unfold serialize_text.
  rewrite (serialize_inputs_hex _ _ Hins). cbn [iterable].
  rewrite !result_bind_unfold, Houts. f_equal.
  unfold var_int, int_to_hex. now rewrite !hex_app, <- hex_concat.
Qed.

Lemma outputs_to_bytes (outs : list TxOutput) :
  Forall output_in_range outs ->
  exists out_bytes, result_mapM TxOutput_to_bytes outs = Ok out_bytes
                    /\ Forall2 (reads TxOutput_read) out_bytes outs.
Proof.
  induction 1 as [|o outs [Hv Hlen] _ (obs & Hobs & Hreads)].
  - exists []. split; [reflexivity|constructor].
  - assert (Ho : TxOutput_to_bytes o
                 = Ok (le_bytes 8 (value o)
                       ++ compact_size (Z.of_nat (length (script_pubkey o)))
                       ++ script_pubkey o)).
    { unfold TxOutput_to_bytes. now rewrite (struct_pack_ok fmt_q). }
    eexists (_ :: obs). split.
    + cbn [result_mapM]. now rewrite !result_bind_unfold, Ho, Hobs.
    + constructor; [|assumption]. now apply reads_TxOutput_read.
Qed.

(** ** [deserialize] reads a transaction back *)

Lemma reads_deserialize_stream (ver lock : Z) (encs : list bytes) (ins : list XTxInput)
    (out_bytes : list bytes) (outs : list TxOutput) :
  fmt_range fmt_i ver -> fmt_range fmt_I lock -> ins <> [] ->
  Z.of_nat (length ins) < 2 ^ 64 -> Z.of_nat (length outs) < 2 ^ 64 ->
  Forall2 (reads _parse_input) encs ins ->
  Forall2 (reads TxOutput_read) out_bytes outs ->
  reads deserialize_stream
    (le_bytes 4 ver
     ++ (compact_size (Z.of_nat (length ins)) ++ concat encs)
     ++ (compact_size (Z.of_nat (length outs)) ++ concat out_bytes)
     ++ le_bytes 4 lock)
    (mkTxDict ver ins outs lock).
Proof.
  intros Hver Hlock Hne Hn Hm Hins Houts.
  unfold deserialize_stream. rewrite <- !app_assoc.
  apply reads_bind with (a := ver); [now apply (reads_read_num fmt_i)|].
  apply reads_bind with (a := Z.of_nat (length ins)).
  { apply reads_read_compact_size. lia. }
  apply (reads_bind _ _ [] _ tt).
  { replace (Z.of_nat (length ins) =? 0) with false; [apply reads_lift|].
    symmetry. apply Z.eqb_neq. destruct ins; [done|cbn [length]; lia]. }
  rewrite Nat2Z.id.
  apply reads_bind with (a := ins); [now apply reads_repeat|].
  rewrite app_assoc.
  apply reads_bind with (a := outs); [now apply reads_bx_read_list|].
  apply (reads_bind_ret read_uint32 (mkTxDict ver ins outs)).
  now apply (reads_read_num fmt_I).
Qed.

Lemma deserialize_reads (enc : bytes) (d : tx_dict) :
  reads deserialize_stream enc d -> deserialize (hex enc) = Ok d.
Proof.
  intros Hd. unfold deserialize. rewrite fromhex_hex, result_bind_unfold.
  rewrite (stx_bind_ok _ _ _ (stream_at [] (enc ++ [])) tt).
  - now rewrite (Hd [] []).
  - unfold write, stream_at. cbn. now rewrite app_nil_r.
Qed.

Lemma serializable_scripts (ins : list XTxInput) :
  Forall serializable ins -> Forall input_in_range ins ->
  exists scripts,
    Forall2 (fun txin script => input_script txin = Ok (hex script)) ins scripts
    /\ Forall2 (reads _parse_input) (zip_with input_bytes ins scripts)
         (zip_with input_read_back ins scripts)
    /\ length (zip_with input_read_back ins scripts) = length ins.
Proof.
  induction 1 as [|txin ins (script & Hscript & Hlen & Hrep) _ IH];
    intros Hrange.
  - exists []. repeat split; constructor.
  - apply Forall_cons in Hrange as [Htxin Hrange].
    destruct (IH Hrange) as (scripts & Hscripts & Hreads & Hsame).
    exists (script :: scripts). split; [now constructor|].
    cbn [zip_with length]. split; [|now rewrite Hsame].
    constructor; [now apply reads_parse_input|assumption].
Qed.

Lemma read_back_round_trip (ins : list XTxInput) (scripts : list bytes) :
  Forall2 (fun txin script => input_script txin = Ok (hex script)) ins scripts ->
  Forall2 input_round_trip ins (zip_with input_read_back ins scripts).
Proof.
  induction 1 as [|txin script ins scripts Hscript _ IH]; cbn [zip_with];
    constructor; [|assumption].
  now repeat split.
Qed.

(** ** The standard inputs have a wire form *)

Lemma push_header_length (hd : bytes) (n : nat) (op : Z) :
  push_header hd n op -> (length hd <= 5)%nat.
Proof. destruct 1; cbn [length]; rewrite ?length_le_bytes; lia. Qed.

Lemma key_object_public_key (key : XPublicKey) :
  key_object key ->
  (exists r, to_public_key key = Ok r) /\ (1 <= length key)%nat.
Proof.
  unfold key_object, XPublicKey_init. rewrite !result_bind_unfold.
  destruct (to_public_key key) as [r|e] eqn:Hr.
  - intros _. split; [now exists r|].
    destruct key; [discriminate Hr|cbn [length]; lia].
  - now destruct e.
Qed.

Lemma public_key_key_object (key : XPublicKey) (r : key_or_address) :
  to_public_key key = Ok r -> key_object key.
Proof.
  intros Hr. unfold key_object, XPublicKey_init.
  now rewrite !result_bind_unfold, Hr.
Qed.

(** A script of one push is parsed as that of a P2PK input. *)
Lemma parse_script_sig_p2pk (sig : bytes) (kw : kwargs) :
  pushable sig -> Z.of_nat (length sig) < 2 ^ 32 ->
  _parse_script_sig (push_item sig) kw
  = Ok (mkKwargs (kw_x_pubkeys kw) (kw_address kw) 1 [sig]).
Proof.
  intros Hsig Hlen.
  destruct (push_item_token sig Hsig Hlen) as (hd & op & -> & Hhd & Hop).
  unfold _parse_script_sig.
  replace (hd ++ sig) with (concat (token_bytes <$> [tok_push hd sig op]))
    by (cbn; now rewrite app_nil_r).
  rewrite script_GetOp_tokens by (repeat constructor; exact Hhd).
  cbn [decoded_tokens token_code token_data].
  rewrite match_decoded_true; [reflexivity|].
  constructor; [left; now split|constructor].
Qed.

(** A script of two pushes, the second of a key, is parsed as that of a P2PKH
    input. *)
Lemma parse_script_sig_p2pkh (sig : bytes) (key : XPublicKey) (kw : kwargs) :
  pushable sig -> Z.of_nat (length sig) < 2 ^ 32 ->
  key_object key -> Z.of_nat (length key) < 2 ^ 32 ->
  exists a,
    _parse_script_sig (push_item sig ++ op_push_bytes (Z.of_nat (length key)) ++ key) kw
    = Ok (mkKwargs [key] (AddressOf a) 1 [sig]).
Proof.
  intros Hsig Hlen Hkey Hklen.
  destruct (push_item_token sig Hsig Hlen) as (hd & op & -> & Hhd & Hop).
  destruct (key_object_public_key key Hkey) as [[r Hr] Hpos].
  destruct (op_push_header key Hpos Hklen) as (op2 & Hhd2 & Hop2).
  set (hd2 := op_push_bytes _) in *.
  unfold _parse_script_sig.
  replace ((hd ++ sig) ++ hd2 ++ key)
    with (concat (token_bytes <$> [tok_push hd sig op; tok_push hd2 key op2]))
    by (cbn; now rewrite app_nil_r).
  rewrite script_GetOp_tokens by (repeat constructor; assumption).
  cbn [decoded_tokens token_code token_data].
  rewrite match_decoded_length by (cbn; lia).
  rewrite match_decoded_true
    by (constructor; [left; now split|constructor; [left; now split|constructor]]).
  assert (exists a, to_address key = Ok a) as [a Ha].
  { unfold to_address. rewrite result_bind_unfold, Hr. destruct r; eauto. }
  exists a. cbn [op_data snd fst data_arg]. unfold key_object, XPublicKey in Hkey.
  now rewrite !result_bind_unfold, Hkey, Ha.
Qed.

Lemma op_push_bytes_length (key : bytes) :
  (1 <= length key)%nat -> Z.of_nat (length key) < 2 ^ 32 ->
  (length (op_push_bytes (Z.of_nat (length key))) <= 5)%nat.
Proof.
  intros Hpos Hlen. destruct (op_push_header key Hpos Hlen) as (op & Hhd & _).
  exact (push_header_length _ _ _ Hhd).
Qed.

Lemma push_item_length (sig : bytes) :
  pushable sig -> Z.of_nat (length sig) < 2 ^ 32 ->
  (length (push_item sig) <= 5 + length sig)%nat.
Proof.
  intros Hsig Hlen.
  destruct (push_item_token sig Hsig Hlen) as (hd & op & -> & Hhd & _).
  rewrite length_app. apply push_header_length in Hhd. lia.
Qed.

(** The signature list an input with one key and one signature slot is
    serialized with, and its keys: realised when the input is complete. *)
Lemma get_siglist_single (txin : XTxInput) (key : XPublicKey) (pk : PublicKey)
    (sig : bytes) :
  x_pubkeys txin = [key] -> threshold txin = 1 -> signatures txin = [sig] ->
  to_public_key key = Ok (IsKey pk) -> key_object (PublicKey_to_bytes pk) ->
  get_siglist txin
  = Ok ([if is_txin_complete txin then PublicKey_to_bytes pk else key], [sig]).
Proof.
  intros Hkeys Hthr Hsigs Hpk Hreal. unfold get_siglist.
  destruct (is_txin_complete txin) eqn:Hc; [|now rewrite Hkeys, Hsigs].
  rewrite Hkeys. cbn [result_mapM]. unfold key_object, XPublicKey in Hreal.
  rewrite !result_bind_unfold, Hpk. cbn [key_bytes].
  rewrite !result_bind_unfold, Hreal.
  do 2 f_equal. unfold is_txin_complete, txin_signatures_present in *.
  rewrite Hthr, Hsigs in *. rewrite filter_cons in *.
  destruct (decide (sig <> NO_SIGNATURE)); [reflexivity|discriminate Hc].
Qed.

Lemma single_slot_complete (txin : XTxInput) (sig : bytes) (keys : list XPublicKey)
    (a : address_field) :
  threshold txin = 1 -> signatures txin = [sig] ->
  kwargs_complete (mkKwargs keys a 1 [sig]) = is_txin_complete txin.
Proof.
  intros Hthr Hsigs.
  unfold kwargs_complete, is_txin_complete, txin_signatures_present.
  now rewrite Hthr, Hsigs.
Qed.

(** A P2PKH input, with its one key and one signature slot, has a wire
    form. *)
Lemma p2pkh_serializable (txin : XTxInput) (a : bytes) (key : XPublicKey)
    (pk : PublicKey) (sig : bytes) :
  address txin = AddressOf (P2PKH_Address a) ->
  prev_hash txin <> replicate 32 x00 ->
  x_pubkeys txin = [key] -> threshold txin = 1 -> signatures txin = [sig] ->
  pushable sig -> Z.of_nat (length sig) < 2 ^ 32 ->
  to_public_key key = Ok (IsKey pk) -> Z.of_nat (length key) < 2 ^ 32 ->
  key_object (PublicKey_to_bytes pk) ->
  Z.of_nat (length (PublicKey_to_bytes pk)) < 2 ^ 32 ->
  serializable txin.
Proof.
  intros Haddr Hprev Hkeys Hthr Hsigs Hsig Hlen Hpk Hklen Hreal Hrlen.
  set (k := if is_txin_complete txin then PublicKey_to_bytes pk else key).
  assert (Hk : key_object k /\ Z.of_nat (length k) < 2 ^ 32).
  { subst k. destruct (is_txin_complete txin); [easy|].
    split; [exact (public_key_key_object _ _ Hpk)|assumption]. }
  destruct Hk as [Hk Hkl].
  destruct (parse_script_sig_p2pkh sig k no_kwargs Hsig Hlen Hk Hkl) as [a' Hparse].
  exists (push_item sig ++ op_push_bytes (Z.of_nat (length k)) ++ k).
  split; [|split; [|split]].
  - unfold input_script, type. rewrite Haddr.
    rewrite (get_siglist_single txin key pk sig) by assumption.
    fold k. rewrite result_bind_unfold. cbn [map concat].
    now rewrite app_nil_r, push_script_hex, <- hex_app.
  - pose proof (push_item_length sig Hsig Hlen).
    pose proof (proj2 (key_object_public_key k Hk)) as Hpos.
    pose proof (op_push_bytes_length k Hpos Hkl).
    rewrite !length_app. lia.
  - intros _. eauto.
  - unfold parsed_kwargs. rewrite bool_decide_true by assumption.
    rewrite Hparse. now apply single_slot_complete.
Qed.

(** So does a P2PK input. *)
Lemma p2pk_serializable (txin : XTxInput) (key : XPublicKey) (pk pk' : PublicKey)
    (sig : bytes) :
  address txin = PublicKeyOf pk' ->
  prev_hash txin <> replicate 32 x00 ->
  x_pubkeys txin = [key] -> threshold txin = 1 -> signatures txin = [sig] ->
  pushable sig -> Z.of_nat (length sig) < 2 ^ 32 ->
  to_public_key key = Ok (IsKey pk) -> key_object (PublicKey_to_bytes pk) ->
  serializable txin.
Proof.
  intros Haddr Hprev Hkeys Hthr Hsigs Hsig Hlen Hpk Hreal.
  pose proof (parse_script_sig_p2pk sig no_kwargs Hsig Hlen) as Hparse.
  exists (push_item sig). split; [|split; [|split]].
  - unfold input_script, type. rewrite Haddr.
    rewrite (get_siglist_single txin key pk sig) by assumption.
    rewrite result_bind_unfold. cbn [map concat]. now rewrite app_nil_r.
  - pose proof (push_item_length sig Hsig Hlen). lia.
  - intros _. eauto.
  - unfold parsed_kwargs. rewrite bool_decide_true by assumption.
    rewrite Hparse. now apply single_slot_complete.
Qed.

(** So does an input without address that is complete, a coinbase input for
    one: its script is written as it is and not parsed when the previous hash
    is null. *)
Lemma null_input_serializable (txin : XTxInput) :
  address txin = NoAddress -> prev_hash txin = replicate 32 x00 ->
  is_txin_complete txin = true -> Z.of_nat (length (script_sig txin)) < 2 ^ 64 ->
  serializable txin.
Proof.
  intros Haddr Hprev Hc Hlen. exists (script_sig txin).
  split; [|split; [assumption|split]].
  - unfold input_script, type. rewrite Haddr. now destruct (is_coinbase txin).
  - now intros [].
  - unfold parsed_kwargs. now rewrite bool_decide_false by (now intros []).
Qed.

(** ** The round trip *)

(** C3 (amended). For a transaction object with parsed inputs, at least one,
    whose fields fit the wire format and whose inputs have a wire form (their
    scripts parse back to inputs as complete as they are, which the standard
    inputs above do), [serialize()] returns a text and leaves the object as it
    is, [deserialize] accepts the text, and its result has the version, the
    locktime and the outputs of the transaction, and for each input an input
    with the same previous hash, previous index and sequence, whose script is
    the one [input_script] gives, and whose value is that of the input when
    the input is not complete, and 0 when it is complete. *)
Theorem serialize_deserialize_round_trip (tx : Transaction)
    (ins : list XTxInput) (outs : list TxOutput) :
  _inputs tx = Some ins -> _outputs tx = Some outs -> ins <> [] ->
  0 <= version tx < 2 ^ 31 -> 0 <= locktime tx < 2 ^ 32 ->
  Z.of_nat (length ins) < 2 ^ 64 -> Z.of_nat (length outs) < 2 ^ 64 ->
  Forall input_in_range ins -> Forall serializable ins ->
  Forall output_in_range outs ->
  exists text d,
    serialize tx = (Ok text, tx)
    /\ deserialize text = Ok d
    /\ d_version d = version tx
    /\ Forall2 input_round_trip ins (d_inputs d)
    /\ d_outputs d = outs
    /\ d_lockTime d = locktime tx.
Proof.
  intros Hins Houts Hne Hver Hlock Hn Hm Hrange Hser Horange.
  destruct (serializable_scripts ins Hser Hrange)
    as (scripts & Hscripts & Hreads & Hsame).
  destruct (outputs_to_bytes outs Horange) as (out_bytes & Hbytes & Hout).
  eexists _, (mkTxDict (version tx) (zip_with input_read_back ins scripts)
                outs (locktime tx)).
  split; [|split; [|split; [reflexivity|split; [|split; reflexivity]]]].
  - rewrite (serialize_parsed tx ins Hins), Houts.
    now rewrite (serialize_text_hex _ _ _ _ scripts out_bytes Hscripts Hbytes).
  - apply deserialize_reads. rewrite <- Hsame.
    apply reads_deserialize_stream; try assumption.
    + cbn [fmt_range]. lia.
    + intros Hnil. rewrite Hnil in Hsame. destruct ins; [done|discriminate].
    + now rewrite Hsame.
  - now apply read_back_round_trip.
Qed.

End round_trip.

(** C3 (as stated, refuted). A transaction of one P2PKH input that carries
    its signature, so a fully signed one, with the value 5000: the text
    [serialize()] returns holds no value for the input, and [deserialize]
    gives the input back with the value 0. *)
Lemma round_trip_loses_value_of_complete_input :
  let key := x02 :: replicate 32 x11 in
  let txin :=
    mkXTxInput (H := sample_bitcoinx) (replicate 32 xaa) 1 [] 4294967295 5000 [key]
      (AddressOf (P2PKH_Address (replicate 20 x07))) 1 [replicate 71 x30 ++ [x41]] in
  let tx := mkTransaction None (Some [txin]) (Some [mkTxOutput 4000 [x6a]]) 0 1 in
  fst (is_complete tx) = Ok true
  /\ txin_value <$> [txin] = [5000]
  /\ (text ← fst (serialize tx);
      d ← deserialize (H := sample_bitcoinx) text;
      Ok (txin_value <$> d_inputs d))
     = Ok [0].
Proof. repeat split; vm_compute; reflexivity. Qed.

(** The amended statement at a partially signed transaction of two P2PKH
    inputs, the first with its signature and the second with an empty slot:
    the hypotheses hold there. *)
Lemma serialize_deserialize_round_trip_witness :
  let key := x02 :: replicate 32 x11 in
  let signed :=
    mkXTxInput (H := sample_bitcoinx) (replicate 32 xaa) 1 [] 4294967295 5000 [key]
      (AddressOf (P2PKH_Address (replicate 20 x07))) 1 [replicate 71 x30 ++ [x41]] in
  let empty_slot :=
    mkXTxInput (H := sample_bitcoinx) (replicate 32 xbb) 0 [] 4294967294 7000 [key]
      (AddressOf (P2PKH_Address (replicate 20 x07))) 1 [NO_SIGNATURE] in
  let outs := [mkTxOutput 4000 [x6a]; mkTxOutput 7500 [x51]] in
  let tx := mkTransaction None (Some [signed; empty_slot]) (Some outs) 17 1 in
  exists text d,
    serialize tx = (Ok text, tx)
    /\ deserialize (H := sample_bitcoinx) text = Ok d
    /\ d_version d = 1
    /\ Forall2 input_round_trip [signed; empty_slot] (d_inputs d)
    /\ d_outputs d = outs
    /\ d_lockTime d = 17.
Proof.
  intros key signed empty_slot outs tx.
  apply (serialize_deserialize_round_trip tx [signed; empty_slot] outs).
  - reflexivity.
  - reflexivity.
  - discriminate.
  - cbn. lia.
  - cbn. lia.
  - cbn. lia.
  - cbn. lia.
  - repeat constructor; cbn; lia.
  - repeat apply Forall_cons_2; [| |apply Forall_nil_2].
    + apply (p2pkh_serializable signed (replicate 20 x07) key key
               (replicate 71 x30 ++ [x41]));
        try reflexivity; try (right; cbn; lia); try (cbn; lia); discriminate.
    + apply (p2pkh_serializable empty_slot (replicate 20 x07) key key NO_SIGNATURE);
        try reflexivity; try (now left); try (cbn; lia); discriminate.
  - repeat constructor; cbn; lia.
Defined.

(** A 2-of-2 multisig input that carries one of its two signatures has a
    wire form too: the value is written, and read back with the keys, the
    threshold and both signature slots. *)
Example multisig_round_trip_example :
  let keys := [x02 :: replicate 32 x11; x03 :: replicate 32 x22] in
  let sig := replicate 71 x30 ++ [x41] in
  let txin :=
    mkXTxInput (H := sample_bitcoinx) (replicate 32 xaa) 0 [] 4294967295 7000 keys
      (AddressOf (P2SH_Address (replicate 20 x07))) 2 [sig; NO_SIGNATURE] in
  let tx := mkTransaction None (Some [txin]) (Some [mkTxOutput 4000 [x6a]]) 0 1 in
  serializable txin
  /\ (text ← fst (serialize tx);
      d ← deserialize (H := sample_bitcoinx) text;
      Ok ((fun back => (txin_value back, x_pubkeys back, threshold back, signatures back))
            <$> d_inputs d))
     = Ok [(7000, keys, 2, [sig; NO_SIGNATURE])].
Proof.
  intros keys sig txin tx. split; [|vm_compute; reflexivity].
  exists (match s ← input_script txin; fromhex s with Ok b => b | Err _ => [] end).
  split; [|split; [|split]].
  - vm_compute. reflexivity.
  - vm_compute. reflexivity.
  - intros _. eexists. vm_compute. reflexivity.
  - vm_compute. reflexivity.
Qed.

From Stdlib Require Import ZArith Lia.
From Stdlib Require Import Strings.Byte Strings.Ascii Strings.String.
From stdpp Require Import base option list gmap strings pretty.

Open Scope Z_scope.

(** * transaction.py: writing to and reading from a [_BCDataStream] *)

Lemma write_appends (enc : bytes) (vds : BCDataStream) :
  write enc vds = (Ok tt, appended vds enc).
Proof. reflexivity. Qed.

Lemma appended_app (vds : BCDataStream) (a b : bytes) :
  appended (appended vds a) b = appended vds (a ++ b).
Proof. unfold appended, buffer. cbn. now rewrite app_assoc. Qed.

Lemma write_num_appends (f : fmt) (v : Z) (vds : BCDataStream) :
  fmt_range f v ->
  _write_num f v vds = (Ok tt, appended vds (le_bytes (calcsize f) v)).
Proof.
  intros Hv. unfold _write_num. now rewrite lift_bind, struct_pack_ok.
Qed.

Lemma struct_pack_out_of_range (f : fmt) (v : Z) :
  ~ fmt_range f v -> struct_pack f v = Err StructError.
Proof.
  intros Hv. destruct (struct_pack f v) as [b|e] eqn:Hpack.
  - now apply struct_pack_inv in Hpack as [Hr _].
  - unfold struct_pack in Hpack. now destruct (_ && _); inversion Hpack.
Qed.

Lemma write_compact_size_appends (size : Z) (vds : BCDataStream) :
  0 <= size < 2 ^ 64 ->
  write_compact_size size vds = (inr tt, appended vds (compact_size size)).
Proof.
  intros Hsize. unfold write_compact_size, compact_size.
  destruct (Z.ltb_spec size 0); [lia|].
  destruct (Z.ltb_spec size 253); [reflexivity|].
  destruct (Z.ltb_spec size (2 ^ 16));
    [|destruct (Z.ltb_spec size (2 ^ 32)); [|destruct (Z.ltb_spec size (2 ^ 64)); [|lia]]];
    rewrite (stx_bind_ok _ _ _ _ _ (write_appends _ vds));
    rewrite write_num_appends by (cbn; lia);
    now rewrite appended_app.
Qed.

(** Reading from the end of what was there before gives back what was
    appended. *)
Lemma reads_appended {A} (m : stx BCDataStream A) (enc : bytes) (v : A)
    (vds : BCDataStream) :
  reads m enc v -> at_end vds ->
  m (appended vds enc) = (Ok v, consumed (appended vds enc)).
Proof.
  intros Hm Hend. unfold appended, consumed. rewrite Hend.
  pose proof (Hm (buffer vds) []) as Hrun. unfold stream_at in Hrun.
  rewrite !app_nil_r in Hrun. now rewrite Hrun.
Qed.

(** X1. [write_compact_size(size)] with [0 <= size < 2**64] appends the
    compact-size encoding of [size] and returns; [read_compact_size] from the
    end of what the stream held before reads [size] back and stops at the end
    of the buffer. A negative [size] raises the [SerializationError] and
    leaves the stream as it was; from [2**64] on the method returns without
    writing anything. *)
Theorem write_compact_size_read_back (size : Z) (vds : BCDataStream) :
  (0 <= size < 2 ^ 64 ->
     write_compact_size size vds = (inr tt, appended vds (compact_size size))
     /\ (at_end vds ->
         read_compact_size (appended vds (compact_size size))
         = (Ok size, consumed (appended vds (compact_size size)))))
  /\ (size < 0 -> write_compact_size size vds = (inl SizeBelowZero, vds))
  /\ (2 ^ 64 <= size -> write_compact_size size vds = (inr tt, vds)).
Proof.
  split; [|split].
  - intros Hsize. split; [now apply write_compact_size_appends|].
    apply reads_appended. now apply reads_read_compact_size.
  - intros Hneg. unfold write_compact_size.
    now destruct (Z.ltb_spec size 0); [|lia].
  - intros Hbig. unfold write_compact_size.
    repeat match goal with
           | |- context [?a <? ?b] => destruct (Z.ltb_spec a b); [lia|]
           end.
    reflexivity.
Qed.

(** The theorem at the size 300 and a stream never written to. *)
Lemma write_compact_size_read_back_witness :
  write_compact_size 300 (mkStream None 0) = (inr tt, mkStream (Some [xfd; x2c; x01]) 0)
  /\ read_compact_size (mkStream (Some [xfd; x2c; x01]) 0)
     = (Ok 300, mkStream (Some [xfd; x2c; x01]) 3).
Proof.
  destruct (proj1 (write_compact_size_read_back 300 (mkStream None 0)) ltac:(lia))
    as [Hwrite Hread].
  split; [exact Hwrite|exact (Hread eq_refl)].
Defined.

(** X2. [_write_num(format, num)], and with it [write_int16] to
    [write_uint64], appends the little-endian bytes of a number the format
    holds, and [_read_num(format)] from the end of what the stream held
    before reads the number back; a number out of the format's range raises
    [struct.error] itself, not a [SerializationError], and nothing is
    written. *)
Theorem write_num_read_back (f : fmt) (v : Z) (vds : BCDataStream) :
  (fmt_range f v ->
     _write_num f v vds = (Ok tt, appended vds (le_bytes (calcsize f) v))
     /\ (at_end vds ->
         _read_num f (appended vds (le_bytes (calcsize f) v))
         = (Ok v, consumed (appended vds (le_bytes (calcsize f) v)))))
  /\ (~ fmt_range f v -> _write_num f v vds = (Err StructError, vds)).
Proof.
  split.
  - intros Hv. split; [now apply write_num_appends|].
    apply reads_appended. now apply reads_read_num.
  - intros Hv. unfold _write_num.
    now rewrite lift_bind, struct_pack_out_of_range.
Qed.

(** The theorem at [write_int32(-2)] on a stream that holds one byte already
    read. *)
Lemma write_num_read_back_witness :
  write_int32 (-2) (mkStream (Some [x01]) 1)
  = (Ok tt, mkStream (Some [x01; xfe; xff; xff; xff]) 1)
  /\ read_int32 (mkStream (Some [x01; xfe; xff; xff; xff]) 1)
     = (Ok (-2), mkStream (Some [x01; xfe; xff; xff; xff]) 5).
Proof.
  destruct (proj1 (write_num_read_back fmt_i (-2) (mkStream (Some [x01]) 1)))
    as [Hwrite Hread]; [cbn; lia|].
  split; [exact Hwrite|exact (Hread eq_refl)].
Defined.

Lemma le_decode_bound (b : bytes) : 0 <= le_decode b < 256 ^ Z.of_nat (length b).
Proof.
  induction b as [|x b IH]; [cbn; lia|].
  cbn [le_decode length]. rewrite Nat2Z.inj_succ, Z.pow_succ_r by lia.
  pose proof (Z_of_byte_range x). lia.
Qed.

Lemma unpack_value_range (f : fmt) (b : bytes) :
  length b = calcsize f -> fmt_range f (unpack_value f b).
Proof.
  intros Hlen. pose proof (le_decode_bound b) as Hb. rewrite Hlen in Hb.
  unfold unpack_value.
  destruct f; cbn [calcsize fmt_signed fmt_range andb] in *;
    try (match goal with
         | |- context [?a <=? ?b] => destruct (Z.leb_spec a b)
         end);
    cbn in *; lia.
Qed.

Lemma read_num_inv (f : fmt) (vds vds' : BCDataStream) (v : Z) :
  0 <= read_cursor vds -> _read_num f vds = (Ok v, vds') ->
  fmt_range f v
  /\ input vds' = input vds
  /\ read_cursor vds' = read_cursor vds + Z.of_nat (calcsize f)
  /\ read_cursor vds' <= Z.of_nat (length (buffer vds)).
Proof.
  intros Hpos. unfold _read_num, buffer.
  destruct (input vds) as [inp|] eqn:Hinp; [|discriminate].
  destruct (Z.leb_spec (read_cursor vds + Z.of_nat (calcsize f))
              (Z.of_nat (length inp))) as [Hfit|]; [|discriminate].
  intros [= <- <-]. cbn [input read_cursor default].
  repeat split; [|assumption].
  apply unpack_value_range. rewrite length_take, length_drop. lia.
Qed.

(** X3. A read that returns stays inside the buffer: after [_read_num] the
    cursor has moved by the size of the format and is not beyond the end, and
    the number is one the format holds; after [read_compact_size] the cursor
    has moved, is not beyond the end, and the size is below [2**64]. A
    failed [_read_num] raises [SerializationError] and leaves the cursor
    where it was. *)
Theorem reads_stay_in_buffer (vds vds' : BCDataStream) (v : Z) :
  0 <= read_cursor vds ->
  (forall f, _read_num f vds = (Ok v, vds') ->
     fmt_range f v
     /\ input vds' = input vds
     /\ read_cursor vds' = read_cursor vds + Z.of_nat (calcsize f)
     /\ read_cursor vds' <= Z.of_nat (length (buffer vds)))
  /\ (read_compact_size vds = (Ok v, vds') ->
      0 <= v < 2 ^ 64
      /\ input vds' = input vds
      /\ read_cursor vds < read_cursor vds' <= Z.of_nat (length (buffer vds)))
  /\ (forall f e, _read_num f vds = (Err e, vds') ->
      e = SerializationError msg_struct_error /\ vds' = vds).
Proof.
  intros Hpos. split; [|split].
  - intros f. now apply read_num_inv.
  - unfold read_compact_size.
    destruct (input vds) as [inp|] eqn:Hinp; [|discriminate].
    destruct (inp !! Z.to_nat (read_cursor vds)) as [b|] eqn:Hb; [|discriminate].
    apply lookup_lt_Some in Hb. pose proof (Z_of_byte_range b) as Hrange.
    assert (Hbuf : buffer vds = inp) by (unfold buffer; now rewrite Hinp).
    set (vds1 := mkStream (Some inp) (read_cursor vds + 1)).
    assert (Hnum : forall f, _read_num f vds1 = (Ok v, vds') ->
              fmt_range f v /\ input vds' = Some inp
              /\ read_cursor vds < read_cursor vds' <= Z.of_nat (length inp)).
    { intros f Hf. apply read_num_inv in Hf as (Hv & Hi & Hc & Hle);
        [|cbn; lia].
      cbn [input read_cursor vds1 buffer default] in *. repeat split; try assumption; lia. }
    rewrite Hbuf.
    destruct (Z.eqb_spec (Z_of_byte b) 253);
      [|destruct (Z.eqb_spec (Z_of_byte b) 254);
        [|destruct (Z.eqb_spec (Z_of_byte b) 255)]].
    + intros Hf. destruct (Hnum fmt_H Hf) as (Hv & Hi & Hc).
      cbn in Hv. repeat split; try assumption; lia.
    + intros Hf. destruct (Hnum fmt_I Hf) as (Hv & Hi & Hc).
      cbn in Hv. repeat split; try assumption; lia.
    + intros Hf. destruct (Hnum fmt_Q Hf) as (Hv & Hi & Hc).
      cbn in Hv. repeat split; try assumption; lia.
    + intros [= <- <-]. subst vds1. cbn [input read_cursor]. repeat split; lia.
  - intros f e. unfold _read_num.
    destruct (input vds) as [inp|]; [|now intros [= <- <-]].
    destruct (_ <=? _); [discriminate|now intros [= <- <-]].
Qed.

(** The theorem at the two bytes 0x34 0x12 read as an unsigned 16-bit
    number. *)
Lemma reads_stay_in_buffer_witness :
  fmt_range fmt_H 4660
  /\ read_cursor (mkStream (Some [x34; x12]) 2) <= Z.of_nat (length [x34; x12]).
Proof.
  destruct (proj1 (reads_stay_in_buffer (mkStream (Some [x34; x12]) 0)
                     (mkStream (Some [x34; x12]) 2) 4660 ltac:(cbn; lia))
              fmt_H eq_refl) as (Hv & _ & _ & Hle).
  split; [exact Hv|exact Hle].
Defined.

(** X4. [read_bytes(length)] on a stream that was written to never raises:
    it returns the [length] bytes at the cursor, or as many as are left when
    fewer are, and moves the cursor by [length] in either case, beyond the
    end of the buffer if need be. *)
Theorem read_bytes_returns_what_is_left (n : Z) (vds : BCDataStream) (inp : bytes) :
  input vds = Some inp -> 0 <= n -> 0 <= read_cursor vds ->
  exists b,
    read_bytes n vds = (Ok b, mkStream (Some inp) (read_cursor vds + n))
    /\ b = take (Z.to_nat n) (drop (Z.to_nat (read_cursor vds)) inp)
    /\ Z.of_nat (length b)
       = Z.min n (Z.max 0 (Z.of_nat (length inp) - read_cursor vds)).
Proof.
  intros Hinp Hn Hpos. eexists. unfold read_bytes. rewrite Hinp.
  split; [reflexivity|split; [reflexivity|]].
  rewrite length_take, length_drop. lia.
Qed.

(** The theorem at a read of 32 bytes with three bytes left. *)
Lemma read_bytes_returns_what_is_left_witness :
  exists b,
    read_bytes 32 (mkStream (Some [x01; x02; x03; x04]) 1)
    = (Ok b, mkStream (Some [x01; x02; x03; x04]) 33)
    /\ b = [x02; x03; x04]
    /\ Z.of_nat (length b) = 3.
Proof.
  apply (read_bytes_returns_what_is_left 32 (mkStream (Some [x01; x02; x03; x04]) 1)
           [x01; x02; x03; x04]); [reflexivity|lia|cbn; lia].
Defined.

Lemma reads_compact_size_marker (m : byte) (f : fmt) (v : Z) :
  (m = xfd /\ f = fmt_H) \/ (m = xfe /\ f = fmt_I) \/ (m = xff /\ f = fmt_Q) ->
  fmt_range f v ->
  reads read_compact_size (m :: le_bytes (calcsize f) v) v.
Proof.
  intros Hm Hv pre rest. unfold read_compact_size.
  cbn [app stream_at input read_cursor]. rewrite stream_at_lookup, stream_at_step.
  pose proof (reads_read_num f v Hv (pre ++ [m]) rest) as Hnum.
  rewrite <- app_assoc in Hnum.
  destruct Hm as [[-> ->]|[[-> ->]|[-> ->]]]; exact Hnum.
Qed.

(** X5. [read_compact_size] does not ask for the shortest form: the marker
    253 followed by any number of two bytes reads as that number, also below
    253, and so for the markers 254 and 255 with four and eight bytes. *)
Theorem read_compact_size_accepts_long_forms (v : Z) :
  (0 <= v < 2 ^ 16 -> reads read_compact_size (xfd :: le_bytes 2 v) v)
  /\ (0 <= v < 2 ^ 32 -> reads read_compact_size (xfe :: le_bytes 4 v) v)
  /\ (0 <= v < 2 ^ 64 -> reads read_compact_size (xff :: le_bytes 8 v) v).
Proof.
  split; [|split]; intros Hv.
  - apply (reads_compact_size_marker xfd fmt_H); [now left|exact Hv].
  - apply (reads_compact_size_marker xfe fmt_I); [right; now left|exact Hv].
  - apply (reads_compact_size_marker xff fmt_Q); [right; now right|exact Hv].
Qed.

(** The theorem at the size 1 written on three bytes. *)
Lemma read_compact_size_accepts_long_forms_witness :
  read_compact_size (mkStream (Some [xfd; x01; x00]) 0)
  = (Ok 1, mkStream (Some [xfd; x01; x00]) 3).
Proof.
  exact (proj1 (read_compact_size_accepts_long_forms 1) ltac:(lia) [] []).
Defined.

From Stdlib Require Import ZArith Lia.
From Stdlib Require Import Strings.Byte Strings.Ascii Strings.String.
From stdpp Require Import base option list gmap strings pretty.

Open Scope Z_scope.

(** * transaction.py: the script decoder *)

(** ** Pushed items are decoded back *)

Lemma push_item_header (x : bytes) :
  ~ pushed_as_opcode x -> Z.of_nat (length x) < 2 ^ 32 ->
  exists hd op, push_item x = hd ++ x /\ push_header hd (length x) op
                /\ 0 <= op <= OP_PUSHDATA4.
Proof.
  intros Hx Hlen. destruct x as [|a [|b x]].
  - exists [x00], 0. split; [reflexivity|].
    split; [apply (push_direct 0)|]; vm_compute; intuition congruence.
  - exists [x01], 1. split.
    + unfold push_item. pose proof (Z_of_byte_range a).
      destruct (Z.leb_spec 1 (Z_of_byte a)); cbn [andb];
        [destruct (Z.leb_spec (Z_of_byte a) 16); cbn [andb]|].
      * exfalso. apply Hx. exists a. split; [reflexivity|lia].
      * destruct (Z.eqb_spec (Z_of_byte a) 129); [|reflexivity].
        exfalso. apply Hx. exists a. split; [reflexivity|lia].
      * destruct (Z.eqb_spec (Z_of_byte a) 129); [lia|reflexivity].
    + split; [apply (push_direct 1)|]; vm_compute; intuition congruence.
  - destruct (push_item_token (a :: b :: x)) as (hd & op & E & Hhd & Hop);
      [right; cbn [length]; lia|assumption|].
    exists hd, op. repeat split; try assumption; lia.
Qed.

Lemma items_tokens (items : list bytes) :
  Forall (fun x => ~ pushed_as_opcode x /\ Z.of_nat (length x) < 2 ^ 32) items ->
  exists ts, token_bytes <$> ts = push_item <$> items
             /\ Forall token_ok ts
             /\ token_data <$> ts = Some <$> items
             /\ Forall (fun t => 0 <= token_code t <= OP_PUSHDATA4) ts.
Proof.
  induction 1 as [|x items [Hx Hlen] _ (ts & Hbytes & Hok & Hdata & Hcode)].
  - exists []. repeat split; constructor.
  - destruct (push_item_header x Hx Hlen) as (hd & op & E & Hhd & Hop).
    exists (tok_push hd x op :: ts). cbn [fmap list_fmap] in *.
    rewrite E. cbn [token_bytes token_data].
    split; [now f_equal|]. split; [now constructor|].
    split; [now f_equal|now constructor].
Qed.

(** X6. Decoding the concatenation of the pushes of items gives the items
    back, one operation each with the item as its data and an opcode up to
    OP_PUSHDATA4, for items shorter than [2**32] bytes other than the one-byte
    items that [push_item] writes as OP_1 to OP_16 and OP_1NEGATE; such an
    item comes back as its opcode, without data. *)
Theorem script_GetOp_of_pushed_items (items : list bytes) :
  (Forall (fun x => ~ pushed_as_opcode x /\ Z.of_nat (length x) < 2 ^ 32) items ->
   op_data <$> _script_GetOp (concat (push_item <$> items)) = Some <$> items
   /\ Forall (fun d => 0 <= op_code d <= OP_PUSHDATA4)
        (_script_GetOp (concat (push_item <$> items))))
  /\ (forall b, 1 <= Z_of_byte b <= 16 ->
      _script_GetOp (push_item [b]) = [(OP_1 + Z_of_byte b - 1, None, 1%nat)]).
Proof.
  split.
  - intros Hitems.
    destruct (items_tokens items Hitems) as (ts & Hbytes & Hok & Hdata & Hcode).
    rewrite <- Hbytes, (script_GetOp_tokens ts Hok), decoded_tokens_data.
    split; [assumption|].
    assert (Hcodes : Forall (fun c => 0 <= c <= OP_PUSHDATA4)
                       (op_code <$> decoded_tokens 0 ts)).
    { rewrite decoded_tokens_codes. apply Forall_fmap. exact Hcode. }
    apply Forall_fmap in Hcodes. exact Hcodes.
  - intros b Hb. unfold push_item.
    destruct (Z.leb_spec 1 (Z_of_byte b)); [|lia].
    destruct (Z.leb_spec (Z_of_byte b) 16); [|lia]. cbn [andb].
    unfold pack_byte, OP_1.
    pose proof (script_GetOp_tokens [tok_plain (byte_of_Z (81 + Z_of_byte b - 1))])
      as Hdec.
    cbn [fmap list_fmap concat token_bytes app decoded_tokens token_code
         token_data length Nat.add] in Hdec.
    rewrite Z_of_byte_of_Z in Hdec by lia. apply Hdec.
    repeat constructor. cbn [token_ok]. rewrite Z_of_byte_of_Z by lia.
    unfold OP_PUSHDATA4. lia.
Qed.

(** The theorem at a 71-byte signature, the sentinel and the empty item. *)
Lemma script_GetOp_of_pushed_items_witness :
  op_data <$> _script_GetOp
                (concat (push_item <$> [replicate 71 x30; NO_SIGNATURE; []]))
  = [Some (replicate 71 x30); Some NO_SIGNATURE; Some []].
Proof.
  apply (proj1 (script_GetOp_of_pushed_items [replicate 71 x30; NO_SIGNATURE; []])).
  repeat constructor; try (cbn; lia);
    intros (b & E & Hb); try discriminate E.
  injection E as <-. vm_compute in Hb. intuition congruence.
Defined.

(** ** The decoder reaches the end of the script *)

Lemma script_op_at_some (bs : bytes) (i : nat) :
  (i < length bs)%nat ->
  exists d, script_op_at bs i = Some d /\ decoded_op_ok d.
Proof.
  intros Hi. destruct (lookup_lt_is_Some_2 bs i Hi) as [b Hb].
  pose proof (Z_of_byte_range b) as Hrange.
  unfold script_op_at. rewrite Hb.
  destruct (Z.leb_spec (Z_of_byte b) OP_PUSHDATA4).
  - destruct (Z_of_byte b =? OP_PUSHDATA1);
      [|destruct (Z_of_byte b =? OP_PUSHDATA2); [|destruct (Z_of_byte b =? OP_PUSHDATA4)]];
      (eexists; split; [reflexivity|]);
      (split; [exact Hrange|]); cbn; (split; [discriminate|lia]).
  - eexists. split; [reflexivity|]. split; [exact Hrange|]. cbn. tauto.
Qed.

Lemma script_ops_spec (bs : bytes) (n : nat) :
  forall i, (length bs - i <= n)%nat ->
    (length (script_ops bs i) <= length bs - i)%nat
    /\ Forall decoded_op_ok (script_ops bs i)
    /\ (forall d, head (script_ops bs i) = Some d -> (i < d.2)%nat)
    /\ (forall k d d', script_ops bs i !! k = Some d ->
          script_ops bs i !! S k = Some d' -> (d.2 < d'.2)%nat)
    /\ (forall d, last (script_ops bs i) = Some d -> (length bs <= d.2)%nat)
    /\ (script_ops bs i = [] <-> (length bs <= i)%nat).
Proof.
  induction n as [|n IH]; intros i Hn.
  - rewrite script_ops_end by lia.
    cbn [length head last lookup list_lookup].
    split; [lia|]. split; [constructor|].
    repeat split; try discriminate; intros; lia.
  - destruct (le_lt_dec (length bs) i) as [Hend|Hlt].
    + rewrite script_ops_end by lia.
      cbn [length head last lookup list_lookup].
    split; [lia|]. split; [constructor|].
    repeat split; try discriminate; intros; lia.
    + destruct (script_op_at_some bs i Hlt) as (d & Hd & Hok).
      pose proof (script_op_at_advance _ _ _ Hd) as [Hadv _].
      rewrite (script_ops_cons _ _ _ Hd).
      destruct (IH d.2 ltac:(lia)) as (Hlen & Hall & Hhead & Hnext & Hlast & Hnil).
      split; [cbn [length]; lia|]. split; [now constructor|].
      split; [now intros ? [= <-]|]. split; [|split].
      * intros [|k] d1 d2; cbn [lookup list_lookup].
        -- intros [= <-] H2. apply Hhead. now rewrite head_lookup.
        -- apply Hnext.
      * intros d1. destruct (script_ops bs d.2) as [|d2 rest] eqn:Hrest.
        -- intros [= <-]. now apply Hnil.
        -- rewrite last_cons_cons. apply Hlast.
      * split; [discriminate|lia].
Qed.

(** X7. [_script_GetOp] goes through the whole script: it yields at most one
    operation per byte and none only for the empty script, the offsets after
    the operations increase strictly, and the offset after the last one is at
    or beyond the end of the script (beyond, when the last push is truncated).
    Each opcode is a byte, and it has data exactly when it is at most
    OP_PUSHDATA4. *)
Theorem script_GetOp_covers_script (bs : bytes) :
  let ops := _script_GetOp bs in
  (length ops <= length bs)%nat
  /\ (ops = [] <-> bs = [])
  /\ Forall decoded_op_ok ops
  /\ (forall k d d', ops !! k = Some d -> ops !! S k = Some d' -> (d.2 < d'.2)%nat)
  /\ (forall d, last ops = Some d -> (length bs <= d.2)%nat).
Proof.
  cbn zeta. rewrite script_GetOp_ops.
  destruct (script_ops_spec bs (length bs) 0 ltac:(lia))
    as (Hlen & Hall & _ & Hnext & Hlast & Hnil).
  split; [lia|]. split; [|now repeat split].
  rewrite Hnil. destruct bs; cbn [length]; split; intros; try done; lia.
Qed.

(** ** Scripts that [_parse_script_sig] does not recognise *)

Lemma match_decoded_head_mismatch (d : decoded_op) (ds : list decoded_op) (m : Z)
    (ms : list Z) :
  m <> op_code d -> ~ (m = OP_PUSHDATA4 /\ 0 < op_code d <= OP_PUSHDATA4) ->
  _match_decoded (d :: ds) (m :: ms) = false.
Proof.
  intros Hne Hwild. unfold _match_decoded.
  destruct (negb _); [reflexivity|]. cbn [match_decoded_from].
  destruct (Z.eqb_spec m OP_PUSHDATA4) as [Hm|Hm]; cbn [andb].
  - destruct (Z.leb_spec (op_code d) OP_PUSHDATA4); cbn [andb].
    + destruct (Z.ltb_spec 0 (op_code d)); [tauto|].
      now destruct (Z.eqb_spec m (op_code d)).
    + now destruct (Z.eqb_spec m (op_code d)).
  - now destruct (Z.eqb_spec m (op_code d)).
Qed.

Lemma script_GetOp_plain_head (b : byte) (rest : bytes) :
  OP_PUSHDATA4 < Z_of_byte b ->
  exists ds, _script_GetOp (b :: rest) = (Z_of_byte b, None, 1%nat) :: ds.
Proof.
  intros Hb. rewrite script_GetOp_ops. eexists.
  apply (script_ops_cons (b :: rest) 0 (Z_of_byte b, None, 1%nat)).
  unfold script_op_at. cbn [lookup list_lookup].
  now destruct (Z.leb_spec (Z_of_byte b) OP_PUSHDATA4); [lia|].
Qed.

Section unrecognised.
Context `{Bitcoinx}.

(** X8. [_parse_script_sig] returns without raising and without touching
    [kwargs] when the script is empty or begins with an opcode above
    OP_PUSHDATA4: none of the three templates matches. *)
Theorem parse_script_sig_unrecognised (script : bytes) (kw : kwargs) :
  match script with
  | [] => True
  | b :: _ => OP_PUSHDATA4 < Z_of_byte b
  end ->
  _parse_script_sig script kw = Ok kw.
Proof.
  destruct script as [|b rest]; [reflexivity|].
  intros Hb. destruct (script_GetOp_plain_head b rest Hb) as [ds Hds].
  unfold _parse_script_sig. rewrite Hds. unfold OP_PUSHDATA4, OP_0 in *.
  rewrite !match_decoded_head_mismatch by (cbn; lia). reflexivity.
Qed.

End unrecognised.

(** The theorem at the script of an OP_RETURN followed by a push. *)
Lemma parse_script_sig_unrecognised_witness :
  let kw := mkKwargs (H := sample_bitcoinx) [] NoAddress 0 [] in
  _parse_script_sig [x6a; x01; xaa] kw = Ok kw.
Proof.
  intros kw. apply (parse_script_sig_unrecognised [x6a; x01; xaa] kw).
  vm_compute. reflexivity.
Defined.

(** ** The script of a multisig input is parsed back *)

Lemma decoded_tokens_as (start : nat) (ts : list token) :
  Forall2 decodes_as (decoded_tokens start ts) ts.
Proof.
  revert start. induction ts as [|t ts IH]; intros start; cbn [decoded_tokens];
    constructor; [now split|apply IH].
Qed.

Lemma pushed_item_token (x : bytes) :
  pushed_item x ->
  exists hd op, push_item x = hd ++ x /\ push_header hd (length x) op
                /\ 0 < op <= OP_PUSHDATA4.
Proof.
  intros (Hne & Hx & Hlen).
  destruct (push_item_header x Hx Hlen) as (hd & op & E & Hhd & Hop).
  exists hd, op. split; [assumption|]. split; [assumption|].
  split; [|lia]. inversion Hhd; subst; try lia.
  destruct x; [done|cbn [length]; lia].
Qed.

Lemma pushed_items_tokens (items : list bytes) :
  Forall pushed_item items ->
  exists ts, token_bytes <$> ts = push_item <$> items
             /\ Forall token_ok ts
             /\ Forall2 (fun t x => token_data t = Some x
                                    /\ 0 < token_code t <= OP_PUSHDATA4) ts items.
Proof.
  induction 1 as [|x items Hx _ (ts & Hbytes & Hok & Hdata)].
  - exists []. repeat split; constructor.
  - destruct (pushed_item_token x Hx) as (hd & op & E & Hhd & Hop).
    exists (tok_push hd x op :: ts). cbn [fmap list_fmap] in *.
    rewrite E. cbn [token_bytes].
    split; [now f_equal|]. split; [now constructor|].
    constructor; [now split|assumption].
Qed.

Lemma decodes_as_pushes (ds : list decoded_op) (ts : list token) (items : list bytes) :
  Forall2 decodes_as ds ts ->
  Forall2 (fun t x => token_data t = Some x /\ 0 < token_code t <= OP_PUSHDATA4)
    ts items ->
  Forall2 pushes ds items.
Proof.
  intros Hds. revert items.
  induction Hds as [|d t ds ts [Hc Hd] _ IH]; intros items Hitems;
    inversion Hitems as [|? x ? items' [Hdata Hcode] Hrest]; subst;
    constructor; [|now apply IH].
  unfold pushes. now rewrite Hc, Hd.
Qed.

(** The operations decoded from a script made of one token, the pushes of
    items, and more tokens. *)
Lemma script_GetOp_shape (t0 : token) (items : list bytes) (post : list token) :
  token_ok t0 -> Forall pushed_item items -> Forall token_ok post ->
  exists d0 ds dpost,
    _script_GetOp (token_bytes t0 ++ concat (push_item <$> items)
                     ++ concat (token_bytes <$> post))
    = d0 :: ds ++ dpost
    /\ decodes_as d0 t0 /\ Forall2 pushes ds items /\ Forall2 decodes_as dpost post.
Proof.
  intros Ht0 Hitems Hpost.
  destruct (pushed_items_tokens items Hitems) as (ts & Hbytes & Hok & Hdata).
  rewrite <- Hbytes, <- concat_app, <- fmap_app.
  change (token_bytes t0 ++ concat (token_bytes <$> ts ++ post))
    with (concat (token_bytes <$> t0 :: ts ++ post)).
  rewrite script_GetOp_tokens
    by (constructor; [assumption|now apply Forall_app]).
  pose proof (decoded_tokens_as 0 (t0 :: ts ++ post)) as Has.
  apply Forall2_cons_inv_r in Has as (d0 & rest & Hd0 & Hrest & ->).
  apply Forall2_app_inv_r in Hrest as (ds & dpost & Hds & Hdpost & ->).
  exists d0, ds, dpost. repeat split; try assumption; try apply Hd0.
  now apply (decodes_as_pushes ds ts).
Qed.

Lemma push_int_small (v : Z) :
  1 <= v <= 16 -> push_int v = [byte_of_Z (80 + v)].
Proof.
  intros Hv. rewrite <- (Z2Nat.id v) by lia.
  assert (Hk : (1 <= Z.to_nat v <= 16)%nat) by lia.
  generalize dependent (Z.to_nat v). clear Hv v. intros k Hk.
  do 17 (destruct k as [|k]; [try lia; reflexivity|]). lia.
Qed.

Lemma pushes_accepted (ds : list decoded_op) (items : list bytes) :
  Forall2 pushes ds items ->
  Forall2 (fun d m => accepts m (op_code d)) ds (replicate (length ds) OP_PUSHDATA4).
Proof.
  induction 1 as [|d x ds items [_ Hcode] _ IH]; cbn [length replicate];
    constructor; [|assumption].
  left. now split.
Qed.

Lemma pushes_op_bytes (ds : list decoded_op) (items : list bytes) :
  Forall2 pushes ds items -> map op_bytes ds = items.
Proof.
  induction 1 as [|d x ds items [Hdata _] _ IH]; [reflexivity|].
  cbn [map]. unfold op_bytes at 1. rewrite Hdata. cbn [default]. now f_equal.
Qed.

Section multisig.
Context `{Bitcoinx}.

Lemma pushes_keys (ds : list decoded_op) (keys : list XPublicKey) :
  Forall2 pushes ds keys -> Forall key_object keys ->
  result_mapM (fun x => XPublicKey_init (data_arg (op_data x))) ds = Ok keys.
Proof.
  induction 1 as [|d x ds keys [Hdata _] _ IH]; intros Hkeys; [reflexivity|].
  apply Forall_cons in Hkeys as [Hx Hkeys]. cbn [result_mapM].
  unfold key_object, XPublicKey in Hx.
  rewrite Hdata. cbn [data_arg]. now rewrite !result_bind_unfold, Hx, (IH Hkeys).
Qed.

(** The operations [_script_GetOp] yields for the redeem script of [m] of
    the keys: the opcode for [m], a push for each key, the opcode for their
    number, OP_CHECKMULTISIG. *)
Lemma script_GetOp_multisig_script (keys : list XPublicKey) (m : Z) (redeem : bytes) :
  Forall pushed_item keys -> Z.of_nat (length keys) <= 16 ->
  multisig_script keys m = Ok redeem ->
  exists e0 es en eend,
    _script_GetOp redeem = e0 :: es ++ [en; eend]
    /\ op_code e0 = OP_1 + m - 1
    /\ Forall2 pushes es keys
    /\ op_code en = OP_1 + Z.of_nat (length keys) - 1
    /\ op_code eend = OP_CHECKMULTISIG.
Proof.
  unfold XPublicKey in *.
  intros Hkeys Hn. unfold multisig_script, py_assert.
  destruct (Z.leb_spec 1 m); cbn [andb]; [|discriminate].
  match goal with
  | |- context [m <=? ?n] => destruct (Z.leb_spec m n); [|discriminate]
  end.
  monad_unfold. intros [= <-].
  rewrite !push_int_small by lia.
  destruct (script_GetOp_shape (tok_plain (byte_of_Z (80 + m))) keys
              [tok_plain (byte_of_Z (80 + Z.of_nat (length keys))); tok_plain xae])
    as (e0 & es & epost & Hdec & [He0 _] & Hes & Hpost).
  { cbn [token_ok]. rewrite Z_of_byte_of_Z by lia. unfold OP_PUSHDATA4. lia. }
  { assumption. }
  { constructor; [|constructor; [|constructor]]; cbn [token_ok].
    - rewrite Z_of_byte_of_Z by lia. unfold OP_PUSHDATA4. lia.
    - vm_compute. reflexivity. }
  apply Forall2_cons_inv_r in Hpost as (en & rest & [Hen _] & Hrest & ->).
  apply Forall2_cons_inv_r in Hrest as (eend & rest' & [Hend _] & Hnil & ->).
  apply Forall2_nil_inv_r in Hnil as ->.
  exists e0, es, en, eend. split; [exact Hdec|].
  cbn [token_code] in *. rewrite Z_of_byte_of_Z in He0, Hen by lia.
  unfold OP_1, OP_CHECKMULTISIG. repeat split; try assumption; lia.
Qed.

(** A script of OP_0, pushes of signatures and the push of the redeem script
    of [m] of the keys is parsed as that of a P2SH input with these keys,
    this threshold and these signature slots. *)
Lemma parse_script_sig_multisig (sigs : list bytes) (keys : list XPublicKey) (m : Z)
    (redeem : bytes) (kw : kwargs) :
  Forall pushed_item sigs -> Forall pushed_item keys -> Forall key_object keys ->
  Z.of_nat (length keys) <= 16 ->
  multisig_script keys m = Ok redeem -> Z.of_nat (length redeem) < 2 ^ 32 ->
  _parse_script_sig
    ([x00] ++ concat (push_item <$> sigs)
       ++ op_push_bytes (Z.of_nat (length redeem)) ++ redeem) kw
  = Ok (mkKwargs keys (AddressOf (P2SH_Address (hash160 redeem))) m sigs).
Proof.
  intros Hsigs Hkeys Hobj Hn Hredeem Hlen.
  destruct (script_GetOp_multisig_script keys m redeem Hkeys Hn Hredeem)
    as (e0 & es & en & eend & Hdec2 & He0 & Hes & Hen & Hend).
  assert (Hpos : (1 <= length redeem)%nat).
  { apply (f_equal (@length _)) in Hdec2.
    pose proof (proj1 (script_GetOp_covers_script redeem)) as Hle.
    cbn zeta in Hle. rewrite Hdec2 in Hle. cbn [length] in Hle. lia. }
  destruct (op_push_header redeem Hpos Hlen) as (opr & Hhdr & Hopr).
  set (hdr := op_push_bytes _) in *.
  destruct (script_GetOp_shape (tok_push [x00] [] 0) sigs [tok_push hdr redeem opr])
    as (d0 & ds & dpost & Hdec & [Hd0 Hd0data] & Hds & Hpost).
  { apply (push_direct 0). lia. }
  { assumption. }
  { now repeat constructor. }
  apply Forall2_cons_inv_r in Hpost as (dr & rest & [Hdr Hdrdata] & Hnil & ->).
  apply Forall2_nil_inv_r in Hnil as ->.
  cbn [token_bytes token_code token_data fmap list_fmap concat app] in *.
  rewrite app_nil_r in Hdec.
  unfold _parse_script_sig. cbn [app]. rewrite Hdec.
  unfold OP_0, OP_PUSHDATA4 in *.
  rewrite !match_decoded_head_mismatch by (rewrite Hd0; lia).
  assert (Hall : Forall2 pushes (ds ++ [dr]) (sigs ++ [redeem])).
  { apply Forall2_app; [assumption|]. constructor; [|constructor].
    split; [assumption|unfold OP_PUSHDATA4; lia]. }
  replace (length (d0 :: ds ++ [dr]) - 1)%nat with (length (ds ++ [dr]))
    by (cbn [length]; lia).
  rewrite match_decoded_true
    by (constructor; [now right|exact (pushes_accepted _ _ Hall)]).
  cbn [negb].
  assert (Hlast : last_item (d0 :: ds ++ [dr]) = Ok dr).
  { unfold last_item. now rewrite app_comm_cons, last_snoc. }
  assert (Hbytes : op_bytes dr = redeem).
  { unfold op_bytes. now rewrite Hdrdata. }
  rewrite Hlast, result_bind_unfold, Hbytes, Hdec2.
  replace (take (length (e0 :: es ++ [en; eend]) - 3) (drop 1 (e0 :: es ++ [en; eend])))
    with es
    by (cbn [drop length]; rewrite length_app; cbn [length];
        symmetry; apply take_app_length'; lia).
  rewrite (pushes_keys es keys Hes Hobj).
  assert (Hbefore : item_before_last (e0 :: es ++ [en; eend]) = Ok en).
  { unfold item_before_last. cbn [length]. rewrite length_app. cbn [length].
    destruct (Nat.ltb_spec (S (length es + 2)) 2); [lia|].
    change (e0 :: es ++ [en; eend]) with ((e0 :: es) ++ en :: [eend]).
    now rewrite list_lookup_middle by (cbn [length]; lia). }
  monad_unfold. rewrite Hbefore, He0, Hen.
  pose proof (Forall2_length _ _ _ Hes) as Hsame.
  unfold OP_1, OP_CHECKMULTISIG, XPublicKey in *.
  replace (81 + m - 1 - 81 + 1) with m by lia.
  replace (81 + Z.of_nat (length keys) - 1 - 81 + 1) with (Z.of_nat (length es)) by lia.
  rewrite Nat2Z.id.
  rewrite match_decoded_true.
  2:{ constructor; [right; lia|]. apply Forall2_app; [exact (pushes_accepted _ _ Hes)|].
      constructor; [right; lia|]. constructor; [now right|constructor]. }
  cbn [negb]. rewrite Hredeem. f_equal. f_equal.
  replace (take (length (d0 :: ds ++ [dr]) - 2) (drop 1 (d0 :: ds ++ [dr]))) with ds
    by (cbn [drop length]; rewrite length_app; cbn [length];
        symmetry; apply take_app_length'; lia).
  exact (pushes_op_bytes _ _ Hds).
Qed.

Lemma pushed_items_length (items : list bytes) :
  Forall pushed_item items ->
  Z.of_nat (length (concat (push_item <$> items)))
  <= Z.of_nat (length items) * (2 ^ 32 + 5).
Proof.
  induction 1 as [|x items Hx _ IH]; [cbn; lia|].
  destruct (pushed_item_token x Hx) as (hd & op & E & Hhd & _).
  destruct Hx as (_ & _ & Hlen). apply push_header_length in Hhd.
  cbn [fmap list_fmap concat length] in *. rewrite E, !length_app. lia.
Qed.

Lemma siglist_complete (txin : XTxInput) (keys : list XPublicKey) (sig_list : list bytes)
    (a : address_field) :
  get_siglist txin = Ok (keys, sig_list) ->
  kwargs_complete (mkKwargs keys a (threshold txin) sig_list) = is_txin_complete txin.
Proof.
  unfold get_siglist, kwargs_complete. cbn [kw_threshold kw_signatures].
  destruct (is_txin_complete txin) eqn:Hc.
  - rewrite result_bind_unfold. destruct (result_mapM _ _); [|discriminate].
    intros [= _ <-]. unfold txin_signatures_present.
    rewrite list_filter_filter.
    unfold is_txin_complete, txin_signatures_present in Hc. rewrite <- Hc.
    do 3 f_equal. apply list_filter_iff. tauto.
  - intros [= _ <-]. exact Hc.
Qed.

(** X9. The script [input_script] writes for a multisig (P2SH) input is
    parsed back by [_parse_script_sig] to the keys and the signature list it
    was written from ([get_siglist]: all the slots of an incomplete input,
    the signatures present and the realised keys of a complete one), the
    threshold of the input and the address of the redeem script, for up to 16
    keys and as many slots, each pushed as data; the parsed input is as
    complete as the input, and with a previous hash that is not null the
    input has a wire form. *)
Theorem multisig_input_script_parses_back (txin : XTxInput) (a : bytes)
    (keys : list XPublicKey) (sig_list : list bytes) (redeem : bytes) (kw : kwargs) :
  address txin = AddressOf (P2SH_Address a) ->
  get_siglist txin = Ok (keys, sig_list) ->
  Forall pushed_item sig_list -> Forall pushed_item keys -> Forall key_object keys ->
  Z.of_nat (length keys) <= 16 -> Z.of_nat (length sig_list) <= 16 ->
  multisig_script keys (threshold txin) = Ok redeem ->
  Z.of_nat (length redeem) < 2 ^ 32 ->
  (exists script,
     input_script txin = Ok (hex script)
     /\ _parse_script_sig script kw
        = Ok (mkKwargs keys (AddressOf (P2SH_Address (hash160 redeem)))
                (threshold txin) sig_list))
  /\ kwargs_complete (mkKwargs keys (AddressOf (P2SH_Address (hash160 redeem)))
                        (threshold txin) sig_list)
     = is_txin_complete txin
  /\ (prev_hash txin <> replicate 32 x00 -> serializable txin).
Proof.
  intros Haddr Hsiglist Hsigs Hkeys Hobj Hn Hs Hredeem Hlen.
  set (script := [x00] ++ concat (push_item <$> sig_list)
                   ++ op_push_bytes (Z.of_nat (length redeem)) ++ redeem).
  assert (Hscript : input_script txin = Ok (hex script)).
  { unfold input_script, type. rewrite Haddr, Hsiglist, result_bind_unfold.
    rewrite Hredeem, result_bind_unfold, push_script_hex.
    change "00"%string with (hex [x00]). now rewrite <- !hex_app. }
  assert (Hparse : forall kw', _parse_script_sig script kw'
            = Ok (mkKwargs keys (AddressOf (P2SH_Address (hash160 redeem)))
                    (threshold txin) sig_list)).
  { intros kw'. now apply parse_script_sig_multisig. }
  pose proof (siglist_complete txin keys sig_list
                (AddressOf (P2SH_Address (hash160 redeem))) Hsiglist) as Hcomplete.
  split; [exists script; now split|]. split; [exact Hcomplete|].
  intros Hprev. exists script. split; [exact Hscript|]. split.
  - pose proof (pushed_items_length sig_list Hsigs) as Hpushes.
    assert (Hhd : (length (op_push_bytes (Z.of_nat (length redeem))) <= 5)%nat).
    { destruct redeem as [|b redeem'].
      - vm_compute. lia.
      - apply op_push_bytes_length; [cbn [length]; lia|assumption]. }
    subst script. rewrite !length_app. cbn [length]. nia.
  - split; [intros _; now exists (mkKwargs keys (AddressOf (P2SH_Address (hash160 redeem)))
                                   (threshold txin) sig_list)|].
    unfold parsed_kwargs. rewrite bool_decide_true by assumption.
    now rewrite Hparse.
Qed.

End multisig.

(** The theorem at a 2-of-2 multisig input that carries one of its two
    signatures, under the stand-in library. *)
Lemma multisig_input_script_parses_back_witness :
  let keys := [x02 :: replicate 32 x11; x03 :: replicate 32 x22] in
  let sigs := [replicate 71 x30 ++ [x41]; NO_SIGNATURE] in
  let txin :=
    mkXTxInput (H := sample_bitcoinx) (replicate 32 xaa) 0 [] 4294967295 7000 keys
      (AddressOf (P2SH_Address (replicate 20 x07))) 2 sigs in
  exists script redeem,
    input_script txin = Ok (hex script)
    /\ multisig_script keys 2 = Ok redeem
    /\ _parse_script_sig (H := sample_bitcoinx) script no_kwargs
       = Ok (mkKwargs (H := sample_bitcoinx) keys
               (AddressOf (P2SH_Address (hash160 (Bitcoinx := sample_bitcoinx) redeem)))
               2 sigs).
Proof.
  intros keys sigs txin.
  assert (Hitem : forall x : bytes, (2 <= length x)%nat ->
            Z.of_nat (length x) < 2 ^ 32 -> pushed_item x).
  { intros x Hx Hlen. split; [now destruct x|]. split; [|assumption].
    intros (b & -> & _). cbn in Hx. lia. }
  destruct (multisig_script keys 2) as [redeem|] eqn:Hredeem; [|discriminate].
  destruct (proj1 (multisig_input_script_parses_back txin (replicate 20 x07)
                     keys sigs redeem no_kwargs eq_refl eq_refl
                     ltac:(repeat constructor; try (apply Hitem; cbn; lia);
                           try discriminate; try (cbn; lia);
                           intros (b & E & Hb); injection E as <-;
                           vm_compute in Hb; intuition congruence)
                     ltac:(repeat constructor; apply Hitem; cbn; lia)
                     ltac:(repeat constructor)
                     ltac:(cbn; lia) ltac:(cbn; lia) Hredeem
                     ltac:(injection Hredeem as <-; vm_compute; reflexivity)))
    as (script & Hscript & Hparse).
  exists script, redeem. now repeat split.
Defined.

From Stdlib Require Import ZArith Lia.
From Stdlib Require Import Strings.Byte Strings.Ascii Strings.String.
From stdpp Require Import base option list gmap strings pretty.

Open Scope Z_scope.

(** * transaction.py: what a parsed transaction holds *)

Section parsed.
Context `{Bitcoinx}.

Lemma parse_input_complete_value (vds vds' : BCDataStream) (txin : XTxInput) :
  _parse_input vds = (Ok txin, vds') ->
  is_txin_complete txin = true -> txin_value txin = 0.
Proof.
  unfold _parse_input. intros Hrun Hc.
  rewrite stx_bind_unfold in Hrun.
  destruct (read_bytes 32 vds) as [[ph|e] s1]; [|discriminate].
  rewrite stx_bind_unfold in Hrun.
  destruct (read_uint32 s1) as [[idx|e] s2]; [|discriminate].
  rewrite stx_bind_unfold in Hrun.
  destruct (read_compact_size s2) as [[len|e] s3]; [|discriminate].
  rewrite stx_bind_unfold in Hrun.
  destruct (read_bytes len s3) as [[script|e] s4]; [|discriminate].
  rewrite stx_bind_unfold in Hrun.
  destruct (read_uint32 s4) as [[seq|e] s5]; [|discriminate].
  rewrite stx_bind_unfold in Hrun.
  match type of Hrun with
  | match ?m s5 with _ => _ end = _ => destruct (m s5) as [[kw|e] s6]; [|discriminate]
  end.
  match type of Hrun with
  | (if negb (is_txin_complete ?r) then _ else _) _ = _ =>
      destruct (is_txin_complete r) eqn:Hr; cbn [negb] in Hrun
  end.
  - now injection Hrun as <- _.
  - rewrite stx_bind_unfold in Hrun.
    destruct (read_uint64 s6) as [[v|e] s7]; [|discriminate].
    injection Hrun as <- _.
    unfold is_txin_complete, txin_signatures_present in *. cbn in *. congruence.
Qed.

Lemma stx_repeat_Forall {S A} (P : A -> Prop) (m : stx S A) (n : nat) :
  (forall s a s', m s = (Ok a, s') -> P a) ->
  forall s l s', stx_repeat n m s = (Ok l, s') -> Forall P l.
Proof.
  intros Hm. induction n as [|n IH]; intros s l s'; cbn [stx_repeat].
  - intros [= <- _]. constructor.
  - rewrite stx_bind_unfold. destruct (m s) as [[a|e] s1] eqn:Ha; [|discriminate].
    rewrite stx_bind_unfold.
    destruct (stx_repeat n m s1) as [[l'|e] s2] eqn:Hl; [|discriminate].
    intros [= <- _]. constructor; [exact (Hm _ _ _ Ha)|exact (IH _ _ _ Hl)].
Qed.

Lemma deserialize_complete_values (raw_tx : string) (d : tx_dict) :
  deserialize raw_tx = Ok d ->
  Forall (fun txin => is_txin_complete txin = true -> txin_value txin = 0)
    (d_inputs d).
Proof.
  unfold deserialize. rewrite result_bind_unfold.
  destruct (fromhex raw_tx) as [b|]; [|discriminate].
  rewrite stx_bind_unfold.
  destruct (write b (mkStream None 0)) as [[[]|e] s0]; [|discriminate].
  unfold deserialize_stream.
  rewrite stx_bind_unfold. destruct (read_int32 s0) as [[ver|e] s1]; [|discriminate].
  rewrite stx_bind_unfold.
  destruct (read_compact_size s1) as [[n|e] s2]; [|discriminate].
  rewrite lift_bind. destruct (py_assert _) as [[]|e]; [|discriminate].
  rewrite stx_bind_unfold.
  destruct (stx_repeat (Z.to_nat n) _parse_input s2) as [[ins|e] s3] eqn:Hins;
    [|discriminate].
  rewrite stx_bind_unfold.
  destruct (bx_read_list TxOutput_read s3) as [[outs|e] s4]; [|discriminate].
  rewrite stx_bind_unfold.
  destruct (read_uint32 s4) as [[lock|e] s5]; [|discriminate].
  intros [= <-]. cbn [d_inputs].
  apply (stx_repeat_Forall _ _ _
           (fun s a s' => parse_input_complete_value s s' a) _ _ _ Hins).
Qed.

(** X10. Every input [deserialize] returns that is complete has the value 0:
    [_parse_input] reads a value from the buffer only for an input that it
    finds incomplete. *)
Theorem deserialized_complete_inputs_have_value_zero (raw_tx : string) (d : tx_dict)
    (txin : XTxInput) :
  deserialize raw_tx = Ok d -> txin ∈ d_inputs d ->
  is_txin_complete txin = true -> txin_value txin = 0.
Proof.
  intros Hd Hin. pose proof (deserialize_complete_values raw_tx d Hd) as Hall.
  rewrite Forall_forall in Hall. exact (Hall txin Hin).
Qed.

End parsed.

(** The theorem at a transaction of one input with a null previous hash and
    one output of 4000. *)
Lemma deserialized_complete_inputs_have_value_zero_witness :
  let txin :=
    mkXTxInput (H := sample_bitcoinx) (replicate 32 x00) 4294967295 [] 4294967295 0
      [] NoAddress 0 [] in
  let raw_tx :=
    hex (le_bytes 4 1 ++ [x01] ++ replicate 32 x00 ++ le_bytes 4 4294967295 ++ [x00]
           ++ le_bytes 4 4294967295 ++ [x01] ++ le_bytes 8 4000 ++ [x01; x6a]
           ++ le_bytes 4 0) in
  deserialize raw_tx = Ok (mkTxDict 1 [txin] [mkTxOutput 4000 [x6a]] 0)
  /\ txin_value txin = 0.
Proof.
  intros txin raw_tx.
  assert (Hd : deserialize raw_tx = Ok (mkTxDict 1 [txin] [mkTxOutput 4000 [x6a]] 0))
    by (vm_compute; reflexivity).
  split; [exact Hd|].
  apply (deserialized_complete_inputs_have_value_zero raw_tx _ txin Hd);
    [apply list_elem_of_here|reflexivity].
Defined.

Section fee.
Context `{Bitcoinx}.

Lemma py_sum_from (l : list Z) (acc : Z) : fold_left Z.add l acc = acc + py_sum l.
Proof.
  unfold py_sum. revert acc. induction l as [|x l IH]; intros acc; cbn [fold_left].
  - lia.
  - rewrite IH, (IH (0 + x)). lia.
Qed.

Lemma py_sum_cons (x : Z) (l : list Z) : py_sum (x :: l) = x + py_sum l.
Proof. unfold py_sum at 1. cbn [fold_left]. now rewrite py_sum_from. Qed.

Lemma py_sum_app (l1 l2 : list Z) : py_sum (l1 ++ l2) = py_sum l1 + py_sum l2.
Proof.
  induction l1 as [|x l1 IH]; [reflexivity|].
  cbn [app]. rewrite !py_sum_cons, IH. lia.
Qed.

Lemma py_sum_zero (l : list Z) : Forall (fun x => x = 0) l -> py_sum l = 0.
Proof.
  induction 1 as [|x l -> _ IH]; [reflexivity|]. now rewrite py_sum_cons, IH.
Qed.

Lemma get_fee_parsed (tx : Transaction) (ins : list XTxInput) (outs : list TxOutput) :
  _inputs tx = Some ins -> _outputs tx = Some outs ->
  get_fee tx = (Ok (py_sum (txin_value <$> ins) - py_sum (value <$> outs)), tx).
Proof.
  intros Hins Houts. unfold get_fee, input_value, output_value.
  rewrite (stx_bind_ok _ _ tx tx (py_sum (txin_value <$> ins))).
  - rewrite (stx_bind_ok _ _ tx tx (py_sum (value <$> outs))); [reflexivity|].
    rewrite (stx_bind_ok _ _ _ _ _ (outputs_parsed _ _ Hins)), Houts. reflexivity.
  - now rewrite (stx_bind_ok _ _ _ _ _ (inputs_parsed _ _ Hins)).
Qed.

Lemma deserialize_fromhex (raw_tx : string) (d : tx_dict) :
  deserialize raw_tx = Ok d -> exists b, fromhex raw_tx = Ok b.
Proof.
  unfold deserialize. rewrite result_bind_unfold.
  destruct (fromhex raw_tx) as [b|]; [eauto|discriminate].
Qed.

(** X11. A transaction object made from the hexadecimal text of a
    transaction whose inputs all parse as complete reports a fee of minus the
    sum of its outputs: [input_value()] is 0, since the text holds no value
    for a complete input. *)
Theorem get_fee_of_signed_raw (raw_tx : string) (d : tx_dict) :
  deserialize raw_tx = Ok d ->
  Forall (fun txin => is_txin_complete txin = true) (d_inputs d) ->
  exists tx, Transaction_init (Some raw_tx) = Ok tx
    /\ fst (input_value tx) = Ok 0
    /\ fst (get_fee tx) = Ok (- py_sum (value <$> d_outputs d)).
Proof.
  intros Hd Hall. destruct (deserialize_fromhex _ _ Hd) as [b Hb].
  exists (mkTransaction (Some raw_tx) None None 0 1).
  split; [unfold Transaction_init; now rewrite Hb|].
  set (tx1 := mkTransaction (Some raw_tx) (Some (d_inputs d)) (Some (d_outputs d))
                (d_lockTime d) (d_version d)).
  assert (Hins : inputs (mkTransaction (Some raw_tx) None None 0 1)
                 = (Ok (Some (d_inputs d)), tx1)).
  { unfold inputs. cbn [_inputs]. monad_unfold. unfold Transaction_deserialize.
    cbn [raw _inputs]. now rewrite Hd. }
  assert (Hzero : py_sum (txin_value <$> d_inputs d) = 0).
  { apply py_sum_zero. apply Forall_fmap.
    pose proof (deserialize_complete_values _ _ Hd) as Hval.
    rewrite Forall_forall in *. intros txin Hin. cbn. auto. }
  assert (Hiv : input_value (mkTransaction (Some raw_tx) None None 0 1) = (Ok 0, tx1)).
  { unfold input_value. rewrite (stx_bind_ok _ _ _ _ _ Hins). cbn [iterable].
    rewrite lift_bind. cbn. now rewrite Hzero. }
  split; [now rewrite Hiv|].
  unfold get_fee. rewrite (stx_bind_ok _ _ _ _ _ Hiv).
  unfold output_value.
  rewrite (stx_bind_ok _ _ tx1 tx1 (py_sum (value <$> d_outputs d))); [reflexivity|].
  now rewrite (stx_bind_ok _ _ _ _ _ (outputs_parsed tx1 _ eq_refl)).
Qed.

End fee.

(** The theorem at the transaction above: the fee reported is -4000. *)
Lemma get_fee_of_signed_raw_witness :
  let raw_tx :=
    hex (le_bytes 4 1 ++ [x01] ++ replicate 32 x00 ++ le_bytes 4 4294967295 ++ [x00]
           ++ le_bytes 4 4294967295 ++ [x01] ++ le_bytes 8 4000 ++ [x01; x6a]
           ++ le_bytes 4 0) in
  exists tx, Transaction_init (Some raw_tx) = Ok tx
    /\ fst (input_value (H := sample_bitcoinx) tx) = Ok 0
    /\ fst (get_fee tx) = Ok (- 4000).
Proof.
  intros raw_tx.
  set (d := mkTxDict (H := sample_bitcoinx) 1
              [mkXTxInput (replicate 32 x00) 4294967295 [] 4294967295 0 [] NoAddress 0 []]
              [mkTxOutput 4000 [x6a]] 0).
  assert (Hd : deserialize raw_tx = Ok d) by (vm_compute; reflexivity).
  exact (get_fee_of_signed_raw raw_tx d Hd ltac:(repeat constructor)).
Defined.

(** * transaction.py: completeness of the inputs and of the transaction *)

Section all_complete.
Context `{Bitcoinx}.

Lemma total_present_cons (txin : XTxInput) (ins : list XTxInput) :
  total_present (txin :: ins)
  = Z.of_nat (length (txin_signatures_present txin)) + total_present ins.
Proof. unfold total_present. cbn [flat_map]. rewrite length_app. lia. Qed.

Lemma totals_none_oversigned (ins : list XTxInput) :
  Forall (fun txin => Z.of_nat (length (txin_signatures_present txin))
                      <= threshold txin) ins ->
  total_present ins <= total_threshold ins
  /\ (total_threshold ins =? total_present ins) = forallb is_txin_complete ins.
Proof.
  induction 1 as [|txin ins Hle _ [IHle IHeq]]; [split; [unfold total_present; cbn; lia|reflexivity]|].
  rewrite total_present_cons. cbn [total_threshold forallb].
  split; [lia|]. unfold is_txin_complete at 1.
  destruct (Z.leb_spec (threshold txin)
              (Z.of_nat (length (txin_signatures_present txin)))); cbn [andb].
  - rewrite <- IHeq.
    destruct (Z.eqb_spec (total_threshold ins) (total_present ins));
      [apply Z.eqb_eq|apply Z.eqb_neq]; lia.
  - apply Z.eqb_neq. lia.
Qed.

(** X12. When no input carries more signatures than its threshold,
    [is_complete()] is true exactly when every input is complete. *)
Theorem is_complete_iff_every_input_complete (tx : Transaction) (ins : list XTxInput) :
  _inputs tx = Some ins ->
  Forall (fun txin => Z.of_nat (length (txin_signatures_present txin))
                      <= threshold txin) ins ->
  fst (is_complete tx) = Ok (forallb is_txin_complete ins).
Proof.
  intros Hins Hle. rewrite (is_complete_parsed _ _ Hins). cbn [fst].
  now rewrite (proj2 (totals_none_oversigned ins Hle)).
Qed.

End all_complete.

(** The theorem at two P2PKH inputs, one signed and one not: the transaction
    is not complete. With an input that carries two signatures for a
    threshold of 1 beside the unsigned one, outside the theorem, the totals
    are equal and [is_complete()] is true. *)
Lemma is_complete_iff_every_input_complete_witness :
  let key := x02 :: replicate 32 x11 in
  let sig := replicate 71 x30 ++ [x41] in
  let input sigs :=
    mkXTxInput (H := sample_bitcoinx) (replicate 32 xaa) 0 [] 4294967295 5000 [key]
      (AddressOf (P2PKH_Address (replicate 20 x07))) 1 sigs in
  let tx ins := mkTransaction None (Some ins) (Some []) 0 1 in
  fst (is_complete (tx [input [sig]; input [NO_SIGNATURE]])) = Ok false
  /\ fst (is_complete (tx [input [sig; sig]; input [NO_SIGNATURE]])) = Ok true.
Proof.
  intros key sig input tx. split; [|reflexivity].
  apply (is_complete_iff_every_input_complete
           (tx [input [sig]; input [NO_SIGNATURE]])
           [input [sig]; input [NO_SIGNATURE]] eq_refl).
  repeat constructor; vm_compute; discriminate.
Defined.

(** * transaction.py: what [serialize] returns *)

Section serialize_text.
Context `{Bitcoinx}.

Lemma input_script_is_hex (txin : XTxInput) (s : string) :
  input_script txin = Ok s -> exists b, s = hex b.
Proof.
  unfold input_script.
  destruct (type txin); try (intros [= <-]; eauto);
    rewrite result_bind_unfold;
    (destruct (get_siglist txin) as [[keys sigs]|]; [|discriminate]).
  - destruct keys as [|k keys]; [discriminate|]. intros [= <-].
    rewrite push_script_hex, <- hex_app. eauto.
  - rewrite result_bind_unfold.
    destruct (multisig_script keys (threshold txin)) as [redeem|]; [|discriminate].
    intros [= <-]. rewrite push_script_hex.
    change "00"%string with (hex [x00]). rewrite <- !hex_app. eauto.
  - intros [= <-]. eauto.
Qed.

Lemma serialized_inputs_are_hex (ins : list XTxInput) (parts : list string) :
  result_mapM (fun txin => script ← input_script txin; Ok (serialize_input txin script)) ins
  = Ok parts ->
  exists bs, parts = hex <$> bs.
Proof.
  revert parts. induction ins as [|txin ins IH]; intros parts; cbn [result_mapM].
  - intros [= <-]. now exists [].
  - rewrite !result_bind_unfold.
    destruct (input_script txin) as [s|] eqn:Hs; [|discriminate].
    destruct (input_script_is_hex _ _ Hs) as [b ->].
    destruct (result_mapM _ ins) as [parts'|]; [|discriminate].
    destruct (IH parts' eq_refl) as [bs ->].
    intros [= <-]. exists (input_bytes txin b :: bs).
    cbn [fmap list_fmap]. now rewrite serialize_input_hex.
Qed.

Lemma serialize_text_is_hex (ver lock : Z) (ins : list XTxInput)
    (outs : option (list TxOutput)) (text : string) :
  serialize_text ver lock ins outs = Ok text -> exists b, text = hex b.
Proof.
  unfold serialize_text. rewrite result_bind_unfold.
  destruct (result_mapM _ ins) as [parts|] eqn:Hparts; [|discriminate].
  destruct (serialized_inputs_are_hex _ _ Hparts) as [bs ->].
  rewrite result_bind_unfold. destruct (iterable outs) as [outs'|]; [|discriminate].
  rewrite result_bind_unfold.
  destruct (result_mapM TxOutput_to_bytes outs') as [out_bytes|]; [|discriminate].
  intros [= <-]. unfold int_to_hex, var_int.
  rewrite <- hex_concat, <- !hex_app. eauto.
Qed.

(** [serialize()] on a transaction not yet parsed: the version and the
    locktime are read before [inputs()] parses the text. *)
Lemma serialize_unparsed (tx : Transaction) (r : string) (d : tx_dict) :
  raw tx = Some r -> _inputs tx = None -> deserialize r = Ok d ->
  serialize tx
  = (serialize_text (version tx) (locktime tx) (d_inputs d) (Some (d_outputs d)),
     mkTransaction (Some r) (Some (d_inputs d)) (Some (d_outputs d))
       (d_lockTime d) (d_version d)).
Proof.
  intros Hraw Hins Hd.
  set (tx1 := mkTransaction (Some r) (Some (d_inputs d)) (Some (d_outputs d))
                (d_lockTime d) (d_version d)).
  assert (Hrun : inputs tx = (Ok (Some (d_inputs d)), tx1)).
  { unfold inputs. rewrite Hins. monad_unfold. unfold Transaction_deserialize.
    now rewrite Hraw, Hins, Hd. }
  unfold serialize, serialize_text.
  rewrite stx_bind_unfold. cbn [get_state].
  rewrite (stx_bind_ok _ _ _ _ _ Hrun).
  rewrite (stx_bind_ok _ _ _ _ _ (outputs_parsed tx1 _ eq_refl)).
  monad_unfold. cbn [iterable _outputs tx1].
  destruct (result_mapM _ (d_inputs d)); [|reflexivity].
  destruct (result_mapM TxOutput_to_bytes (d_outputs d)); reflexivity.
Qed.

Lemma inputs_fail (tx : Transaction) (r : string) (e : exn) :
  raw tx = Some r -> _inputs tx = None -> deserialize r = Err e ->
  inputs tx = (Err e, tx).
Proof.
  intros Hraw Hins Hd. unfold inputs. rewrite Hins. monad_unfold.
  unfold Transaction_deserialize. now rewrite Hraw, Hins, Hd.
Qed.

Lemma inputs_without_raw (tx : Transaction) :
  raw tx = None -> inputs tx = (Ok (_inputs tx), tx).
Proof.
  intros Hraw. unfold inputs. destruct (_inputs tx) eqn:Hins; [reflexivity|].
  monad_unfold. unfold Transaction_deserialize. now rewrite Hraw, Hins.
Qed.

Lemma outputs_without_raw (tx : Transaction) :
  raw tx = None -> outputs tx = (Ok (_outputs tx), tx).
Proof.
  intros Hraw. unfold outputs. destruct (_outputs tx) eqn:Houts; [reflexivity|].
  monad_unfold. unfold Transaction_deserialize. now rewrite Hraw, Houts.
Qed.

Lemma serialize_run (tx tx' : Transaction) (text : string) :
  serialize tx = (Ok text, tx') ->
  exists ins, serialize_text (version tx) (locktime tx) ins (_outputs tx') = Ok text.
Proof.
  destruct (_inputs tx) as [ins|] eqn:Hins.
  - rewrite (serialize_parsed _ _ Hins). intros [= Htext <-]. eauto.
  - destruct (raw tx) as [r|] eqn:Hraw.
    + destruct (deserialize r) as [d|e] eqn:Hd.
      * rewrite (serialize_unparsed _ _ _ Hraw Hins Hd). intros [= Htext <-]. eauto.
      * unfold serialize. rewrite stx_bind_unfold. cbn [get_state].
        now rewrite (stx_bind_err _ _ _ _ _ (inputs_fail _ _ _ Hraw Hins Hd)).
    + unfold serialize. rewrite stx_bind_unfold. cbn [get_state].
      rewrite (stx_bind_ok _ _ _ _ _ (inputs_without_raw _ Hraw)).
      rewrite (stx_bind_ok _ _ _ _ _ (outputs_without_raw _ Hraw)).
      now rewrite Hins, lift_bind.
Qed.

(** X13. What [serialize()] returns is hexadecimal text: it is the [hex()]
    of a byte string, so [bytes.fromhex] gives the bytes back and
    [Transaction(...)] accepts it. *)
Theorem serialize_returns_hex (tx tx' : Transaction) (text : string) :
  serialize tx = (Ok text, tx') ->
  exists b, text = hex b /\ fromhex text = Ok b
            /\ Transaction_init (Some text) = Ok (mkTransaction (Some text) None None 0 1).
Proof.
  intros Hrun. destruct (serialize_run _ _ _ Hrun) as [ins Htext].
  destruct (serialize_text_is_hex _ _ _ _ _ Htext) as [b ->].
  exists b. split; [reflexivity|]. split; [apply fromhex_hex|].
  unfold Transaction_init. now rewrite fromhex_hex.
Qed.

(** X14. [serialize()] on a transaction made from hexadecimal text and not
    parsed yet writes the version and the locktime the object has then (1 and
    0 after the constructor), not those of the text: it reads them before
    [inputs()] parses the text and sets them. A second call writes those of
    the text. *)
Theorem serialize_before_parsing (tx : Transaction) (r : string) (d : tx_dict) :
  raw tx = Some r -> _inputs tx = None -> deserialize r = Ok d ->
  let ins := d_inputs d in
  let outs := Some (d_outputs d) in
  fst (serialize tx) = serialize_text (version tx) (locktime tx) ins outs
  /\ fst (serialize (snd (serialize tx)))
     = serialize_text (d_version d) (d_lockTime d) ins outs.
Proof.
  intros Hraw Hins Hd. cbn zeta.
  rewrite (serialize_unparsed _ _ _ Hraw Hins Hd). cbn [fst snd].
  split; [reflexivity|].
  now rewrite (serialize_parsed
                 (mkTransaction (Some r) (Some (d_inputs d)) (Some (d_outputs d))
                    (d_lockTime d) (d_version d))
                 (d_inputs d) eq_refl).
Qed.

End serialize_text.

(** The theorem at a fully signed P2PKH transaction. *)
Lemma serialize_returns_hex_witness :
  let key := x02 :: replicate 32 x11 in
  let txin :=
    mkXTxInput (H := sample_bitcoinx) (replicate 32 xaa) 1 [] 4294967295 5000 [key]
      (AddressOf (P2PKH_Address (replicate 20 x07))) 1 [replicate 71 x30 ++ [x41]] in
  let tx := mkTransaction None (Some [txin]) (Some [mkTxOutput 4000 [x6a]]) 0 1 in
  exists text b,
    fst (serialize tx) = Ok text /\ text = hex b /\ fromhex text = Ok b.
Proof.
  intros key txin tx.
  destruct (serialize tx) as [[text|e] tx'] eqn:Hrun;
    [|vm_compute in Hrun; discriminate Hrun].
  destruct (serialize_returns_hex tx tx' text Hrun) as (b & Hhex & Hfrom & _).
  now exists text, b.
Defined.

(** The theorem at the text of a transaction of version 2 and locktime 500:
    the first [serialize()] of the object made from the text does not give
    the text back, the second does. *)
Lemma serialize_before_parsing_witness :
  let raw_tx :=
    hex (le_bytes 4 2 ++ [x01] ++ replicate 32 x00 ++ le_bytes 4 4294967295 ++ [x00]
           ++ le_bytes 4 4294967295 ++ [x01] ++ le_bytes 8 4000 ++ [x01; x6a]
           ++ le_bytes 4 500) in
  let tx := mkTransaction (Some raw_tx) None None 0 1 in
  Transaction_init (Some raw_tx) = Ok tx
  /\ fst (serialize (H := sample_bitcoinx) tx) <> Ok raw_tx
  /\ fst (serialize (snd (serialize (H := sample_bitcoinx) tx))) = Ok raw_tx.
Proof.
  intros raw_tx tx.
  set (d := mkTxDict (H := sample_bitcoinx) 2
              [mkXTxInput (replicate 32 x00) 4294967295 [] 4294967295 0 [] NoAddress 0 []]
              [mkTxOutput 4000 [x6a]] 500).
  assert (Hd : deserialize raw_tx = Ok d) by (vm_compute; reflexivity).
  destruct (serialize_before_parsing tx raw_tx d eq_refl eq_refl Hd) as [H1 H2].
  split; [vm_compute; reflexivity|]. split.
  - rewrite H1. vm_compute. discriminate.
  - rewrite H2. vm_compute. reflexivity.
Defined.

(** * transaction.py: growing a transaction *)

Section growing.
Context `{Bitcoinx}.

Lemma total_present_app (l1 l2 : list XTxInput) :
  total_present (l1 ++ l2) = total_present l1 + total_present l2.
Proof.
  induction l1 as [|txin l1 IH]; [unfold total_present; cbn; lia|].
  cbn [app]. rewrite !total_present_cons, IH. lia.
Qed.

Lemma total_threshold_app (l1 l2 : list XTxInput) :
  total_threshold (l1 ++ l2) = total_threshold l1 + total_threshold l2.
Proof.
  induction l1 as [|txin l1 IH]; [reflexivity|].
  cbn [app total_threshold]. rewrite IH. lia.
Qed.

(** X15. [add_inputs(inputs)] on a transaction whose inputs are parsed
    appends the inputs and forgets the raw text; the signature count
    afterwards is the sum of the counts of the old and of the new inputs.
    On a transaction whose inputs are not parsed yet, also one made from
    hexadecimal text, it raises [AttributeError] and changes nothing: it does
    not parse the text first. *)
Theorem add_inputs_extends (new : list XTxInput) (tx : Transaction) :
  (forall ins, _inputs tx = Some ins ->
     let tx' := snd (add_inputs new tx) in
     fst (add_inputs new tx) = Ok tt
     /\ raw tx' = None
     /\ inputs tx' = (Ok (Some (ins ++ new)), tx')
     /\ fst (signature_count tx')
        = Ok (total_present ins + total_present new,
              total_threshold ins + total_threshold new))
  /\ (_inputs tx = None ->
      add_inputs new tx = (Err (AttributeError "extend"), tx)).
Proof.
  split.
  - intros ins Hins. unfold add_inputs. rewrite Hins. cbn [fst snd raw].
    split; [reflexivity|]. split; [reflexivity|]. split; [reflexivity|].
    match goal with
    | |- context [signature_count ?t] =>
        rewrite (signature_count_parsed t (ins ++ new) eq_refl)
    end.
    cbn [fst].
    now rewrite total_present_app, total_threshold_app.
  - intros Hins. unfold add_inputs. now rewrite Hins.
Qed.

(** X16. On a transaction whose inputs and outputs are parsed,
    [add_outputs(outputs)] lowers the fee [get_fee()] reports by the sum of
    the values of the outputs added. *)
Theorem add_outputs_lowers_fee (new : list TxOutput) (tx : Transaction)
    (ins : list XTxInput) (outs : list TxOutput) :
  _inputs tx = Some ins -> _outputs tx = Some outs ->
  exists fee,
    fst (get_fee tx) = Ok fee
    /\ fst (get_fee (snd (add_outputs new tx))) = Ok (fee - py_sum (value <$> new)).
Proof.
  intros Hins Houts. eexists.
  rewrite (get_fee_parsed tx ins outs Hins Houts). split; [reflexivity|].
  unfold add_outputs. rewrite Houts, Hins. cbn [snd].
  match goal with
  | |- context [get_fee ?t] =>
      rewrite (get_fee_parsed t ins (outs ++ new) eq_refl eq_refl)
  end.
  cbn [fst].
  rewrite fmap_app, py_sum_app. f_equal. lia.
Qed.

(** X17. [Transaction.from_io] never returns a transaction: it calls the
    constructor with [None], and [bytes.fromhex(None)] raises [TypeError]. *)
Theorem from_io_raises (ins : list XTxInput) (outs : list TxOutput) (lock : Z) :
  from_io ins outs lock = Err TypeError.
Proof. reflexivity. Qed.

(** X18. [update(raw)] with a text that [deserialize] accepts replaces the
    inputs, the outputs, the locktime and the version by those of the text.
    With a text that [deserialize] rejects it raises, and leaves the object
    with the new text, no inputs, and the outputs, the locktime and the
    version of the old transaction: [inputs()] raises again, while
    [outputs()] still returns the old outputs. *)
Theorem update_replaces_or_keeps_outputs (new_raw : string) (tx : Transaction) :
  match deserialize new_raw with
  | Ok d =>
      update new_raw tx
      = (Ok tt, mkTransaction (Some new_raw) (Some (d_inputs d)) (Some (d_outputs d))
                  (d_lockTime d) (d_version d))
  | Err e =>
      let tx' := mkTransaction (Some new_raw) None (_outputs tx) (locktime tx)
                   (version tx) in
      update new_raw tx = (Err e, tx')
      /\ inputs tx' = (Err e, tx')
      /\ (forall outs, _outputs tx = Some outs -> outputs tx' = (Ok (Some outs), tx'))
  end.
Proof.
  unfold update, Transaction_deserialize. cbn [raw _inputs].
  destruct (deserialize new_raw) as [d|e] eqn:Hd; [reflexivity|].
  cbn zeta. split; [reflexivity|]. split.
  - now apply (inputs_fail _ new_raw).
  - intros outs Houts. unfold outputs. cbn [_outputs]. now rewrite Houts.
Qed.

End growing.

(** The last theorem at a parsed transaction updated with a text that is not
    hexadecimal: the call raises, and the outputs of the old transaction are
    still returned. *)
Lemma update_replaces_or_keeps_outputs_witness :
  let outs := [mkTxOutput 4000 [x6a]] in
  let tx := mkTransaction (H := sample_bitcoinx) (Some "00") (Some []) (Some outs) 0 1 in
  let tx' := mkTransaction (H := sample_bitcoinx) (Some "zz") None (Some outs) 0 1 in
  update "zz" tx = (Err ValueError, tx')
  /\ outputs tx' = (Ok (Some outs), tx').
Proof.
  intros outs tx tx'.
  pose proof (update_replaces_or_keeps_outputs (H := sample_bitcoinx) "zz" tx) as Hup.
  assert (Hd : deserialize (H := sample_bitcoinx) "zz" = Err ValueError)
    by (vm_compute; reflexivity).
  rewrite Hd in Hup.
  destruct Hup as (Hrun & _ & Houts). split; [exact Hrun|exact (Houts outs eq_refl)].
Defined.

(** The first theorem at a transaction of one signed P2PKH input, to which an
    unsigned one is added. *)
Lemma add_inputs_extends_witness :
  let key := x02 :: replicate 32 x11 in
  let input sigs :=
    mkXTxInput (H := sample_bitcoinx) (replicate 32 xaa) 0 [] 4294967295 5000 [key]
      (AddressOf (P2PKH_Address (replicate 20 x07))) 1 sigs in
  let tx := mkTransaction (Some "00"%string)
              (Some [input [replicate 71 x30 ++ [x41]]]) (Some []) 0 1 in
  let tx' := snd (add_inputs [input [NO_SIGNATURE]] tx) in
  raw tx' = None /\ fst (signature_count tx') = Ok (1, 2).
Proof.
  intros key input tx tx'.
  destruct (proj1 (add_inputs_extends [input [NO_SIGNATURE]] tx)
              [input [replicate 71 x30 ++ [x41]]] eq_refl) as (_ & Hraw & _ & Hcount).
  split; [exact Hraw|exact Hcount].
Defined.

(** The second at a transaction of value 5000 in and 4000 out, to which an
    output of 300 is added. *)
Lemma add_outputs_lowers_fee_witness :
  let txin :=
    mkXTxInput (H := sample_bitcoinx) (replicate 32 xaa) 0 [] 4294967295 5000 []
      NoAddress 0 [] in
  let tx := mkTransaction None (Some [txin]) (Some [mkTxOutput 4000 [x6a]]) 0 1 in
  exists fee,
    fst (get_fee tx) = Ok fee
    /\ fst (get_fee (snd (add_outputs [mkTxOutput 300 [x51]] tx))) = Ok (fee - 300).
Proof.
  intros txin tx.
  exact (add_outputs_lowers_fee [mkTxOutput 300 [x51]] tx [txin]
           [mkTxOutput 4000 [x6a]] eq_refl eq_refl).
Defined.

(** * transaction.py: signature slots and keys *)

Section slots.
Context `{Bitcoinx}.

Lemma full_signature_not_sentinel (sig : bytes) : full_signature sig <> NO_SIGNATURE.
Proof.
  unfold full_signature, NO_SIGNATURE. destruct sig as [|a [|b sig]]; discriminate.
Qed.

Lemma without_last_full_signature (sig : bytes) : without_last (full_signature sig) = sig.
Proof.
  unfold without_last, full_signature. rewrite length_app. cbn [length].
  replace (length sig + 1 - 1)%nat with (length sig) by lia.
  apply take_app_length.
Qed.

(** X19. [txin_stripped_signatures_with_blanks] undoes what
    [update_signatures] does to a signature: for an input whose slots hold
    either the sentinel or a signature followed by the hash-type byte 0x41,
    it returns the empty string for the former and the signature for the
    latter, slot by slot. *)
Theorem stripped_signatures_of_slots (txin : XTxInput) (slots : list (option bytes)) :
  signatures txin
  = (fun slot => match slot with
                 | Some sig => full_signature sig
                 | None => NO_SIGNATURE
                 end) <$> slots ->
  txin_stripped_signatures_with_blanks txin = default [] <$> slots.
Proof.
  intros Hsigs. unfold txin_stripped_signatures_with_blanks. rewrite Hsigs.
  rewrite <- list_fmap_compose. apply list_fmap_ext. intros i [sig|] _; cbn.
  - rewrite bool_decide_false by apply full_signature_not_sentinel.
    apply without_last_full_signature.
  - reflexivity.
Qed.

Lemma unused_length (keys : list XPublicKey) (sigs : list bytes) :
  length keys = length sigs ->
  (length (filter (fun p : XPublicKey * bytes => p.2 = NO_SIGNATURE) (zip keys sigs))
   + length (filter (fun sig => sig <> NO_SIGNATURE) sigs))%nat
  = length sigs.
Proof.
  revert sigs. induction keys as [|k keys IH]; intros [|sig sigs] Hlen;
    try discriminate; [reflexivity|].
  injection Hlen as Hlen. specialize (IH sigs Hlen).
  cbn [zip zip_with]. rewrite !filter_cons. cbn [snd].
  destruct (decide (sig = NO_SIGNATURE)); destruct (decide (sig <> NO_SIGNATURE));
    try contradiction; cbn [length]; lia.
Qed.

(** X20. [txin_unused_x_pubkeys] is empty for a complete input. For an
    incomplete input with as many keys as signature slots, it returns keys of
    the input, as many as there are empty slots: their number and the number
    of signatures present add up to the number of slots. *)
Theorem unused_x_pubkeys_count (txin : XTxInput) :
  length (x_pubkeys txin) = length (signatures txin) ->
  if is_txin_complete txin then txin_unused_x_pubkeys txin = []
  else (length (txin_unused_x_pubkeys txin)
        + length (txin_signatures_present txin))%nat = length (signatures txin)
       /\ txin_unused_x_pubkeys txin ⊆ x_pubkeys txin.
Proof.
  intros Hlen. unfold txin_unused_x_pubkeys.
  destruct (is_txin_complete txin); [reflexivity|].
  split.
  - rewrite length_fmap. unfold txin_signatures_present. now apply unused_length.
  - intros k Hk. apply list_elem_of_fmap in Hk as ([k' sig] & -> & Hin).
    apply list_elem_of_filter in Hin as [_ Hin].
    apply elem_of_zip_l in Hin. exact Hin.
Qed.

(** [bytes.fromhex] raises nothing but [ValueError]. *)
Lemma fromhex_raises (n : nat) :
  forall (s : string) (e : exn),
    (String.length s <= n)%nat -> fromhex s = Err e -> e = ValueError.
Proof.
  induction n as [|n IH]; intros [|c1 s1] e Hn; cbn [String.length] in Hn;
    try discriminate; try lia.
  cbn [fromhex]. destruct (is_space c1); [apply IH; lia|].
  destruct s1 as [|c2 s2]; [congruence|]. cbn [String.length] in Hn.
  destruct (hexval c1), (hexval c2); try congruence.
  rewrite result_bind_unfold.
  destruct (fromhex s2) as [rest|e'] eqn:Hrest; [discriminate|].
  intros [= <-]. apply (IH s2); [lia|assumption].
Qed.

(** X21. [XPublicKey(raw)] raises [TypeError] when [raw] is neither bytes nor
    text, and [IndexError], which the constructor does not turn into
    [ValueError], when [raw] is empty bytes or the empty text. It never
    raises [AssertionError]: a first byte other than 2, 3, 4, 0xfd, 0xfe,
    0xff, and an extended key of a length other than 83 (0xff) or 69 (0xfe)
    bytes, raise [ValueError]. Text that [bytes.fromhex] rejects raises
    [ValueError]; text it accepts gives what the decoded bytes give. When
    the constructor returns, the object holds [raw] itself if [raw] is bytes
    and the decoded bytes if it is text, and [to_public_key()] succeeds on
    what it holds. *)
Theorem XPublicKey_init_outcomes (raw_key : bytes) (text : string) :
  XPublicKey_init RawOther = Err TypeError
  /\ XPublicKey_init (RawBytes []) = Err IndexError
  /\ XPublicKey_init (RawStr EmptyString) = Err IndexError
  /\ (forall raw, XPublicKey_init raw <> Err AssertionError)
  /\ (forall k rest, raw_key = k :: rest ->
        ~ (2 <= Z_of_byte k <= 4) -> ~ (253 <= Z_of_byte k <= 255) ->
        XPublicKey_init (RawBytes raw_key) = Err ValueError)
  /\ (forall k rest, raw_key = k :: rest ->
        (Z_of_byte k = 255 /\ length raw_key <> 83%nat)
        \/ (Z_of_byte k = 254 /\ length raw_key <> 69%nat) ->
        XPublicKey_init (RawBytes raw_key) = Err ValueError)
  /\ (forall e, fromhex text = Err e -> XPublicKey_init (RawStr text) = Err ValueError)
  /\ (forall b, fromhex text = Ok b ->
        XPublicKey_init (RawStr text) = XPublicKey_init (RawBytes b))
  /\ (forall x, XPublicKey_init (RawBytes raw_key) = Ok x ->
        x = raw_key /\ is_Ok (to_public_key x) = true)
  /\ (forall x, XPublicKey_init (RawStr text) = Ok x ->
        fromhex text = Ok x /\ is_Ok (to_public_key x) = true).
Proof.
  assert (Hbytes : forall b x, XPublicKey_init (RawBytes b) = Ok x ->
                     x = b /\ is_Ok (to_public_key x) = true).
  { intros b x. unfold XPublicKey_init. rewrite !result_bind_unfold.
    destruct (to_public_key b) as [r|[]] eqn:Hr; try discriminate.
    intros [= <-]. rewrite Hr. split; reflexivity. }
  assert (Htext : forall b, fromhex text = Ok b ->
                    XPublicKey_init (RawStr text) = XPublicKey_init (RawBytes b)).
  { intros b Hb. unfold XPublicKey_init. now rewrite Hb. }
  split; [reflexivity|]. split; [reflexivity|]. split; [reflexivity|].
  split; [|split; [|split; [|split; [|split; [|split]]]]].
  - intros [b|s|]; unfold XPublicKey_init; [| |discriminate].
    + rewrite !result_bind_unfold. destruct (to_public_key b) as [r|[]]; discriminate.
    + destruct (fromhex s) as [b|e] eqn:Hs.
      * rewrite !result_bind_unfold. destruct (to_public_key b) as [r|[]]; discriminate.
      * rewrite (fromhex_raises _ s e (Nat.le_refl _) Hs). discriminate.
  - intros k rest -> Hlow Hhigh. unfold XPublicKey_init, to_public_key, getitem.
    rewrite !result_bind_unfold. cbn [lookup list_lookup].
    repeat match goal with
           | |- context [Z_of_byte k =? ?n] => destruct (Z.eqb_spec (Z_of_byte k) n); [lia|]
           end.
    reflexivity.
  - intros k rest -> Hk. unfold XPublicKey_init, to_public_key, getitem.
    rewrite !result_bind_unfold. cbn [lookup list_lookup].
    destruct Hk as [[Hk Hlen]|[Hk Hlen]]; rewrite Hk; cbn [Z.eqb Pos.eqb orb];
      rewrite bool_decide_false by assumption; reflexivity.
  - intros e He. unfold XPublicKey_init.
    rewrite He, (fromhex_raises _ text e (Nat.le_refl _) He). reflexivity.
  - exact Htext.
  - apply Hbytes.
  - intros x Hx. destruct (fromhex text) as [b|e] eqn:Hb.
    + rewrite (Htext b eq_refl) in Hx. destruct (Hbytes b x Hx) as [-> Hok].
      split; [reflexivity|assumption].
    + exfalso. unfold XPublicKey_init in Hx. rewrite Hb in Hx.
      rewrite (fromhex_raises _ text e (Nat.le_refl _) Hb) in Hx. discriminate.
Qed.

End slots.

(** The first theorem at an input with a signed and an empty slot. *)
Lemma stripped_signatures_of_slots_witness :
  let txin :=
    mkXTxInput (H := sample_bitcoinx) (replicate 32 xaa) 0 [] 4294967295 5000 []
      (AddressOf (P2SH_Address (replicate 20 x07))) 2
      [replicate 71 x30 ++ [x41]; NO_SIGNATURE] in
  txin_stripped_signatures_with_blanks txin = [replicate 71 x30; []].
Proof.
  intros txin.
  exact (stripped_signatures_of_slots txin [Some (replicate 71 x30); None] eq_refl).
Defined.

(** The second at a 2-of-2 input with one signature: one key is unused. *)
Lemma unused_x_pubkeys_count_witness :
  let txin :=
    mkXTxInput (H := sample_bitcoinx) (replicate 32 xaa) 0 [] 4294967295 5000
      [x02 :: replicate 32 x11; x03 :: replicate 32 x22]
      (AddressOf (P2SH_Address (replicate 20 x07))) 2
      [replicate 71 x30 ++ [x41]; NO_SIGNATURE] in
  (length (txin_unused_x_pubkeys txin) + length (txin_signatures_present txin))%nat
  = 2%nat
  /\ txin_unused_x_pubkeys txin ⊆ x_pubkeys txin.
Proof.
  intros txin. apply (unused_x_pubkeys_count txin). reflexivity.
Defined.

(** The third at a key that starts with the byte 5, at a truncated
    extended key, at text that is not hexadecimal, and at the text of a
    compressed key, which the object holds decoded. *)
Lemma XPublicKey_init_outcomes_witness :
  XPublicKey_init (H := sample_bitcoinx) (RawBytes [x05; x00]) = Err ValueError
  /\ XPublicKey_init (H := sample_bitcoinx) (RawBytes (xff :: replicate 40 x00))
     = Err ValueError
  /\ XPublicKey_init (H := sample_bitcoinx) (RawStr "0x02") = Err ValueError
  /\ XPublicKey_init (H := sample_bitcoinx) (RawStr (hex (x02 :: replicate 32 x11)))
     = Ok (x02 :: replicate 32 x11).
Proof.
  split; [|split; [|split]].
  - destruct (XPublicKey_init_outcomes (H := sample_bitcoinx) [x05; x00] EmptyString)
      as (_ & _ & _ & _ & Hkind & _).
    apply (Hkind x05 [x00] eq_refl); cbn; lia.
  - destruct (XPublicKey_init_outcomes (H := sample_bitcoinx) (xff :: replicate 40 x00)
                EmptyString)
      as (_ & _ & _ & _ & _ & Hlen & _).
    apply (Hlen xff (replicate 40 x00) eq_refl). left. split; [reflexivity|].
    cbn. lia.
  - destruct (XPublicKey_init_outcomes (H := sample_bitcoinx) [] "0x02")
      as (_ & _ & _ & _ & _ & _ & Hbad & _).
    apply (Hbad ValueError). reflexivity.
  - destruct (XPublicKey_init_outcomes (H := sample_bitcoinx) []
                (hex (x02 :: replicate 32 x11)))
      as (_ & _ & _ & _ & _ & _ & _ & Hgood & _).
    rewrite (Hgood (x02 :: replicate 32 x11) (fromhex_hex _)). reflexivity.
Defined.

From Stdlib Require Import ZArith Lia.
From Stdlib Require Import Strings.Byte Strings.Ascii Strings.String.
From stdpp Require Import base option list gmap strings pretty.

Open Scope Z_scope.

(** * paymentrequest.py: amounts, payments and the invoice store *)

Lemma output_to_dict_from_dict (o : Output.t) :
  output_ok o -> Output.from_dict (Output.to_dict o) = Ok (output_read_back o).
Proof.
  intros Hlen. destruct o as [s a d]. unfold output_ok, output_read_back in *.
  cbn [Output.script Output.amount Output.description] in *.
  assert (Hinit : forall a', Output.init s a' (absent_if_empty d)
                             = Ok (Output.mk s a' (absent_if_empty d))).
  { intros a'. apply output_init_ok. intros d' Hd'. apply Hlen.
    destruct d as [[|]|]; cbn in Hd'; congruence. }
  unfold Output.from_dict, Output.to_dict.
  cbn [Output.script Output.amount Output.description].
  destruct a as [a|]; [destruct (decide (a = 0)) as [->|Ha]|];
    (destruct d as [d|]; [destruct (decide (d = EmptyString)) as [->|Hd]|]);
    cbn; str_decide; cbn; rewrite ?fromhex_hex; cbn;
    rewrite <- (Hinit _); clear Hinit;
    try reflexivity;
    try (destruct a; try congruence; destruct d; try congruence; reflexivity);
    try (destruct d; try congruence; reflexivity);
    try (destruct a; try congruence; reflexivity).
Qed.

Lemma output_read_back_ok (o : Output.t) : output_ok o -> output_ok (output_read_back o).
Proof.
  unfold output_ok, output_read_back. cbn [Output.description]. intros Hlen d Hd.
  apply Hlen. destruct (Output.description o) as [[|]|]; cbn in Hd; congruence.
Qed.

Lemma outputs_to_dict_from_dict (outs : list Output.t) :
  Forall output_ok outs ->
  result_mapM Output.from_dict (Output.to_dict <$> outs) = Ok (output_read_back <$> outs).
Proof.
  induction 1 as [|o outs Ho _ IH]; [reflexivity|].
  cbn [fmap list_fmap result_mapM] in *.
  now rewrite result_bind_unfold, (output_to_dict_from_dict o Ho), result_bind_unfold, IH.
Qed.

Lemma sum_amounts_spec (outs : list Output.t) (acc : Z) :
  sum_amounts acc outs
  = match mapM Output.amount outs with
    | Some amounts => Ok (acc + py_sum amounts)
    | None => Err TypeError
    end.
Proof.
  revert acc. induction outs as [|o outs IH]; intros acc.
  - cbn. f_equal. unfold py_sum. cbn. lia.
  - cbn [sum_amounts mapM]. destruct (Output.amount o) as [a|]; [|reflexivity].
    rewrite IH. cbn [mbind option_bind].
    destruct (mapM Output.amount outs) as [amounts|]; [|reflexivity].
    cbn [mbind option_bind mret option_ret]. rewrite py_sum_cons. f_equal. lia.
Qed.

(** X22. [get_amount()] is the sum of the amounts of the outputs when every
    output has one, and raises [TypeError] as soon as one has none. An
    output with the amount 0 loses it in [to_dict]/[from_dict]: for a request
    whose outputs were rebuilt so, [get_amount()] raises [TypeError] when one
    of the amounts was 0, and gives the same sum otherwise. *)
Theorem get_amount_sums_or_raises (pr : PaymentRequest.t) :
  PaymentRequest_get_amount pr
  = match mapM Output.amount (PaymentRequest.outputs pr) with
    | Some amounts => Ok (py_sum amounts)
    | None => Err TypeError
    end
  /\ forall amounts pr',
       mapM Output.amount (PaymentRequest.outputs pr) = Some amounts ->
       result_mapM Output.from_dict (Output.to_dict <$> PaymentRequest.outputs pr)
       = Ok (PaymentRequest.outputs pr') ->
       PaymentRequest_get_amount pr'
       = if bool_decide (0 ∈ amounts) then Err TypeError else Ok (py_sum amounts).
Proof.
  split; [apply sum_amounts_spec|].
  destruct pr as [? ? ? outs ? ? ? ? ?]. cbn [PaymentRequest.outputs].
  intros amounts pr' Hamounts Hrebuilt. unfold PaymentRequest_get_amount.
  generalize dependent (PaymentRequest.outputs pr'). clear pr'.
  intros rebuilt Hrebuilt.
  rewrite sum_amounts_spec.
  assert (Hback : mapM Output.amount rebuilt
                  = if bool_decide (0 ∈ amounts) then None else Some amounts).
  { revert amounts rebuilt Hamounts Hrebuilt.
    induction outs as [|o outs IH]; intros amounts rebuilt Hamounts Hrebuilt.
    - injection Hamounts as <-. injection Hrebuilt as <-.
      rewrite bool_decide_false by apply not_elem_of_nil. reflexivity.
    - cbn [mapM fmap list_fmap result_mapM] in *.
      destruct (Output.amount o) as [a|] eqn:Ha; [|discriminate].
      destruct (mapM Output.amount outs) as [amounts'|]; [|discriminate].
      cbn in Hamounts. injection Hamounts as <-.
      rewrite !result_bind_unfold in Hrebuilt.
      destruct (Output.from_dict (Output.to_dict o)) as [o'|] eqn:Ho'; [|discriminate].
      destruct (result_mapM _ _) as [rebuilt'|]; [|discriminate].
      injection Hrebuilt as <-. specialize (IH amounts' rebuilt' eq_refl eq_refl).
      assert (Ha' : Output.amount o' = absent_if_zero (Some a)).
      { destruct o as [s a0 d]. cbn in Ha. subst a0.
        unfold Output.from_dict, Output.to_dict in Ho'.
        cbn [Output.script Output.amount Output.description] in Ho'.
        destruct (decide (a = 0)) as [->|Hne];
          (destruct d as [d|]; [destruct (decide (d = EmptyString)) as [->|Hd]|]);
          cbn in Ho'; revert Ho'; str_decide; cbn; rewrite ?fromhex_hex; cbn;
          intros Ho'; apply output_init_inv in Ho' as [-> _]; cbn;
          try reflexivity; destruct a; cbn; congruence. }
      cbn [mapM]. rewrite Ha', IH.
      destruct (decide (a = 0)) as [->|Hne].
      + cbn. now rewrite bool_decide_true by apply list_elem_of_here.
      + replace (absent_if_zero (Some a)) with (Some a) by (destruct a; cbn; congruence).
        destruct (bool_decide_reflect (0 ∈ amounts')) as [Hin|Hnin]; cbn.
        * now rewrite bool_decide_true by (now apply list_elem_of_further).
        * rewrite bool_decide_false; [reflexivity|].
          intros Hin. apply elem_of_cons in Hin as [?|?]; [congruence|tauto]. }
  rewrite Hback. destruct (bool_decide (0 ∈ amounts)); reflexivity.
Qed.

(** The theorem at a request with the amounts 5000 and 0. *)
Lemma get_amount_sums_or_raises_witness :
  let outs := [Output.mk [x6a] (Some 5000) None; Output.mk [x51] (Some 0) None] in
  let pr := PaymentRequest.mk "1f" None None outs 1700000000 None None None None in
  let rebuilt := [Output.mk [x6a] (Some 5000) None; Output.mk [x51] None None] in
  let pr' := PaymentRequest.mk "2e" None None rebuilt 1700000000 None None None None in
  PaymentRequest_get_amount pr = Ok 5000
  /\ result_mapM Output.from_dict (Output.to_dict <$> outs) = Ok rebuilt
  /\ PaymentRequest_get_amount pr' = Err TypeError.
Proof.
  intros outs pr rebuilt pr'. destruct (get_amount_sums_or_raises pr) as [Hsum Hback].
  split; [exact Hsum|]. split; [reflexivity|].
  exact (Hback [5000; 0] pr' eq_refl eq_refl).
Defined.

(** X23. [Payment.from_dict] of the [to_dict] of a payment whose refund
    outputs are as their constructor makes them succeeds, with the same
    merchant data and transaction text, each refund output as its own round
    trip leaves it (an amount of 0 and an empty description absent), and the
    same memo unless it is the empty string, which comes back absent. *)
Theorem payment_dict_roundtrip (p : Payment.t) :
  Forall output_ok (Payment.refund_outputs p) ->
  Payment.from_dict (Payment.to_dict p)
  = Ok (Payment.mk (Payment.merchant_data p) (Payment.transaction_hex p)
          (output_read_back <$> Payment.refund_outputs p)
          (absent_if_empty (Payment.memo p))).
Proof.
  intros Houts. pose proof (outputs_to_dict_from_dict _ Houts) as Hback.
  destruct p as [md tx outs memo]. cbn [Payment.refund_outputs] in Hback.
  unfold Payment.from_dict, Payment.to_dict.
  cbn [Payment.merchant_data Payment.transaction_hex Payment.refund_outputs Payment.memo].
  destruct memo as [m|]; [destruct (decide (m = EmptyString)) as [->|Hm]|];
    cbn [app py_contains py_getitem py_get dict_get]; str_decide;
    cbn [bool_decide decide_rel negb default]; rewrite ?result_bind_unfold;
    cbn [negb]; rewrite ?result_bind_unfold;
    rewrite ?bool_decide_true by (now eexists);
    cbn [negb]; rewrite ?result_bind_unfold, ?Hback; cbn;
    try reflexivity.
  destruct m; [congruence|reflexivity].
Qed.

(** The theorem at a payment with a refund output of amount 0 and an empty
    memo. *)
Lemma payment_dict_roundtrip_witness :
  let p := Payment.mk (PyStr "order 17") "0100" [Output.mk [x6a] (Some 0) (Some "tip")]
             (Some EmptyString) in
  Payment.from_dict (Payment.to_dict p)
  = Ok (Payment.mk (PyStr "order 17") "0100" [Output.mk [x6a] None (Some "tip")] None).
Proof.
  intros p. apply (payment_dict_roundtrip p).
  constructor; [|constructor]. intros d' [= <-]. vm_compute. lia.
Defined.

Lemma dict_get_item {V} (d : pydict V) (k : string) (v : V) :
  NoDup (fst <$> d) -> (k, v) ∈ d -> dict_get d k = Some v.
Proof.
  induction d as [|[k' v'] d IH]; intros Hnodup Hin; [now apply elem_of_nil in Hin|].
  cbn [fmap list_fmap fst] in Hnodup. apply NoDup_cons in Hnodup as [Hk' Hnodup].
  cbn [dict_get]. apply elem_of_cons in Hin as [[= -> ->]|Hin].
  - now rewrite decide_True.
  - destruct (decide (k' = k)) as [->|Hne]; [|now apply IH].
    exfalso. apply Hk'. apply list_elem_of_fmap. now exists (k, v).
Qed.

Section invoices.
Context `{Library}.

Lemma set_paid_heap (pr : nat) (txid : string) (w : InvoiceStore.world) :
  let w' := snd (InvoiceStore.set_paid pr txid w) in
  InvoiceStore.invoices (InvoiceStore.store w')
  = InvoiceStore.invoices (InvoiceStore.store w)
  /\ InvoiceStore.heap w'
     = <[pr := with_tx (InvoiceStore.deref w pr) txid]> (InvoiceStore.heap w).
Proof.
  unfold InvoiceStore.set_paid, with_tx. cbn zeta.
  destruct (PaymentRequest.get_id _); split; reflexivity.
Qed.

(** X24. After [set_paid(pr, txid)], whether it returned or raised (it
    raises when [get_id()] does, after having set [pr.tx]), [get_status] of a
    key under which the store holds [pr] is [PR_PAID], expired or not, and
    [unpaid_invoices()] does not list [pr]: the store holds the object the
    caller passed, not a copy. *)
Theorem set_paid_marks_paid (w : InvoiceStore.world) (pr : nat) (key txid : string)
    (now : Z) :
  InvoiceStore_get key w = Some pr ->
  (pr < length (InvoiceStore.heap w))%nat ->
  NoDup (fst <$> InvoiceStore.invoices (InvoiceStore.store w)) ->
  let w' := snd (InvoiceStore.set_paid pr txid w) in
  InvoiceStore_get_status now key w' = Some PR_PAID
  /\ pr ∉ InvoiceStore_unpaid_invoices now w'.
Proof.
  intros Hget Hpr Hnodup w'.
  destruct (set_paid_heap pr txid w) as (Hinv & Hheap). fold w' in Hinv, Hheap.
  assert (Hstatus : forall k, InvoiceStore_get k w' = Some pr ->
            InvoiceStore_get_status now k w' = Some PR_PAID).
  { assert (Hderef : InvoiceStore.deref w' pr
                     = with_tx (InvoiceStore.deref w pr) txid).
    { unfold InvoiceStore.deref at 1.
      now rewrite Hheap, list_lookup_insert_eq by assumption. }
    intros k Hk. unfold InvoiceStore_get_status. rewrite Hk. cbn zeta.
    rewrite Hderef. cbn [with_tx PaymentRequest.tx]. now rewrite bool_decide_true. }
  split.
  - apply Hstatus. unfold InvoiceStore_get in *. now rewrite Hinv.
  - unfold InvoiceStore_unpaid_invoices. intros Hin.
    apply list_elem_of_fmap in Hin as ([k r] & Hr & Hin). cbn in Hr. subst r.
    apply list_elem_of_filter in Hin as [Hunpaid Hin]. cbn [fst] in Hunpaid.
    apply Hunpaid, Hstatus. unfold InvoiceStore_get.
    apply dict_get_item; [now rewrite Hinv|assumption].
Qed.

End invoices.

(** The theorem at a store that holds one expired invoice. *)
Lemma set_paid_marks_paid_witness :
  let pr := PaymentRequest.mk "1f" (Some "alice") None [] 1700000000 (Some 1700000600)
              None None None in
  let w := InvoiceStore.mkWorld [pr] (InvoiceStore.mk [] [("1f", 0%nat)] []) in
  let w' := snd (InvoiceStore.set_paid (H := sample_library) 0 "ab" w) in
  InvoiceStore_get_status 1700009999 "1f" w = Some PR_EXPIRED
  /\ InvoiceStore_get_status 1700009999 "1f" w' = Some PR_PAID
  /\ 0%nat ∉ InvoiceStore_unpaid_invoices 1700009999 w'.
Proof.
  intros pr w w'. split; [reflexivity|].
  apply (set_paid_marks_paid (H := sample_library) w 0 "1f" "ab" 1700009999);
    [reflexivity|cbn; lia|].
  cbn. apply NoDup_singleton.
Defined.

Section removing.

Lemma dict_del_absent {V} (d : pydict V) (k : string) :
  dict_get d k = None -> dict_del d k = d.
Proof.
  induction d as [|[k' v] d IH]; [reflexivity|]. cbn [dict_get dict_del].
  destruct (decide (k' = k)); [discriminate|]. intros Hd. now rewrite IH.
Qed.

Lemma dict_get_del {V} (d : pydict V) (k : string) :
  NoDup (fst <$> d) -> dict_get (dict_del d k) k = None.
Proof.
  induction d as [|[k' v] d IH]; intros Hnodup; [reflexivity|].
  cbn [fmap list_fmap fst] in Hnodup. apply NoDup_cons in Hnodup as [Hk' Hnodup].
  cbn [dict_del]. destruct (decide (k' = k)) as [->|Hne].
  - destruct (dict_get d k) as [v'|] eqn:Hget; [|reflexivity].
    exfalso. apply Hk'. clear -Hget. induction d as [|[k2 v2] d IH]; [discriminate|].
    cbn [dict_get] in Hget. cbn [fmap list_fmap fst].
    destruct (decide (k2 = k)) as [->|Hne]; [apply list_elem_of_here|].
    apply list_elem_of_further. now apply IH.
  - cbn [dict_get]. rewrite decide_False by assumption. now apply IH.
Qed.

(** X25. [remove(key)] never returns: for a key the store does not hold it
    raises [KeyError], and otherwise the [AttributeError] of [save()]. In
    both cases it has by then dropped from [paid] the first entry recorded
    for the key, if there is one; in the second the invoice is gone from
    [invoices]. The invoice objects are left as they are. *)
Theorem remove_outcome (key : string) (w : InvoiceStore.world) :
  let w' := snd (InvoiceStore.remove key w) in
  fst (InvoiceStore.remove key w)
  = match InvoiceStore_get key w with
    | Some _ => Err (AttributeError "wallet_data")
    | None => Err (KeyError key)
    end
  /\ InvoiceStore.paid (InvoiceStore.store w')
     = match InvoiceStore.first_paid_for key (InvoiceStore.paid (InvoiceStore.store w)) with
       | Some txid => dict_del (InvoiceStore.paid (InvoiceStore.store w)) txid
       | None => InvoiceStore.paid (InvoiceStore.store w)
       end
  /\ InvoiceStore.invoices (InvoiceStore.store w')
     = dict_del (InvoiceStore.invoices (InvoiceStore.store w)) key
  /\ (NoDup (fst <$> InvoiceStore.invoices (InvoiceStore.store w)) ->
      InvoiceStore_get key w' = None)
  /\ InvoiceStore.heap w' = InvoiceStore.heap w.
Proof.
  unfold InvoiceStore.remove, InvoiceStore_get, dict_pop. cbn zeta.
  cbn [InvoiceStore.store InvoiceStore.invoices InvoiceStore.heap InvoiceStore.paid].
  destruct (dict_get (InvoiceStore.invoices (InvoiceStore.store w)) key) as [r|] eqn:Hget.
  - rewrite invoice_store_save_raises.
    cbn [fst snd InvoiceStore.store InvoiceStore.invoices InvoiceStore.heap
         InvoiceStore.paid].
    repeat split. intros Hnodup. now apply dict_get_del.
  - cbn [fst snd InvoiceStore.store InvoiceStore.invoices InvoiceStore.heap
         InvoiceStore.paid].
    rewrite (dict_del_absent _ _ Hget). repeat split. now intros _.
Qed.

End removing.

(** The theorem at a store whose [paid] records a key that [invoices] does
    not hold. *)
Lemma remove_outcome_witness :
  let w := InvoiceStore.mkWorld [] (InvoiceStore.mk [] [] [("ab", "1f")]) in
  fst (InvoiceStore.remove "1f" w) = Err (KeyError "1f")
  /\ InvoiceStore.paid (InvoiceStore.store (snd (InvoiceStore.remove "1f" w))) = [].
Proof.
  intros w. destruct (remove_outcome "1f" w) as (Hfst & Hpaid & _).
  split; [exact Hfst|exact Hpaid].
Defined.

(** * paymentrequest.py: what [PaymentRequest.from_json] returns *)

Section from_json_result.
Context `{Library}.

Lemma optional_int_inv (field : string) (v : pyval) (z : option Z) :
  PaymentRequest.optional_int field v = Ok z -> v = opt_int z.
Proof. destruct v; intros [= <-]; reflexivity. Qed.

Lemma optional_str_inv (field : string) (v : pyval) (x : option string) :
  PaymentRequest.optional_str field v = Ok x -> v = InvoiceStore.opt_str x.
Proof. destruct v; intros [= <-]; reflexivity. Qed.

(** X26. A request that [PaymentRequest.from_json] returns comes from a text
    of at most 10,000,000 characters that [json.loads] reads as a dict whose
    network is "bitcoin"; its outputs are those of the dict read by
    [Output.from_dict], its creation timestamp is the integer of the dict and
    not the time of the call, its expiration timestamp, memo, payment URL and
    merchant data are what the dict holds for them or [None], its id is the
    fresh one, and it has no requestor and no transaction. *)
Theorem from_json_result (rand_id : string) (now : Z) (s : string)
    (pr : PaymentRequest.t) :
  PaymentRequest.from_json rand_id now s = Ok pr ->
  Z.of_nat (String.length s) <= PaymentRequest.MAXIMUM_JSON_LENGTH
  /\ exists d l,
       json_loads s = Ok (PyDict d)
       /\ dict_get d "network" = Some (PyStr "bitcoin")
       /\ dict_get d "outputs" = Some (PyList l)
       /\ result_mapM Output.from_dict l = Ok (PaymentRequest.outputs pr)
       /\ dict_get d "creationTimestamp"
          = Some (PyInt (PaymentRequest.creation_timestamp pr))
       /\ dict_get_or_none d "expirationTimestamp"
          = opt_int (PaymentRequest.expiration_timestamp pr)
       /\ dict_get_or_none d "memo" = InvoiceStore.opt_str (PaymentRequest.memo pr)
       /\ dict_get_or_none d "paymentUrl"
          = InvoiceStore.opt_str (PaymentRequest.payment_url pr)
       /\ dict_get_or_none d "merchantData"
          = InvoiceStore.opt_str (PaymentRequest.merchant_data pr)
       /\ PaymentRequest.id pr = rand_id
       /\ PaymentRequest.requestor pr = None
       /\ PaymentRequest.tx pr = None.
Proof.
  unfold PaymentRequest.from_json.
  destruct (Z.ltb_spec PaymentRequest.MAXIMUM_JSON_LENGTH (Z.of_nat (String.length s)));
    [discriminate|].
  intros Hrun. split; [assumption|].
  rewrite result_bind_unfold in Hrun.
  destruct (json_loads s) as [v|]; [|discriminate].
  destruct v as [| | | | |?|d]; try discriminate Hrun.
  exists d. cbn [py_get py_contains py_getitem] in Hrun.
  rewrite result_bind_unfold in Hrun. fold (dict_get_or_none d "network") in Hrun.
  unfold py_is_str in Hrun.
  destruct (dict_get_or_none d "network") as [| | | |net| |] eqn:Hnet;
    try discriminate Hrun.
  destruct (bool_decide_reflect (net = "bitcoin")) as [->|]; [|discriminate Hrun].
  cbn [negb] in Hrun. rewrite result_bind_unfold in Hrun.
  destruct (dict_get d "outputs") as [outs|] eqn:Houts.
  2:{ rewrite bool_decide_false in Hrun by (now intros [? ?]). discriminate Hrun. }
  rewrite bool_decide_true in Hrun by (now eexists). cbn [negb] in Hrun.
  rewrite result_bind_unfold in Hrun.
  destruct outs as [| | | | |l|]; try discriminate Hrun.
  exists l. rewrite result_bind_unfold in Hrun.
  destruct (result_mapM Output.from_dict l) as [parsed|]; [|discriminate Hrun].
  rewrite result_bind_unfold in Hrun.
  destruct (dict_get d "creationTimestamp") as [ct|] eqn:Hct.
  2:{ rewrite bool_decide_false in Hrun by (now intros [? ?]). discriminate Hrun. }
  rewrite bool_decide_true in Hrun by (now eexists). cbn [negb] in Hrun.
  rewrite result_bind_unfold in Hrun.
  destruct ct as [| |ct| | | |]; try discriminate Hrun.
  fold (dict_get_or_none d "expirationTimestamp") in Hrun.
  fold (dict_get_or_none d "memo") in Hrun.
  fold (dict_get_or_none d "paymentUrl") in Hrun.
  fold (dict_get_or_none d "merchantData") in Hrun.
  rewrite !result_bind_unfold in Hrun.
  destruct (PaymentRequest.optional_int _ _) as [exp|] eqn:Hexp; [|discriminate Hrun].
  rewrite !result_bind_unfold in Hrun.
  destruct (PaymentRequest.optional_str "memo" _) as [memo|] eqn:Hmemo;
    [|discriminate Hrun].
  rewrite !result_bind_unfold in Hrun.
  destruct (PaymentRequest.optional_str "paymentUrl" _) as [url|] eqn:Hurl;
    [|discriminate Hrun].
  rewrite !result_bind_unfold in Hrun.
  destruct (PaymentRequest.optional_str "merchantData" _) as [md|] eqn:Hmd;
    [|discriminate Hrun].
  injection Hrun as <-.
  cbn [PaymentRequest.outputs PaymentRequest.creation_timestamp PaymentRequest.id
       PaymentRequest.expiration_timestamp PaymentRequest.memo PaymentRequest.init
       PaymentRequest.payment_url PaymentRequest.merchant_data PaymentRequest.requestor
       PaymentRequest.tx].
  apply optional_int_inv in Hexp. apply optional_str_inv in Hmemo, Hurl, Hmd.
  unfold dict_get_or_none in Hnet.
  destruct (dict_get d "network") as [n|]; [|discriminate Hnet]. cbn in Hnet. subst n.
  repeat split; assumption.
Qed.

End from_json_result.

(** The theorem at a request read at the time 1800000000 from a document
    whose creation timestamp is 1700000000. *)
Lemma from_json_result_witness :
  let pr := PaymentRequest.mk "1f" None None [Output.mk [x6a] None None] 1700000000
              None (Some "rent") None None in
  PaymentRequest.from_json (H := request_library) "1f" 1800000000 doc_request = Ok pr
  /\ Z.of_nat (String.length doc_request) <= PaymentRequest.MAXIMUM_JSON_LENGTH.
Proof.
  intros pr.
  assert (Hrun : PaymentRequest.from_json (H := request_library) "1f" 1800000000
                   doc_request = Ok pr) by (vm_compute; reflexivity).
  split; [exact Hrun|].
  exact (proj1 (from_json_result (H := request_library) "1f" 1800000000 doc_request pr
                  Hrun)).
Defined.

(** * Ledger: short and long blobs *)

(** X27. The signature parser of [sign_message] raises [IndexError] on a blob
    of fewer than 4 bytes, and on one that ends before the byte that holds
    the length of [s], six bytes after the start plus the length [r] is
    declared with. On any longer blob it returns, whatever the blob declares
    for [s] and whatever follows: the result is the header byte, the declared
    number of bytes of [r] and all the bytes after the length of [s], less
    one byte for each of the two whose declared length is 33. A
    cancellation on the device or by the user returns the empty string. *)
Theorem ledger_sign_message_outcomes (signature : bytes) :
  ((length signature < 4)%nat ->
   Ledger.sign_message (Ledger.Signed signature) = Err IndexError)
  /\ (forall rl, signature !! 3%nat = Some rl ->
      let n := Z.to_nat (Z_of_byte rl) in
      ((length signature <= 4 + n + 1)%nat ->
       Ledger.sign_message (Ledger.Signed signature) = Err IndexError)
      /\ forall sl, signature !! (4 + n + 1)%nat = Some sl ->
         exists out,
           Ledger.sign_message (Ledger.Signed signature) = Ok out
           /\ length out
              = (1 + (n - (if (Z_of_byte rl =? 33)%Z then 1 else 0))
                 + (length signature - (n + 6)
                    - (if (Z_of_byte sl =? 33)%Z then 1 else 0)))%nat)
  /\ Ledger.sign_message Ledger.CancelledOnDevice = Ok []
  /\ Ledger.sign_message Ledger.CancelledByUser = Ok [].
Proof.
  split; [|split; [|split; reflexivity]].
  - intros Hlen. unfold Ledger.sign_message, getitem.
    now rewrite (lookup_ge_None_2 signature 3) by lia.
  - intros rl Hrl n. pose proof (lookup_lt_Some _ _ _ Hrl) as Hlt.
    unfold Ledger.sign_message, getitem. rewrite Hrl, result_bind_unfold. fold n.
    split.
    + intros Hlen. now rewrite (lookup_ge_None_2 signature (4 + n + 1)) by lia.
    + intros sl Hsl. pose proof (lookup_lt_Some _ _ _ Hsl) as Hlt'.
      rewrite Hsl, result_bind_unfold.
      destruct (signature !! 0%nat) as [b0|] eqn:Hb0;
        [|apply lookup_ge_None_1 in Hb0; lia].
      rewrite result_bind_unfold. eexists. split; [reflexivity|].
      cbn [length]. rewrite length_app. unfold slice.
      assert (Hr : length (take (4 + n - 4) (drop 4 signature)) = n)
        by (rewrite length_take, length_drop; lia).
      assert (Hs : length (drop (4 + n + 2) signature) = (length signature - (n + 6))%nat)
        by (rewrite length_drop; lia).
      destruct (Z_of_byte rl =? 33); destruct (Z_of_byte sl =? 33);
        rewrite ?length_drop; lia.
Qed.

(** The theorem at a 72-byte blob whose components are declared with 33
    bytes: the result has 65 bytes. *)
Lemma ledger_sign_message_outcomes_witness :
  let blob := [x30; x46; x02; x21] ++ x00 :: replicate 32 xaa
                ++ [x02; x21] ++ x00 :: replicate 32 xbb in
  exists out, Ledger.sign_message (Ledger.Signed blob) = Ok out
              /\ length out = 65%nat.
Proof.
  intros blob.
  destruct (proj1 (proj2 (ledger_sign_message_outcomes blob)) x21 eq_refl) as [_ Hok].
  exact (Hok x21 eq_refl).
Defined.

